(** * Ruby security core: credential vault and pairing identity

    A shallow embedding of [security/vault.py] and [security/identity.py],
    with the vault check of [security/audit.py].

    Conventions of the embedding.
    - Python [bytes] are [list byte]; Python [str] are Rocq [string]s read as the
      UTF-8 bytes of the text, so an ASCII-only [str] is a [string] whose
      characters are all below 128 and [":"], ["|"], ["="] are single characters.
    - A [dict] is a [gmap]; iteration order is not modelled (no statement below
      depends on it).
    - [time.time()] is a rational number of seconds: floating point rounding is
      not modelled. Every call of [time.time()] is a separate argument. In
      [time.time() - issued_at] the integer is converted to a float: the
      conversion is exact up to [2 ^ 53] in absolute value, and raises
      [OverflowError] beyond the range of a float. The model subtracts in exact
      arithmetic and has no such exit, so the statement on the expiry check of
      an arbitrary signed token takes [issued_at] within [2 ^ 53]; a token of
      [create_pairing_token] bears [int(time.time())], which is.
    - A raised exception is the [Raise] case of a [result]; a method that
      mutates [self] or the disk before raising returns the mutated state next
      to the exception.
    - [secrets.token_bytes] reads the next bytes of an entropy source that is
      part of the [world], next to the files.
    - The functions of the libraries the code calls ([hmac], [base64], [json],
      [int], [str], [AESGCM], [PBKDF2HMAC], [win32crypt], [hashlib]) are the
      fields of the classes [IdentityLib] and [CryptoLib]; what a statement needs to
      know about them is a hypothesis of that statement. *)

From Stdlib Require Import ZArith QArith Lia Lqa List Ascii String.
From Stdlib Require Import DecimalString DecimalZ DecimalPos.
From Stdlib.Strings Require Import Byte.
From stdpp Require Import base option list gmap strings fin_maps.

Local Open Scope string_scope.
Local Open Scope list_scope.

(** ** Python values shared by both modules *)

Abbreviation bytes := (list byte).

#[global] Instance byte_eq_decision : EqDecision byte := Byte.byte_eq_dec.

(** The exceptions the two modules raise or let escape. *)
Inductive vault_error :=
| VaultTooSmall
| VaultBadMagic
| VaultUnsupportedVersion
| VaultDpapiNotInstalled
| VaultDpapiUnavailable
| VaultSidecarMissing
| VaultPassphraseRequiredInit
| VaultPassphraseRequiredUnlock
| VaultDecryptionFailed.

Inductive token_invalid :=
| Malformed
| UnsupportedVersion
| InvalidSignature.

Inductive exn :=
| VaultError (why : vault_error)
| KeyError
| TokenInvalidError (why : token_invalid)
| TokenExpiredError
| TokenReplayError
| PeerNotAllowedError
| TypeError
| ValueError
| DecodeError
| PlatformError.

Inductive result (A : Type) :=
| Ok (a : A)
| Raise (e : exn).
Arguments Ok {A} a.
Arguments Raise {A} e.

(** A method: it reads and writes a state [S] and returns or raises. The
    state survives a raise. *)
Definition method (S A : Type) : Type := S -> result A * S.

Definition ret {S A} (a : A) : method S A := fun s => (Ok a, s).
Definition raise {S A} (e : exn) : method S A := fun s => (Raise e, s).
Definition bind {S A B} (m : method S A) (k : A -> method S B) : method S B :=
  fun s => match m s with
           | (Ok a, s') => k a s'
           | (Raise e, s') => (Raise e, s')
           end.
Definition get {S} : method S S := fun s => (Ok s, s).
Definition modify {S} (f : S -> S) : method S unit := fun s => (Ok tt, f s).
Definition lift_result {S A} (r : result A) : method S A := fun s => (r, s).

Notation "x <~ m ;; k" := (bind m (fun x => k))
  (at level 90, m at level 80, right associativity).
Notation "m ;;; k" := (bind m (fun _ => k))
  (at level 90, right associativity).

(** The byte of a number below 256. *)
Definition byte_of_N (n : N) : byte :=
  match Byte.of_N n with Some b => b | None => x00 end.

(** ** The world: files and entropy *)

Record world := World {
  files : gmap string bytes;
  entropy : nat -> byte;
  drawn : nat
}.

Definition set_files (f : gmap string bytes -> gmap string bytes) (w : world) : world :=
  World (f (files w)) (entropy w) (drawn w).

(** [secrets.token_bytes(n)]. *)
Definition peek_bytes (n : nat) (w : world) : bytes :=
  map (entropy w) (seq (drawn w) n).

Definition token_bytes (n : nat) (w : world) : bytes * world :=
  (peek_bytes n w, World (files w) (entropy w) (drawn w + n)).

(** ** Strings *)

Definition is_ascii_char (c : ascii) : bool :=
  match c with Ascii _ _ _ _ _ _ _ b7 => negb b7 end.

Fixpoint is_ascii (s : string) : bool :=
  match s with
  | EmptyString => true
  | String c r => is_ascii_char c && is_ascii r
  end.

(** [s.split(":")]. *)
Fixpoint split_on (sep : ascii) (s : string) : list string :=
  match s with
  | EmptyString => [EmptyString]
  | String c r =>
      if Ascii.eqb c sep then EmptyString :: split_on sep r
      else match split_on sep r with
           | [] => [String c EmptyString]
           | w :: ws => String c w :: ws
           end
  end.

Fixpoint occurs (c : ascii) (s : string) : bool :=
  match s with
  | EmptyString => false
  | String d r => Ascii.eqb d c || occurs c r
  end.

(** [s.rstrip("=")]. *)
Fixpoint rstrip (c : ascii) (s : string) : string :=
  match s with
  | EmptyString => EmptyString
  | String d r =>
      match rstrip c r with
      | EmptyString => if Ascii.eqb d c then EmptyString else String d EmptyString
      | r' => String d r'
      end
  end.

(** ["=" * n]. *)
Fixpoint replicate_char (n : nat) (c : ascii) : string :=
  match n with
  | O => EmptyString
  | S n' => String c (replicate_char n' c)
  end.

(** [bytes.hex()], lower case. *)
Definition hex_digit (n : N) : ascii :=
  ascii_of_N (if (n <? 10)%N then 48 + n else 87 + n)%N.

Definition hex_of_byte (b : byte) : string :=
  let n := Byte.to_N b in
  String (hex_digit (n / 16)) (String (hex_digit (n mod 16)) EmptyString).

Fixpoint hex_of_bytes (bs : bytes) : string :=
  match bs with
  | [] => EmptyString
  | b :: r => hex_of_byte b +:+ hex_of_bytes r
  end.

(** [int(x)] of a float: truncation towards zero. *)
Definition int_of_float (q : Q) : Z := Z.quot (Qnum q) (Zpos (Qden q)).

Definition Qlt_bool (x y : Q) : bool := negb (Qle_bool y x).

(** [hmac.compare_digest] on two [str]: it raises [TypeError] unless both are
    ASCII-only. *)
Definition compare_digest (a b : string) : result bool :=
  if is_ascii a && is_ascii b then Ok (String.eqb a b) else Raise TypeError.

(** * security/identity.py *)

(** What [json.loads] returns for the allowlist file: an object, whose values
    are strings or something else, or a value that is no object. *)
Inductive jvalue :=
| JStr (s : string)
| JOther.

Inductive jdoc :=
| JDict (d : gmap string jvalue)
| JNotDict.

(** The library calls of identity.py. *)
Class IdentityLib := {
  (** [hmac.new(key, message.encode("utf-8"), hashlib.sha256).hexdigest()] *)
  hmac_sha256_hexdigest : bytes -> string -> string;
  (** [base64.urlsafe_b64encode(s.encode("utf-8")).decode("ascii")] *)
  urlsafe_b64encode : string -> string;
  (** [base64.urlsafe_b64decode(s).decode("utf-8")], [None] when either call raises *)
  urlsafe_b64decode : string -> option string;
  (** [int(s)] of a [str], [None] for [ValueError] *)
  py_int : string -> option Z;
  (** [str(n)] of an [int] *)
  py_str : Z -> string;
  (** [json.loads(p.read_text("utf-8"))], [None] when either call raises *)
  json_loads : bytes -> option jdoc;
  (** [json.dumps(d, indent=2)] written as UTF-8 *)
  json_dumps : gmap string string -> bytes
}.

Module Identity.

Definition DEFAULT_TOKEN_TTL : Z := 5 * 60.
Definition NONCE_STORE_TTL : Z := 24 * 60 * 60.
Definition SIGNING_KEY_BYTES : nat := 32.
Definition TOKEN_VERSION : string := "1".

(** The two files under [self._dir]. *)
Definition key_file : string := "signing.key".
Definition _allowlist_path : string := "allowlist.json".

Record IdentityManager := Build {
  _token_ttl : Z;
  _signing_key : bytes;
  _nonce_store : gmap string Q;
  _allowlist : gmap string string
}.

Definition set_nonce_store (f : gmap string Q -> gmap string Q) (s : IdentityManager) :=
  Build (_token_ttl s) (_signing_key s) (f (_nonce_store s)) (_allowlist s).

Definition set_allowlist (a : gmap string string) (s : IdentityManager) :=
  Build (_token_ttl s) (_signing_key s) (_nonce_store s) a.

Definition set_signing_key (k : bytes) (s : IdentityManager) :=
  Build (_token_ttl s) k (_nonce_store s) (_allowlist s).

Section Code.
Context `{IdentityLib}.

(** Base64 helpers. [len(s)] counts characters; on an ASCII string this is
    the number of bytes, and on any other string [urlsafe_b64decode] raises
    whatever was appended. *)
Definition _b64enc (s : string) : string :=
  rstrip "=" (urlsafe_b64encode s).

Definition _b64dec (s : string) : option string :=
  let padding := 4 - String.length s mod 4 in
  let s := if decide (padding <> 4) then s +:+ replicate_char padding "=" else s in
  urlsafe_b64decode s.

Definition sign_with (key : bytes) (message : string) : string :=
  hmac_sha256_hexdigest key message.

Definition _sign (self : IdentityManager) (message : string) : string :=
  sign_with (_signing_key self) message.

Definition _make_payload (version peer_id issued_at nonce : string) : string :=
  version +:+ "|" +:+ peer_id +:+ "|" +:+ issued_at +:+ "|" +:+ nonce.

Definition _evict_expired_nonces (now : Q) (self : IdentityManager) : IdentityManager :=
  set_nonce_store (filter (fun p : string * Q => Qlt_bool now p.2 = true)) self.

(** [create_pairing_token]: [now] is the one reading of the clock. *)
Definition create_pairing_token (self : IdentityManager) (now : Q) (peer_id : string)
    (w : world) : string * world :=
  let issued_at := py_str (int_of_float now) in
  let '(rnd, w') := token_bytes 16 w in
  let nonce := hex_of_bytes rnd in
  let payload := _make_payload TOKEN_VERSION peer_id issued_at nonce in
  let signature := _sign self payload in
  (TOKEN_VERSION +:+ ":" +:+ _b64enc peer_id +:+ ":" +:+ issued_at +:+ ":" +:+ nonce
     +:+ ":" +:+ signature, w').

(** [verify_pairing_token]: the three readings of the clock are, in the order
    of the calls, [t_age] (expiry check), [t_evict] (inside
    [_evict_expired_nonces]) and [t_store] (the ledger entry).
    [verify_fields] is the body after
    [version, peer_id_b64, issued_at_str, nonce, given_sig = parts].
    The age is computed in exact arithmetic: the code's [float - int] agrees
    with it, up to rounding, for an [issued_at] of at most [2 ^ 53] in absolute
    value, and raises [OverflowError] for one beyond the range of a float,
    which is no exit here. *)
Definition verify_fields (t_age t_evict t_store : Q)
    (version peer_id_b64 issued_at_str nonce given_sig : string)
    : method IdentityManager string :=
  if negb (String.eqb version TOKEN_VERSION)
  then raise (TokenInvalidError UnsupportedVersion)
  else
    (* Verify signature FIRST *)
    peer_id <~ lift_result (from_option Ok (Raise DecodeError) (_b64dec peer_id_b64)) ;;
    self <~ get ;;
    let payload := _make_payload version peer_id issued_at_str nonce in
    let expected := _sign self payload in
    same <~ lift_result (compare_digest expected given_sig) ;;
    if negb same then raise (TokenInvalidError InvalidSignature)
    else
      (* Check expiry *)
      issued_at <~ lift_result (from_option Ok (Raise ValueError) (py_int issued_at_str)) ;;
      let age := (t_age - inject_Z issued_at)%Q in
      if Qlt_bool age 0 || Qlt_bool (inject_Z (_token_ttl self)) age
      then raise TokenExpiredError
      else
        (* Replay protection *)
        modify (_evict_expired_nonces t_evict) ;;;
        self <~ get ;;
        if decide (is_Some (_nonce_store self !! nonce))
        then raise TokenReplayError
        else
          modify (set_nonce_store
                    (insert nonce (t_store + inject_Z NONCE_STORE_TTL)%Q)) ;;;
          lift_result (from_option Ok (Raise DecodeError) (_b64dec peer_id_b64)).

Definition verify_pairing_token (t_age t_evict t_store : Q) (token : string)
    : method IdentityManager string :=
  match split_on ":" token with
  | [version; peer_id_b64; issued_at_str; nonce; given_sig] =>
      verify_fields t_age t_evict t_store version peer_id_b64 issued_at_str nonce given_sig
  | _ => raise (TokenInvalidError Malformed)
  end.

(** Allowlist API. *)
Definition is_peer_allowed (self : IdentityManager) (peer_id : string) : result bool :=
  match _allowlist self !! peer_id with
  | None => Ok false
  | Some sig => compare_digest (_sign self ("allow:" +:+ peer_id)) sig
  end.

(** [[p for p in self._allowlist if self.is_peer_allowed(p)]] over the keys
    [ps]. *)
Fixpoint allowed_among (self : IdentityManager) (ps : list string) : result (list string) :=
  match ps with
  | [] => Ok []
  | p :: rest =>
      match is_peer_allowed self p with
      | Raise e => Raise e
      | Ok b =>
          match allowed_among self rest with
          | Raise e => Raise e
          | Ok l => Ok (if b then p :: l else l)
          end
      end
  end.

Definition list_allowed_peers (self : IdentityManager) : result (list string) :=
  allowed_among self (map fst (map_to_list (_allowlist self))).

Definition assert_peer_allowed (self : IdentityManager) (peer_id : string) : result unit :=
  match is_peer_allowed self peer_id with
  | Raise e => Raise e
  | Ok true => Ok tt
  | Ok false => Raise PeerNotAllowedError
  end.

(** Persistence. [os.chmod] is not modelled. *)
Definition _save_signing_key (key : bytes) (w : world) : world :=
  set_files (insert key_file key) w.

Definition _load_or_create_signing_key (w : world) : bytes * world :=
  let fresh :=
    let '(key, w') := token_bytes SIGNING_KEY_BYTES w in
    (key, _save_signing_key key w') in
  match files w !! key_file with
  | Some raw => if decide (length raw = SIGNING_KEY_BYTES) then (raw, w) else fresh
  | None => fresh
  end.

Definition _save_allowlist (self : IdentityManager) (w : world) : world :=
  set_files (insert _allowlist_path (json_dumps (_allowlist self))) w.

(** The dict comprehension of [_load_allowlist] over the items of [data]: one
    [compare_digest] per item, which raises [TypeError] on a value that is no
    ASCII [str]. *)
Fixpoint verified_entries (key : bytes) (items : list (string * jvalue))
    : result (gmap string string) :=
  match items with
  | [] => Ok ∅
  | (pid, v) :: rest =>
      match v with
      | JOther => Raise TypeError
      | JStr sig =>
          match compare_digest (sign_with key ("allow:" +:+ pid)) sig with
          | Raise e => Raise e
          | Ok b =>
              match verified_entries key rest with
              | Raise e => Raise e
              | Ok m => Ok (if b then <[pid := sig]> m else m)
              end
          end
      end
  end.

Definition _load_allowlist (self : IdentityManager) (w : world) : IdentityManager :=
  match files w !! _allowlist_path with
  | Some raw =>
      (* try: ... except Exception: self._allowlist = {} *)
      match json_loads raw with
      | Some (JDict data) =>
          match verified_entries (_signing_key self) (map_to_list data) with
          | Ok m => set_allowlist m self
          | Raise _ => set_allowlist ∅ self
          end
      | Some JNotDict => set_allowlist ∅ self
      | None => set_allowlist ∅ self
      end
  | None => set_allowlist ∅ self
  end.

Definition __init__ (token_ttl : Z) (w : world) : IdentityManager * world :=
  let '(key, w') := _load_or_create_signing_key w in
  let self := Build token_ttl key ∅ ∅ in
  (_load_allowlist self w', w').

Definition allow_peer (peer_id : string) (self : IdentityManager) (w : world)
    : IdentityManager * world :=
  let sig := _sign self ("allow:" +:+ peer_id) in
  let self' := set_allowlist (<[peer_id := sig]> (_allowlist self)) self in
  (self', _save_allowlist self' w).

Definition revoke_peer (peer_id : string) (self : IdentityManager) (w : world)
    : result unit * (IdentityManager * world) :=
  match _allowlist self !! peer_id with
  | None => (Raise KeyError, (self, w))
  | Some _ =>
      let self' := set_allowlist (delete peer_id (_allowlist self)) self in
      (Ok tt, (self', _save_allowlist self' w))
  end.

Definition rotate_signing_key (self : IdentityManager) (w : world)
    : IdentityManager * world :=
  let '(key, w1) := token_bytes SIGNING_KEY_BYTES w in
  let self1 := set_signing_key key self in
  let w2 := _save_signing_key key w1 in
  let self2 :=
    set_allowlist (map_imap (fun pid _ => Some (_sign self1 ("allow:" +:+ pid)))
                            (_allowlist self1)) self1 in
  (self2, _save_allowlist self2 w2).

End Code.
End Identity.

(** * security/vault.py *)

(** The library calls of vault.py. *)
Class CryptoLib := {
  (** [AESGCM(key).encrypt(nonce, plaintext, None)], for the 32-byte keys and
      12-byte nonces the vault uses *)
  AESGCM_encrypt : bytes -> bytes -> bytes -> bytes;
  (** [AESGCM(key).decrypt(nonce, data, None)], [None] when the constructor or
      the call raises *)
  AESGCM_decrypt : bytes -> bytes -> bytes -> option bytes;
  (** [PBKDF2HMAC(SHA256(), 32, salt, iterations).derive(passphrase.encode("utf-8"))] *)
  PBKDF2HMAC_derive : N -> bytes -> string -> bytes;
  (** [win32crypt.CryptProtectData(data, "Ruby Vault Key", None, None, None, 0)] *)
  CryptProtectData : bytes -> bytes;
  (** [win32crypt.CryptUnprotectData(blob, None, None, None, 0)[0]], the element
      [_dpapi_unprotect] keeps as the key. pywin32 returns the pair of the
      description and the data, so that element 0 is the description the blob
      was protected with (a [str], held here as its UTF-8 bytes) and element 1,
      which the code discards, the protected data. [None] when the call raises *)
  CryptUnprotectData : bytes -> option bytes;
  (** [hashlib.sha256(data).digest()] *)
  sha256_digest : bytes -> bytes;
  (** [json.dumps(d, separators=(",", ":")).encode("utf-8")] *)
  json_dumps_compact : gmap string string -> bytes;
  (** [json.loads(plaintext.decode("utf-8"))] read as the [dict] of [str] the
      vault stores, [None] when a call raises. [_load] keeps whatever value
      [json.loads] returns; a payload that is JSON but no [dict] of [str] is
      outside the model (see [payload_written_by_save]) *)
  json_loads_payload : bytes -> option (gmap string string);
  (** Windows with pywin32 installed *)
  _DPAPI_AVAILABLE : bool
}.

Module Vault.

Definition MAGIC : bytes := [x52; x55; x42; x56].
Definition VERSION : N := 1.
Definition KEY_MODE_DPAPI : byte := x00.
Definition KEY_MODE_PBKDF2 : byte := x01.
Definition PBKDF2_ITERATIONS : N := 600000.

(** The vault file, the temporary file of [_save] and the DPAPI sidecar. *)
Definition _path : string := "vault.enc".
Definition tmp_path : string := "vault.enc.tmp".
Definition _dpapi_sidecar_path : string := ".dpapi_key".

Record Vault := Build {
  _passphrase : option string;
  _data : option (gmap string string);
  _aes_key : option bytes;
  _key_mode : byte;
  _wrapped_key_or_salt : option bytes
}.

Definition set_data (d : option (gmap string string)) (v : Vault) :=
  Build (_passphrase v) d (_aes_key v) (_key_mode v) (_wrapped_key_or_salt v).
Definition set_aes_key (k : option bytes) (v : Vault) :=
  Build (_passphrase v) (_data v) k (_key_mode v) (_wrapped_key_or_salt v).
Definition set_key_mode (m : byte) (v : Vault) :=
  Build (_passphrase v) (_data v) (_aes_key v) m (_wrapped_key_or_salt v).
Definition set_wrapped (x : option bytes) (v : Vault) :=
  Build (_passphrase v) (_data v) (_aes_key v) (_key_mode v) x.

(** [struct.pack("<H", n)] and [struct.unpack_from("<H", raw, offset)]. *)
Definition pack_H (n : N) : bytes :=
  [byte_of_N (n mod 256); byte_of_N (n / 256 mod 256)].

Definition unpack_H (raw : bytes) (offset : nat) : N :=
  match drop offset raw with
  | lo :: hi :: _ => Byte.to_N lo + 256 * Byte.to_N hi
  | _ => 0
  end%N.

(** [not self._passphrase]. *)
Definition no_passphrase (p : option string) : bool :=
  match p with
  | None => true
  | Some EmptyString => true
  | Some _ => false
  end.

Definition passphrase_text (p : option string) : string :=
  match p with Some s => s | None => EmptyString end.

(** A method of [Vault] runs on the instance and the world. *)
Definition vmethod (A : Type) : Type := method (Vault * world) A.

Definition self : vmethod Vault := fun s => (Ok s.1, s).
Definition update (f : Vault -> Vault) : vmethod unit := fun s => (Ok tt, (f s.1, s.2)).
Definition disk : vmethod (gmap string bytes) := fun s => (Ok (files s.2), s).
Definition write_disk (f : gmap string bytes -> gmap string bytes) : vmethod unit :=
  fun s => (Ok tt, (s.1, set_files f s.2)).
Definition secrets_token_bytes (n : nat) : vmethod bytes :=
  fun s => let '(b, w) := token_bytes n s.2 in (Ok b, (s.1, w)).

Section Code.
Context `{CryptoLib}.

Definition __init__ (passphrase : option string) : Vault :=
  Build passphrase None None
        (if _DPAPI_AVAILABLE then KEY_MODE_DPAPI else KEY_MODE_PBKDF2) None.

Definition _pbkdf2_key (passphrase : string) (salt : bytes) : bytes :=
  PBKDF2HMAC_derive PBKDF2_ITERATIONS salt passphrase.

Definition _dpapi_protect (data : bytes) : vmethod bytes :=
  if negb _DPAPI_AVAILABLE then raise (VaultError VaultDpapiUnavailable)
  else
    let encrypted := CryptProtectData data in
    write_disk (insert _dpapi_sidecar_path encrypted) ;;;
    ret (sha256_digest encrypted).

Definition _dpapi_unprotect (fingerprint : bytes) : vmethod bytes :=
  if negb _DPAPI_AVAILABLE then raise (VaultError VaultDpapiUnavailable)
  else
    fs <~ disk ;;
    match fs !! _dpapi_sidecar_path with
    | None => raise (VaultError VaultSidecarMissing)
    | Some blob =>
        match CryptUnprotectData blob with
        | Some aes_key => ret aes_key
        | None => raise PlatformError
        end
    end.

(** [_save]. Its callers have set the key, the data and the header field; the
    raise of [TypeError] stands for the use of one that is still [None]. *)
Definition _save : vmethod unit :=
  nonce <~ secrets_token_bytes 12 ;;
  v <~ self ;;
  match _aes_key v, _data v, _wrapped_key_or_salt v with
  | Some aes_key, Some data, Some wrapped =>
      let plaintext := json_dumps_compact data in
      let ciphertext_with_tag := AESGCM_encrypt aes_key nonce plaintext in
      let header := MAGIC ++ pack_H VERSION ++ [_key_mode v] ++ wrapped in
      (* Write to a temp file, then atomically rename *)
      write_disk (insert tmp_path (header ++ nonce ++ ciphertext_with_tag)) ;;;
      fs <~ disk ;;
      match fs !! tmp_path with
      | Some content => write_disk (fun fs => <[_path := content]> (delete tmp_path fs))
      | None => raise PlatformError
      end
  | _, _, _ => raise TypeError
  end.

Definition _initialise_new_vault : vmethod unit :=
  aes_key <~ secrets_token_bytes 32 ;;
  update (set_aes_key (Some aes_key)) ;;;
  v <~ self ;;
  (if decide (_key_mode v = KEY_MODE_DPAPI)
   then
     wrapped <~ _dpapi_protect aes_key ;;
     update (set_wrapped (Some wrapped))
   else
     if no_passphrase (_passphrase v)
     then raise (VaultError VaultPassphraseRequiredInit)
     else
       salt <~ secrets_token_bytes 32 ;;
       update (set_wrapped (Some salt)) ;;;
       update (set_aes_key (Some (_pbkdf2_key (passphrase_text (_passphrase v)) salt)))) ;;;
  update (set_data (Some ∅)) ;;;
  _save.

Definition _load : vmethod unit :=
  fs <~ disk ;;
  match fs !! _path with
  | None => raise PlatformError
  | Some raw =>
      (* Parse header *)
      if decide (length raw < 4 + 2 + 1 + 32 + 12 + 16)
      then raise (VaultError VaultTooSmall)
      else if negb (bool_decide (take 4 raw = MAGIC))
      then raise (VaultError VaultBadMagic)
      else
        let offset := 4 in
        let version := unpack_H raw offset in
        let offset := offset + 2 in
        if negb (N.eqb version VERSION)
        then raise (VaultError VaultUnsupportedVersion)
        else
          let key_mode := nth offset raw x00 in
          let offset := offset + 1 in
          update (set_key_mode key_mode) ;;;
          let wrapped := take 32 (drop offset raw) in
          let offset := offset + 32 in
          update (set_wrapped (Some wrapped)) ;;;
          let nonce := take 12 (drop offset raw) in
          let offset := offset + 12 in
          let ciphertext_with_tag := drop offset raw in
          (* Recover the AES key *)
          v <~ self ;;
          aes_key <~
            (if decide (key_mode = KEY_MODE_DPAPI)
             then
               if negb _DPAPI_AVAILABLE
               then raise (VaultError VaultDpapiNotInstalled)
               else _dpapi_unprotect wrapped
             else
               if no_passphrase (_passphrase v)
               then raise (VaultError VaultPassphraseRequiredUnlock)
               else ret (_pbkdf2_key (passphrase_text (_passphrase v)) wrapped)) ;;
          update (set_aes_key (Some aes_key)) ;;;
          (* Decrypt *)
          match AESGCM_decrypt aes_key nonce ciphertext_with_tag with
          | None => raise (VaultError VaultDecryptionFailed)
          | Some plaintext =>
              match json_loads_payload plaintext with
              | None => raise ValueError
              | Some data => update (set_data (Some data))
              end
          end
  end.

Definition _ensure_loaded : vmethod unit :=
  v <~ self ;;
  match _data v with
  | Some _ => ret tt
  | None =>
      fs <~ disk ;;
      if decide (is_Some (fs !! _path)) then _load else _initialise_new_vault
  end.

(** The mapping after [_ensure_loaded]. *)
Definition loaded_data : vmethod (gmap string string) :=
  v <~ self ;;
  match _data v with
  | Some data => ret data
  | None => raise TypeError
  end.

Definition store (key value : string) : vmethod unit :=
  _ensure_loaded ;;;
  data <~ loaded_data ;;
  update (set_data (Some (<[key := value]> data))) ;;;
  _save.

Definition retrieve (key : string) : vmethod string :=
  _ensure_loaded ;;;
  data <~ loaded_data ;;
  match data !! key with
  | None => raise KeyError
  | Some value => ret value
  end.

Definition delete (key : string) : vmethod unit :=
  _ensure_loaded ;;;
  data <~ loaded_data ;;
  match data !! key with
  | None => raise KeyError
  | Some _ =>
      update (set_data (Some (base.delete key data))) ;;;
      _save
  end.

Definition list_keys : vmethod (list string) :=
  _ensure_loaded ;;;
  data <~ loaded_data ;;
  ret (map fst (map_to_list data)).

Definition rotate_key : vmethod unit :=
  _ensure_loaded ;;;
  (* Generate a fresh key and forget the old one *)
  aes_key <~ secrets_token_bytes 32 ;;
  update (set_aes_key (Some aes_key)) ;;;
  v <~ self ;;
  (if decide (_key_mode v = KEY_MODE_DPAPI)
   then
     wrapped <~ _dpapi_protect aes_key ;;
     update (set_wrapped (Some wrapped))
   else
     salt <~ secrets_token_bytes 32 ;;
     update (set_wrapped (Some salt))) ;;;
  _save.

Definition is_locked (v : Vault) (w : world) : bool :=
  bool_decide (is_Some (files w !! _path)) && bool_decide (_data v = None).

End Code.
End Vault.

(** * security/audit.py: the vault check *)
Module Audit.

(** [Severity]. *)
Definition CRITICAL : string := "CRITICAL".
Definition HIGH : string := "HIGH".
Definition MEDIUM : string := "MEDIUM".
Definition LOW : string := "LOW".
Definition INFO : string := "INFO".

(** [Finding]; the texts [description] and [fix] are left out. *)
Record Finding := Build {
  check_id : string;
  severity : string;
  title : string;
  auto_fixed : bool
}.

(** [AuditReport.add] and [AuditReport.has_critical_or_high], on the list of
    findings. *)
Definition add (finding : Finding) (findings : list Finding) : list Finding :=
  findings ++ [finding].

Definition has_critical_or_high (findings : list Finding) : bool :=
  existsb (fun f => String.eqb (severity f) CRITICAL || String.eqb (severity f) HIGH)
          findings.

(** [_check_vault], for a vault at its default path. Reading a file of the
    world does not fail, so the handler of the read is not reached. *)
Definition _check_vault (w : world) (findings : list Finding) : list Finding :=
  match files w !! Vault._path with
  | None => add (Build "VAULT-001" HIGH "Vault not initialised" false) findings
  | Some raw =>
      (* Verify magic bytes *)
      if negb (bool_decide (take 4 raw = [x52; x55; x42; x56]))
      then add (Build "VAULT-002" CRITICAL "Vault file is corrupt or tampered" false) findings
      else add (Build "VAULT-003" INFO "Encrypted vault present" false) findings
  end.

End Audit.

(** * Vocabulary of the statements *)

(** Character classes of the strings the libraries return. *)
Definition is_hex_char (c : ascii) : bool :=
  let n := N_of_ascii c in
  ((48 <=? n) && (n <=? 57) || (97 <=? n) && (n <=? 102))%N.

Definition is_b64url_char (c : ascii) : bool :=
  let n := N_of_ascii c in
  ((48 <=? n) && (n <=? 57) || (65 <=? n) && (n <=? 90) || (97 <=? n) && (n <=? 122)
   || (n =? 45) || (n =? 95) || (n =? 61))%N.

Definition is_decimal_char (c : ascii) : bool :=
  let n := N_of_ascii c in
  ((48 <=? n) && (n <=? 57) || (n =? 45))%N.

Fixpoint all_chars (f : ascii -> bool) (s : string) : bool :=
  match s with
  | EmptyString => true
  | String c r => f c && all_chars f r
  end.

(** The expiry test of [verify_pairing_token]:
    [age < 0 or age > self._token_ttl]. *)
Definition expired (token_ttl : Z) (t_age : Q) (issued_at : Z) : bool :=
  Qlt_bool (t_age - inject_Z issued_at) 0
  || Qlt_bool (inject_Z token_ttl) (t_age - inject_Z issued_at).

(** Every entry of the in-memory allowlist carries the signature the current
    key gives. *)
Definition allowlist_valid `{IdentityLib} (self : Identity.IdentityManager) : Prop :=
  forall pid sig,
    Identity._allowlist self !! pid = Some sig ->
    sig = Identity._sign self ("allow:" +:+ pid).

(** The bytes [_save] writes: [header + nonce + ciphertext_with_tag]. *)
Definition vault_file (key_mode : byte) (wrapped nonce ciphertext_with_tag : bytes) : bytes :=
  (Vault.MAGIC ++ Vault.pack_H Vault.VERSION ++ [key_mode] ++ wrapped)
    ++ nonce ++ ciphertext_with_tag.

(** [k] is the key [_load] recovers from the header field [wrapped]: through
    the sidecar and DPAPI in mode 0, from the passphrase and the salt
    otherwise. *)
Definition recovers `{CryptoLib} (passphrase : option string) (fs : gmap string bytes)
    (key_mode : byte) (wrapped k : bytes) : Prop :=
  if decide (key_mode = Vault.KEY_MODE_DPAPI)
  then _DPAPI_AVAILABLE = true
       /\ exists blob, fs !! Vault._dpapi_sidecar_path = Some blob
                      /\ CryptUnprotectData blob = Some k
  else Vault.no_passphrase passphrase = false
       /\ k = Vault._pbkdf2_key (Vault.passphrase_text passphrase) wrapped.

(** The description [_dpapi_protect] gives to [CryptProtectData]. *)
Definition dpapi_description : bytes := list_byte_of_string "Ruby Vault Key".

(** A loaded instance holds the key that a new instance would recover from
    what is on disk: the state [_load] leaves, and [_initialise_new_vault] in
    passphrase mode. *)
Definition vault_consistent `{CryptoLib} (v : Vault.Vault) (w : world) : Prop :=
  match Vault._data v with
  | None => True
  | Some _ =>
      exists k x,
        Vault._aes_key v = Some k
        /\ Vault._wrapped_key_or_salt v = Some x
        /\ length x = 32
        /\ recovers (Vault._passphrase v) (files w) (Vault._key_mode v) x k
  end.

(** Bit [i mod 8] of byte [i / 8] of [bs] flipped; [bs] itself when it has no
    such byte. *)
Definition flip_byte (i : nat) (b : byte) : byte :=
  match Byte.of_N (N.lxor (Byte.to_N b) (2 ^ N.of_nat i)) with
  | Some b' => b'
  | None => b
  end.

Fixpoint flip_bit (i : nat) (bs : bytes) : bytes :=
  match bs with
  | [] => []
  | b :: r => if Nat.ltb i 8 then flip_byte i b :: r else b :: flip_bit (i - 8) r
  end.

(** [s.count(c)]. *)
Fixpoint count_char (c : ascii) (s : string) : nat :=
  match s with
  | EmptyString => 0
  | String d r => (if Ascii.eqb d c then 1 else 0) + count_char c r
  end.

(** The key file holds the instance's signing key, of 32 bytes. *)
Definition key_on_disk (self : Identity.IdentityManager) (w : world) : Prop :=
  files w !! Identity.key_file = Some (Identity._signing_key self)
  /\ length (Identity._signing_key self) = Identity.SIGNING_KEY_BYTES.

(** The allowlist file is what [_save_allowlist] writes for the instance. *)
Definition allowlist_on_disk `{IdentityLib} (self : Identity.IdentityManager) (w : world)
    : Prop :=
  files w !! Identity._allowlist_path = Some (json_dumps (Identity._allowlist self)).

(** One call of a method of [IdentityManager] that changes the instance or
    the disk, with any arguments, any clock and either outcome. *)
Inductive identity_step `{IdentityLib}
    : Identity.IdentityManager * world -> Identity.IdentityManager * world -> Prop :=
| step_create_pairing_token self w now peer_id :
    identity_step (self, w) (self, (Identity.create_pairing_token self now peer_id w).2)
| step_verify_pairing_token self w t_age t_evict t_store token :
    identity_step (self, w)
      ((Identity.verify_pairing_token t_age t_evict t_store token self).2, w)
| step_allow_peer self w peer_id :
    identity_step (self, w) (Identity.allow_peer peer_id self w)
| step_revoke_peer self w peer_id :
    identity_step (self, w) (Identity.revoke_peer peer_id self w).2
| step_rotate_signing_key self w :
    identity_step (self, w) (Identity.rotate_signing_key self w).

(** The disk [_save] leaves after drawing its nonce: the content goes to the
    temporary file, which then replaces the vault file. *)
Definition saved_world (content : bytes) (w : world) : world :=
  World (<[Vault._path := content]>
           (delete Vault.tmp_path (<[Vault.tmp_path := content]> (files w))))
        (entropy w) (drawn w + 12).

(** The step "Recover the AES key" of [_load]: the key, or the exception the
    step raises. *)
Definition recover_key `{CryptoLib} (passphrase : option string) (fs : gmap string bytes)
    (key_mode : byte) (wrapped : bytes) : result bytes :=
  if decide (key_mode = Vault.KEY_MODE_DPAPI)
  then
    if negb _DPAPI_AVAILABLE then Raise (VaultError VaultDpapiNotInstalled)
    else match fs !! Vault._dpapi_sidecar_path with
         | None => Raise (VaultError VaultSidecarMissing)
         | Some blob =>
             match CryptUnprotectData blob with
             | Some aes_key => Ok aes_key
             | None => Raise PlatformError
             end
         end
  else
    if Vault.no_passphrase passphrase then Raise (VaultError VaultPassphraseRequiredUnlock)
    else Ok (Vault._pbkdf2_key (Vault.passphrase_text passphrase) wrapped).

(** The payload of the vault file on [w], whenever it decrypts under the key
    an instance with this passphrase recovers, is one [_save] wrote: the
    compact JSON text of a dictionary of strings. ([_load] keeps whatever
    [json.loads] returns; the methods are modelled for a dictionary.) *)
Definition payload_written_by_save `{CryptoLib} (passphrase : option string) (w : world)
    : Prop :=
  forall raw k plaintext,
    files w !! Vault._path = Some raw ->
    recover_key passphrase (files w) (nth 6 raw x00) (take 32 (drop 7 raw)) = Ok k ->
    AESGCM_decrypt k (take 12 (drop 39 raw)) (drop 51 raw) = Some plaintext ->
    exists d, plaintext = json_dumps_compact d.

(** Every public method that starts with [_ensure_loaded] raises [e] on [s]
    and leaves [s']. *)
Definition every_method_raises `{CryptoLib} (e : exn) (s s' : Vault.Vault * world) : Prop :=
  Vault._ensure_loaded s = (Raise e, s')
  /\ (forall key value, Vault.store key value s = (Raise e, s'))
  /\ (forall key, Vault.retrieve key s = (Raise e, s'))
  /\ (forall key, Vault.delete key s = (Raise e, s'))
  /\ Vault.list_keys s = (Raise e, s')
  /\ Vault.rotate_key s = (Raise e, s').

(** A call of a public method of [Vault], the exception it raises if any,
    and the instance and the world it leaves either way. *)
Inductive vault_call :=
| CallStore (key value : string)
| CallRetrieve (key : string)
| CallDelete (key : string)
| CallListKeys
| CallRotateKey.

Definition raised {A} (r : result A) : option exn :=
  match r with
  | Ok _ => None
  | Raise e => Some e
  end.

Definition call_raises `{CryptoLib} (c : vault_call) (s : Vault.Vault * world) : option exn :=
  match c with
  | CallStore key value => raised (Vault.store key value s).1
  | CallRetrieve key => raised (Vault.retrieve key s).1
  | CallDelete key => raised (Vault.delete key s).1
  | CallListKeys => raised (Vault.list_keys s).1
  | CallRotateKey => raised (Vault.rotate_key s).1
  end.

Definition after_call `{CryptoLib} (c : vault_call) (s : Vault.Vault * world)
    : Vault.Vault * world :=
  match c with
  | CallStore key value => (Vault.store key value s).2
  | CallRetrieve key => (Vault.retrieve key s).2
  | CallDelete key => (Vault.delete key s).2
  | CallListKeys => (Vault.list_keys s).2
  | CallRotateKey => (Vault.rotate_key s).2
  end.

Definition after_calls `{CryptoLib} (cs : list vault_call) (s : Vault.Vault * world)
    : Vault.Vault * world :=
  fold_left (fun s c => after_call c s) cs s.

Definition is_rotate_key (c : vault_call) : bool :=
  match c with
  | CallRotateKey => true
  | _ => false
  end.

(** What the instance holds in memory is what a new instance with the same
    passphrase reads from the disk on its first access. *)
Definition vault_mirrored `{CryptoLib} (v : Vault.Vault) (w : world) : Prop :=
  forall d,
    Vault._data v = Some d ->
    exists v',
      Vault._ensure_loaded (Vault.__init__ (Vault._passphrase v), w) = (Ok tt, (v', w))
      /\ Vault._data v' = Some d.

(** * Simulated libraries

    Executable stand-ins for the library calls, used to run the code of both
    modules on concrete inputs. They are no cryptography: each one satisfies
    the facts about the real library that a statement below assumes. *)
Module Sim.

(** Two bits per character, four characters per byte: the output has a
    length divisible by four, no padding and no colon. *)
Definition quad_char (b1 b0 : bool) : ascii :=
  match b1, b0 with
  | false, false => "A"
  | false, true => "B"
  | true, false => "C"
  | true, true => "D"
  end%char.

Definition quad_bits (c : ascii) : option (bool * bool) :=
  if Ascii.eqb c "A" then Some (false, false)
  else if Ascii.eqb c "B" then Some (false, true)
  else if Ascii.eqb c "C" then Some (true, false)
  else if Ascii.eqb c "D" then Some (true, true)
  else None.

Fixpoint b64encode (s : string) : string :=
  match s with
  | EmptyString => EmptyString
  | String (Ascii b0 b1 b2 b3 b4 b5 b6 b7) r =>
      String (quad_char b7 b6) (String (quad_char b5 b4)
        (String (quad_char b3 b2) (String (quad_char b1 b0) (b64encode r))))
  end.

Fixpoint b64decode (s : string) : option string :=
  match s with
  | EmptyString => Some EmptyString
  | String c3 (String c2 (String c1 (String c0 r))) =>
      match quad_bits c3, quad_bits c2, quad_bits c1, quad_bits c0, b64decode r with
      | Some (b7, b6), Some (b5, b4), Some (b3, b2), Some (b1, b0), Some r' =>
          Some (String (Ascii b0 b1 b2 b3 b4 b5 b6 b7) r')
      | _, _, _, _, _ => None
      end
  | _ => None
  end.

Definition hmac (key : bytes) (message : string) : string :=
  hex_of_bytes (key ++ list_byte_of_string message).

Definition int_of_str (s : string) : option Z :=
  option_map Z.of_int (NilZero.int_of_string s).

Definition str_of_int (z : Z) : string :=
  NilZero.string_of_int (Z.to_int z).

(** A positive number as one byte per bit. *)
Fixpoint bytes_of_pos (p : positive) : bytes :=
  match p with
  | xH => []
  | xO q => x00 :: bytes_of_pos q
  | xI q => x01 :: bytes_of_pos q
  end.

Fixpoint pos_of_bytes (bs : bytes) : option positive :=
  match bs with
  | [] => Some xH
  | x00 :: r => option_map xO (pos_of_bytes r)
  | x01 :: r => option_map xI (pos_of_bytes r)
  | _ => None
  end.

Definition dumps (d : gmap string string) : bytes := bytes_of_pos (encode d).

Definition loads_dict (bs : bytes) : option (gmap string string) :=
  match pos_of_bytes bs with
  | Some p => decode p
  | None => None
  end.

Definition loads (bs : bytes) : option jdoc :=
  option_map (fun d : gmap string string => JDict (JStr <$> d)) (loads_dict bs).

#[export] Instance identity_lib : IdentityLib := {|
  hmac_sha256_hexdigest := hmac;
  urlsafe_b64encode := b64encode;
  urlsafe_b64decode := b64decode;
  py_int := int_of_str;
  py_str := str_of_int;
  json_loads := loads;
  json_dumps := dumps
|}.

(** A 16-byte checksum: sixteen running sums, taken in turn. A change of one
    byte of the input changes it. *)
Definition rot_add (acc : list N) (b : byte) : list N :=
  match acc with
  | [] => []
  | a :: r => r ++ [((a + Byte.to_N b) mod 256)%N]
  end.

Definition tag16 (bs : bytes) : bytes :=
  map byte_of_N (fold_left rot_add bs (repeat 0%N 16)).

Definition aead_encrypt (key nonce plaintext : bytes) : bytes :=
  plaintext ++ tag16 (key ++ nonce ++ plaintext).

Definition aead_decrypt (key nonce data : bytes) : option bytes :=
  let plaintext := take (length data - 16) data in
  if bool_decide (data = plaintext ++ tag16 (key ++ nonce ++ plaintext))
  then Some plaintext else None.

Definition kdf (iterations : N) (salt : bytes) (passphrase : string) : bytes :=
  tag16 (list_byte_of_string passphrase ++ salt)
    ++ tag16 (salt ++ list_byte_of_string passphrase).

(** DPAPI as pywin32 answers: element 0 of what [CryptUnprotectData] returns
    for a protected blob is the description. *)
Definition protect (data : bytes) : bytes := x44 :: data.

Definition unprotect (blob : bytes) : option bytes :=
  match blob with
  | x44 :: _ => Some dpapi_description
  | _ => None
  end.

Definition digest (data : bytes) : bytes := tag16 data ++ tag16 (x01 :: data).

Definition crypto_lib (dpapi : bool) : CryptoLib := {|
  AESGCM_encrypt := aead_encrypt;
  AESGCM_decrypt := aead_decrypt;
  PBKDF2HMAC_derive := kdf;
  CryptProtectData := protect;
  CryptUnprotectData := unprotect;
  sha256_digest := digest;
  json_dumps_compact := dumps;
  json_loads_payload := loads_dict;
  _DPAPI_AVAILABLE := dpapi
|}.

Definition posix_lib : CryptoLib := crypto_lib false.
Definition windows_lib : CryptoLib := crypto_lib true.

Definition entropy0 (n : nat) : byte :=
  match Byte.of_nat (n mod 256) with Some b => b | None => x00 end.

Definition world0 : world := World ∅ entropy0 0.

(** Concrete runs of identity.py: an instance constructed on the empty disk,
    a token issued at second 1000, and disks on which a peer was allowed and
    a file was then edited. *)
Definition manager (token_ttl : Z) : Identity.IdentityManager :=
  (Identity.__init__ token_ttl world0).1.

Definition world1 : world := (Identity.__init__ 300 world0).2.

Definition token0 : string :=
  (Identity.create_pairing_token (manager 300) 1000 "device:7" world1).1.

Definition nonce0 : string := hex_of_bytes (peek_bytes 16 world1).

Definition world2 : world :=
  (Identity.create_pairing_token (manager 300) 1000 "device:7" world1).2.

Definition world_paired : world :=
  (Identity.allow_peer "telegram:42" (manager 300) world1).2.

Definition world_tampered : world :=
  set_files (insert Identity._allowlist_path (dumps {["telegram:42" := "00"]}))
            world_paired.

Definition world_short_key : world :=
  set_files (insert Identity.key_file [x00]) world_paired.

(** Concrete runs of vault.py without DPAPI: a vault created by a first
    [store] under the passphrase "pw", the same vault after [rotate_key], and
    the stored file with one bit flipped. *)
Definition vault_stored : Vault.Vault * world :=
  (Vault.store (H := posix_lib) "gmail" "ya29"
     (Vault.__init__ (H := posix_lib) (Some "pw"), world0)).2.

Definition vault_rotated : Vault.Vault * world :=
  (Vault.rotate_key (H := posix_lib) vault_stored).2.

Definition stored_salt : bytes := peek_bytes 32 (World ∅ entropy0 32).
Definition stored_nonce : bytes := peek_bytes 12 (World ∅ entropy0 76).
Definition stored_key : bytes := Vault._pbkdf2_key (H := posix_lib) "pw" stored_salt.
Definition stored_plaintext : bytes := dumps {["gmail" := "ya29"]}.

Definition stored_file : bytes :=
  vault_file Vault.KEY_MODE_PBKDF2 stored_salt stored_nonce
    (aead_encrypt stored_key stored_nonce stored_plaintext).

Definition world_flipped (i : nat) : world :=
  set_files (insert Vault._path (flip_bit i stored_file)) vault_stored.2.

(** The instance and the disk after a peer was allowed; the latin letter e
    with an acute accent, two bytes in UTF-8; a disk whose allowlist file
    holds the signed entry and one with that letter as its signature. *)
Definition manager_paired : Identity.IdentityManager :=
  (Identity.allow_peer "telegram:42" (manager 300) world1).1.

Definition e_acute : string :=
  String (ascii_of_N 195) (String (ascii_of_N 169) EmptyString).

Definition world_non_ascii : world :=
  set_files (insert Identity._allowlist_path
               (dumps (<["signal:9" := e_acute]> (Identity._allowlist manager_paired))))
            world_paired.

(** A token with a valid signature whose issue-time field is [x]. *)
Definition token_issued_at_x : string :=
  "1:" +:+ b64encode "a" +:+ ":x:00:"
  +:+ Identity._sign (manager 300) (Identity._make_payload "1" "a" "x" "00").

(** Concrete runs of vault.py: a disk whose vault file holds two bytes, and
    a vault created by a first [store] with DPAPI. *)
Definition world_short_vault : world :=
  set_files (insert Vault._path [x52; x55]) world0.

Definition vault_stored_dpapi : Vault.Vault * world :=
  (Vault.store (H := windows_lib) "gmail" "ya29"
     (Vault.__init__ (H := windows_lib) None, world0)).2.

End Sim.

(** * Facts about strings and bytes *)

Lemma occurs_app c a b : occurs c (a +:+ b) = occurs c a || occurs c b.
Proof.
  induction a as [|d a IH]; simpl; [reflexivity|].
  rewrite IH. apply orb_assoc.
Qed.

Lemma all_chars_app f a b : all_chars f (a +:+ b) = all_chars f a && all_chars f b.
Proof.
  induction a as [|d a IH]; simpl; [reflexivity|].
  rewrite IH. apply andb_assoc.
Qed.

Lemma all_chars_impl (f g : ascii -> bool) s :
  (forall c, f c = true -> g c = true) -> all_chars f s = true -> all_chars g s = true.
Proof.
  intros Hfg. induction s as [|c s IH]; simpl; [reflexivity|].
  intros [Hc Hs]%andb_prop. rewrite (Hfg _ Hc), (IH Hs). reflexivity.
Qed.

Lemma all_chars_not_occurs f c s :
  f c = false -> all_chars f s = true -> occurs c s = false.
Proof.
  intros Hc. induction s as [|d s IH]; simpl; [reflexivity|].
  intros [Hd Hs]%andb_prop. rewrite (IH Hs), orb_false_r.
  destruct (Ascii.eqb_spec d c) as [->|]; [congruence|reflexivity].
Qed.

Lemma is_ascii_all_chars s : is_ascii s = all_chars is_ascii_char s.
Proof. induction s as [|c s IH]; simpl; congruence. Qed.

Lemma hex_char_is_ascii c : is_hex_char c = true -> is_ascii_char c = true.
Proof.
  destruct c as [b0 b1 b2 b3 b4 b5 b6 [|]]; [|reflexivity].
  destruct b0, b1, b2, b3, b4, b5, b6; vm_compute; congruence.
Qed.

Lemma hex_is_ascii s : all_chars is_hex_char s = true -> is_ascii s = true.
Proof. rewrite is_ascii_all_chars. apply all_chars_impl, hex_char_is_ascii. Qed.

Lemma hex_no_colon s : all_chars is_hex_char s = true -> occurs ":" s = false.
Proof. apply all_chars_not_occurs. reflexivity. Qed.

Lemma b64url_no_colon s : all_chars is_b64url_char s = true -> occurs ":" s = false.
Proof. apply all_chars_not_occurs. reflexivity. Qed.

Lemma decimal_no_colon s : all_chars is_decimal_char s = true -> occurs ":" s = false.
Proof. apply all_chars_not_occurs. reflexivity. Qed.

Lemma hex_of_byte_is_hex b : all_chars is_hex_char (hex_of_byte b) = true.
Proof. destruct b; reflexivity. Qed.

Lemma hex_of_bytes_is_hex bs : all_chars is_hex_char (hex_of_bytes bs) = true.
Proof.
  induction bs as [|b bs IH]; [reflexivity|].
  cbn [hex_of_bytes]. rewrite all_chars_app, hex_of_byte_is_hex, IH. reflexivity.
Qed.

(** [split] on a string without the separator returns the string alone, and a
    separator after such a prefix starts the next field. *)
Lemma split_on_absent sep a : occurs sep a = false -> split_on sep a = [a].
Proof.
  induction a as [|c a IH]; simpl; [reflexivity|].
  intros [Hc Ha]%orb_false_elim. rewrite Hc, (IH Ha). reflexivity.
Qed.

Lemma split_on_field sep a rest :
  occurs sep a = false ->
  split_on sep (a +:+ String sep rest) = a :: split_on sep rest.
Proof.
  induction a as [|c a IH]; simpl.
  - intros _. rewrite Ascii.eqb_refl. reflexivity.
  - intros [Hc Ha]%orb_false_elim. rewrite Hc, (IH Ha). reflexivity.
Qed.

Lemma occurs_rstrip c d s : occurs c s = false -> occurs c (rstrip d s) = false.
Proof.
  induction s as [|e s IH]; simpl; [reflexivity|].
  intros [He Hs]%orb_false_elim. specialize (IH Hs).
  destruct (rstrip d s) eqn:E.
  - destruct (Ascii.eqb e d); simpl; [reflexivity|]. rewrite He. reflexivity.
  - simpl in *. rewrite He. exact IH.
Qed.

Lemma app_nil_string s : "" +:+ s = s.
Proof. reflexivity. Qed.

Lemma app_cons_string c a b : String c a +:+ b = String c (a +:+ b).
Proof. reflexivity. Qed.

(** What [rstrip] removed is a run of the stripped character, so appending
    it again restores the string. *)
Lemma rstrip_restore c s :
  rstrip c s +:+ replicate_char (String.length s - String.length (rstrip c s)) c = s
  /\ String.length (rstrip c s) <= String.length s.
Proof.
  induction s as [|d s [IH Hle]]; [split; [reflexivity|simpl; lia]|].
  cbn [rstrip String.length].
  destruct (rstrip c s) as [|e r] eqn:E.
  - rewrite app_nil_string in IH. cbn [String.length] in IH. rewrite Nat.sub_0_r in IH.
    destruct (Ascii.eqb_spec d c) as [->|]; cbn [String.length].
    + rewrite app_nil_string, Nat.sub_0_r. cbn [replicate_char]. rewrite IH.
      split; [reflexivity|lia].
    + rewrite app_cons_string, app_nil_string.
      replace (S (String.length s) - 1) with (String.length s) by lia.
      rewrite IH. split; [reflexivity|lia].
  - cbn [String.length] in *. rewrite app_cons_string.
    replace (S (String.length s) - S (S (String.length r))) with
      (String.length s - S (String.length r)) by lia.
    rewrite IH. split; [reflexivity|lia].
Qed.

Lemma Qlt_bool_iff x y : Qlt_bool x y = true <-> (x < y)%Q.
Proof.
  unfold Qlt_bool. rewrite negb_true_iff, <- not_true_iff_false, Qle_bool_iff.
  split; [apply Qnot_le_lt | apply Qlt_not_le].
Qed.

Lemma Qlt_bool_false_iff x y : Qlt_bool x y = false <-> (y <= x)%Q.
Proof.
  unfold Qlt_bool. rewrite negb_false_iff. apply Qle_bool_iff.
Qed.

(** Flipping a bit changes the byte, and flipping it again restores it. *)
Lemma flip_byte_changes i b : i < 8 -> flip_byte i b <> b /\ flip_byte i (flip_byte i b) = b.
Proof.
  intros Hi.
  do 8 (destruct i as [|i]; [destruct b; (split; [discriminate|reflexivity])|]).
  lia.
Qed.

Lemma flip_bit_changes i bs :
  i < 8 * length bs -> flip_bit i bs <> bs /\ flip_bit i (flip_bit i bs) = bs.
Proof.
  revert i. induction bs as [|b bs IH]; intros i Hi; cbn [length] in Hi; [lia|].
  cbn [flip_bit]. destruct (Nat.ltb_spec i 8) as [Hlt|Hge].
  - destruct (flip_byte_changes i b Hlt) as [Hne Hinv]. split.
    + intros [= E]. exact (Hne E).
    + cbn [flip_bit]. destruct (Nat.ltb_spec i 8); [|lia]. rewrite Hinv. reflexivity.
  - destruct (IH (i - 8) ltac:(lia)) as [Hne Hinv]. split.
    + intros [= E]. exact (Hne E).
    + cbn [flip_bit]. destruct (Nat.ltb_spec i 8); [lia|]. rewrite Hinv. reflexivity.
Qed.

(** * The simulated libraries satisfy the library facts *)
Module SimFacts.
Import Sim.

Lemma hmac_is_hex key message : all_chars is_hex_char (hmac key message) = true.
Proof. apply hex_of_bytes_is_hex. Qed.

Lemma quad_bits_char b1 b0 : quad_bits (quad_char b1 b0) = Some (b1, b0).
Proof. destruct b1, b0; reflexivity. Qed.

Lemma quad_char_b64url b1 b0 : is_b64url_char (quad_char b1 b0) = true.
Proof. destruct b1, b0; reflexivity. Qed.

Lemma quad_char_not_pad b1 b0 : Ascii.eqb (quad_char b1 b0) "=" = false.
Proof. destruct b1, b0; reflexivity. Qed.

Lemma b64encode_alphabet s : all_chars is_b64url_char (b64encode s) = true.
Proof.
  induction s as [|[b0 b1 b2 b3 b4 b5 b6 b7] s IH]; [reflexivity|].
  cbn [b64encode all_chars]. rewrite !quad_char_b64url, IH. reflexivity.
Qed.

Lemma b64encode_size s : String.length (b64encode s) = 4 * String.length s.
Proof.
  induction s as [|[b0 b1 b2 b3 b4 b5 b6 b7] s IH]; [reflexivity|].
  cbn [b64encode String.length]. rewrite IH. lia.
Qed.

Lemma b64encode_length s : String.length (b64encode s) mod 4 = 0.
Proof. rewrite b64encode_size, Nat.mul_comm. apply Nat.Div0.mod_mul. Qed.

Lemma b64encode_no_pad s : occurs "=" (b64encode s) = false.
Proof.
  induction s as [|[b0 b1 b2 b3 b4 b5 b6 b7] s IH]; [reflexivity|].
  cbn [b64encode occurs]. rewrite !quad_char_not_pad, IH. reflexivity.
Qed.

Lemma rstrip_absent c s : occurs c s = false -> rstrip c s = s.
Proof.
  induction s as [|d s IH]; [reflexivity|]. cbn [occurs rstrip].
  intros [Hd Hs]%orb_false_elim. rewrite (IH Hs), Hd. destruct s; reflexivity.
Qed.

Lemma b64encode_padding s :
  String.length (b64encode s) - String.length (rstrip "=" (b64encode s)) <= 2.
Proof. rewrite rstrip_absent by apply b64encode_no_pad. lia. Qed.

Lemma b64decode_encode s : b64decode (b64encode s) = Some s.
Proof.
  induction s as [|[b0 b1 b2 b3 b4 b5 b6 b7] s IH]; [reflexivity|].
  cbn [b64encode b64decode]. rewrite !quad_bits_char, IH. reflexivity.
Qed.

Lemma int_of_str_of_int z : int_of_str (str_of_int z) = Some z.
Proof.
  unfold int_of_str, str_of_int. rewrite NilZero.isi.
  - cbn [option_map]. rewrite DecimalZ.of_to. reflexivity.
  - destruct z; try discriminate. intros [= E]. exact (Unsigned.to_uint_nonnil _ E).
  - destruct z; try discriminate. intros [= E]. exact (Unsigned.to_uint_nonnil _ E).
Qed.

Lemma string_of_uint_decimal d :
  all_chars is_decimal_char (NilEmpty.string_of_uint d) = true.
Proof. induction d; cbn [NilEmpty.string_of_uint all_chars]; try rewrite IHd; reflexivity. Qed.

Lemma nilzero_string_of_uint_decimal d :
  all_chars is_decimal_char (NilZero.string_of_uint d) = true.
Proof.
  destruct d; [reflexivity|..];
    match goal with
    | |- context [NilZero.string_of_uint ?u] => exact (string_of_uint_decimal u)
    end.
Qed.

Lemma str_of_int_decimal z : all_chars is_decimal_char (str_of_int z) = true.
Proof.
  unfold str_of_int, NilZero.string_of_int.
  destruct (Z.to_int z) as [d|d]; [|cbn [all_chars]; change (is_decimal_char "-") with true];
    apply nilzero_string_of_uint_decimal.
Qed.

Lemma pos_of_bytes_of_pos p : pos_of_bytes (bytes_of_pos p) = Some p.
Proof. induction p as [q IH|q IH|]; cbn [bytes_of_pos pos_of_bytes]; try rewrite IH; reflexivity. Qed.

Lemma loads_dict_dumps d : loads_dict (dumps d) = Some d.
Proof. unfold loads_dict, dumps. rewrite pos_of_bytes_of_pos. apply decode_encode. Qed.

End SimFacts.

(** * identity.py: the claims *)
Module IdentityFacts.
Import Identity.

Section Verification.
Context `{IdentityLib}.

(** [verify_fields] on a version-1 token whose peer field decodes, one case
    per exit of the method. *)
Lemma verify_fields_unfold t_age t_evict t_store p i n g self peer_id :
  _b64dec p = Some peer_id ->
  verify_fields t_age t_evict t_store TOKEN_VERSION p i n g self =
  match compare_digest (_sign self (_make_payload TOKEN_VERSION peer_id i n)) g with
  | Raise e => (Raise e, self)
  | Ok false => (Raise (TokenInvalidError InvalidSignature), self)
  | Ok true =>
      match py_int i with
      | None => (Raise ValueError, self)
      | Some issued_at =>
          if expired (_token_ttl self) t_age issued_at then (Raise TokenExpiredError, self)
          else
            let self1 := _evict_expired_nonces t_evict self in
            if decide (is_Some (_nonce_store self1 !! n))
            then (Raise TokenReplayError, self1)
            else (Ok peer_id,
                  set_nonce_store
                    (insert n (t_store + inject_Z NONCE_STORE_TTL)%Q) self1)
      end
  end.
Proof.
  intros Hdec. unfold verify_fields, bind, lift_result, get, modify, raise, expired.
  change (negb (TOKEN_VERSION =? TOKEN_VERSION)) with false. cbv iota.
  rewrite Hdec. cbn [from_option].
  destruct (compare_digest _ g) as [[|]|e]; cbn [negb]; try reflexivity.
  destruct (py_int i) as [issued_at|]; cbn [from_option]; [|reflexivity].
  destruct (_ || _); [reflexivity|].
  destruct (decide _); reflexivity.
Qed.

Lemma verify_fields_version t_age t_evict t_store v p i n g self :
  v <> TOKEN_VERSION ->
  verify_fields t_age t_evict t_store v p i n g self =
  (Raise (TokenInvalidError UnsupportedVersion), self).
Proof.
  intros Hv. unfold verify_fields.
  destruct (String.eqb_spec v TOKEN_VERSION); [contradiction|reflexivity].
Qed.

Lemma verify_fields_undecodable t_age t_evict t_store p i n g self :
  _b64dec p = None ->
  verify_fields t_age t_evict t_store TOKEN_VERSION p i n g self = (Raise DecodeError, self).
Proof.
  intros Hdec. unfold verify_fields, bind, lift_result.
  change (negb (TOKEN_VERSION =? TOKEN_VERSION)) with false. cbv iota.
  rewrite Hdec. reflexivity.
Qed.

(** A token that is accepted went through every check. *)
Lemma verify_accepted_inv t_age t_evict t_store token self peer_id self' :
  verify_pairing_token t_age t_evict t_store token self = (Ok peer_id, self') ->
  exists p i n g issued_at,
    split_on ":" token = [TOKEN_VERSION; p; i; n; g]
    /\ _b64dec p = Some peer_id
    /\ compare_digest (_sign self (_make_payload TOKEN_VERSION peer_id i n)) g = Ok true
    /\ py_int i = Some issued_at
    /\ expired (_token_ttl self) t_age issued_at = false
    /\ _nonce_store (_evict_expired_nonces t_evict self) !! n = None
    /\ self' = set_nonce_store (insert n (t_store + inject_Z NONCE_STORE_TTL)%Q)
                 (_evict_expired_nonces t_evict self).
Proof.
  unfold verify_pairing_token.
  destruct (split_on ":" token) as [|v [|p [|i [|n [|g [|]]]]]]; try discriminate.
  destruct (String.eqb_spec v TOKEN_VERSION) as [->|Hv];
    [|rewrite verify_fields_version by assumption; discriminate].
  destruct (_b64dec p) as [pid|] eqn:Hdec;
    [|rewrite verify_fields_undecodable by assumption; discriminate].
  rewrite (verify_fields_unfold _ _ _ _ _ _ _ _ _ Hdec).
  destruct (compare_digest _ g) as [[|]|e] eqn:Hsig; try discriminate.
  destruct (py_int i) as [issued_at|] eqn:Hint; [|discriminate].
  destruct (expired _ _ _) eqn:Hexp; [discriminate|].
  cbv zeta. destruct (decide _) as [Hin|Hout]; [discriminate|].
  intros [= <- <-]. exists p, i, n, g, issued_at.
  repeat split; try assumption.
  apply eq_None_not_Some. exact Hout.
Qed.

(** Library fact: [hexdigest()] is a string of lower-case hex digits. *)
Hypothesis hexdigest_is_hex :
  forall key message, all_chars is_hex_char (hmac_sha256_hexdigest key message) = true.

Lemma compare_digest_sign self message g :
  is_ascii g = true ->
  compare_digest (_sign self message) g = Ok (String.eqb (_sign self message) g).
Proof.
  intros Hg. unfold compare_digest, _sign, sign_with.
  rewrite (hex_is_ascii _ (hexdigest_is_hex _ _)), Hg. reflexivity.
Qed.

Lemma compare_digest_sign_same self message :
  compare_digest (_sign self message) (_sign self message) = Ok true.
Proof.
  rewrite compare_digest_sign, String.eqb_refl; [reflexivity|].
  apply hex_is_ascii, hexdigest_is_hex.
Qed.

(** C3. A version-1 token of five fields, with a decodable peer field and an
    ASCII signature field that is not the HMAC of the parsed fields, is
    refused with [TokenInvalidError] ("Token signature is invalid."): this
    holds for every reading of the clock (any age, expired or from the future)
    and every ledger (the nonce may already be recorded), and the instance,
    ledger included, is returned unchanged. *)
Theorem forged_signature_rejected_first
    (t_age t_evict t_store : Q) (token p i n g peer_id : string) (self : IdentityManager) :
  split_on ":" token = [TOKEN_VERSION; p; i; n; g] ->
  _b64dec p = Some peer_id ->
  is_ascii g = true ->
  g <> _sign self (_make_payload TOKEN_VERSION peer_id i n) ->
  verify_pairing_token t_age t_evict t_store token self
  = (Raise (TokenInvalidError InvalidSignature), self).
Proof.
  intros Hsplit Hdec Hascii Hneq. unfold verify_pairing_token. rewrite Hsplit.
  rewrite (verify_fields_unfold _ _ _ _ _ _ _ _ _ Hdec).
  rewrite compare_digest_sign by assumption.
  destruct (String.eqb_spec (_sign self (_make_payload TOKEN_VERSION peer_id i n)) g)
    as [Heq|_]; [congruence|reflexivity].
Qed.

(** Outside the wire format: a signature field with a character that is not
    ASCII makes [hmac.compare_digest] raise [TypeError], again before the
    other checks and with the instance unchanged. *)
Lemma non_ascii_signature_type_error
    (t_age t_evict t_store : Q) (token p i n g peer_id : string) (self : IdentityManager) :
  split_on ":" token = [TOKEN_VERSION; p; i; n; g] ->
  _b64dec p = Some peer_id ->
  is_ascii g = false ->
  verify_pairing_token t_age t_evict t_store token self = (Raise TypeError, self).
Proof.
  intros Hsplit Hdec Hascii. unfold verify_pairing_token. rewrite Hsplit.
  rewrite (verify_fields_unfold _ _ _ _ _ _ _ _ _ Hdec).
  unfold compare_digest. rewrite Hascii, andb_false_r. reflexivity.
Qed.


(** The boundary cases of C5, for a TTL that is not negative: age exactly TTL
    is not expired, age TTL + 1 is, and so is any negative age. *)
Lemma expired_boundaries (ttl : Z) (issued_at : Z) :
  (0 <= ttl)%Z ->
  expired ttl (inject_Z issued_at + inject_Z ttl) issued_at = false
  /\ expired ttl (inject_Z issued_at + inject_Z ttl + 1) issued_at = true
  /\ forall t_age, (t_age < inject_Z issued_at)%Q -> expired ttl t_age issued_at = true.
Proof.
  intros Httl.
  assert (H0 : (0 <= inject_Z ttl)%Q) by (rewrite <- (Zle_Qle 0); exact Httl).
  unfold expired. repeat split.
  - apply orb_false_intro; apply Qlt_bool_false_iff; lra.
  - apply orb_true_iff; right; apply Qlt_bool_iff; lra.
  - intros t_age Hneg. apply orb_true_iff; left; apply Qlt_bool_iff; lra.
Qed.

End Verification.

(** C9. A token of five fields with version "1" whose peer field does not
    decode makes [verify_pairing_token] raise the exception of [_b64dec]
    ([binascii.Error], [UnicodeDecodeError] or [ValueError], here
    [DecodeError]), which is none of [TokenInvalidError], [TokenExpiredError],
    [TokenReplayError]; the signature field, the signing key, the clock and
    the ledger play no part, and the instance is unchanged. *)
Theorem undecodable_peer_id_escapes `{IdentityLib}
    (t_age t_evict t_store : Q) (token p i n g : string) (self : IdentityManager) :
  split_on ":" token = [TOKEN_VERSION; p; i; n; g] ->
  _b64dec p = None ->
  verify_pairing_token t_age t_evict t_store token self = (Raise DecodeError, self)
  /\ (forall why, DecodeError <> TokenInvalidError why)
  /\ DecodeError <> TokenExpiredError
  /\ DecodeError <> TokenReplayError.
Proof.
  intros Hsplit Hdec. unfold verify_pairing_token. rewrite Hsplit.
  rewrite verify_fields_undecodable by assumption.
  repeat split; intros; discriminate.
Qed.

Section Ledger.
Context `{IdentityLib}.

Lemma evicted_lookup now self n e :
  _nonce_store (_evict_expired_nonces now self) !! n = Some e
  <-> _nonce_store self !! n = Some e /\ (now < e)%Q.
Proof.
  unfold _evict_expired_nonces, set_nonce_store. cbn [_nonce_store].
  rewrite map_lookup_filter_Some. cbn [snd]. rewrite Qlt_bool_iff. reflexivity.
Qed.

(** C7, as amended. When [verify_pairing_token] accepts a token, the ledger
    it leaves maps the token's nonce to the clock reading of the accepting
    call plus [NONCE_STORE_TTL] (24 hours; neither the TTL nor the token's
    [issued_at] enters), and holds of the earlier entries exactly those whose
    expiry is strictly later than the clock reading of the eviction: an entry
    is evicted as soon as [now >= expiry]. *)
Theorem accepted_nonce_recorded
    (t_age t_evict t_store : Q) (token peer_id : string) (self self' : IdentityManager) :
  verify_pairing_token t_age t_evict t_store token self = (Ok peer_id, self') ->
  exists v p i nonce g,
    split_on ":" token = [v; p; i; nonce; g]
    /\ _nonce_store self' !! nonce = Some (t_store + inject_Z NONCE_STORE_TTL)%Q
    /\ NONCE_STORE_TTL = (24 * 60 * 60)%Z
    /\ forall n e, n <> nonce ->
         (_nonce_store self' !! n = Some e
          <-> _nonce_store self !! n = Some e /\ (t_evict < e)%Q).
Proof.
  intros Hrun.
  destruct (verify_accepted_inv _ _ _ _ _ _ _ Hrun)
    as (p & i & n & g & issued_at & Hsplit & _ & _ & _ & _ & _ & ->).
  exists TOKEN_VERSION, p, i, n, g. split; [exact Hsplit|].
  unfold set_nonce_store at 1 2. cbn [_nonce_store].
  split; [apply lookup_insert_eq|]. split; [reflexivity|].
  intros n' e Hne. rewrite lookup_insert_ne by congruence.
  apply evicted_lookup.
Qed.

End Ledger.

Section Issuing.
Context `{IdentityLib}.

(** Library facts: [hexdigest()] is hex; [urlsafe_b64encode] returns
    characters of the URL-safe alphabet, in a length divisible by four, of
    which at most the last two are padding, and [urlsafe_b64decode] inverts it;
    [str] of an integer is made of digits and a sign, and [int] reads it back. *)
Hypothesis hexdigest_is_hex :
  forall key message, all_chars is_hex_char (hmac_sha256_hexdigest key message) = true.
Hypothesis b64encode_alphabet :
  forall s, all_chars is_b64url_char (urlsafe_b64encode s) = true.
Hypothesis b64encode_length :
  forall s, String.length (urlsafe_b64encode s) mod 4 = 0.
Hypothesis b64encode_padding :
  forall s, String.length (urlsafe_b64encode s)
            - String.length (rstrip "=" (urlsafe_b64encode s)) <= 2.
Hypothesis b64decode_encode :
  forall s, urlsafe_b64decode (urlsafe_b64encode s) = Some s.
Hypothesis int_of_str : forall z, py_int (py_str z) = Some z.
Hypothesis str_is_decimal : forall z, all_chars is_decimal_char (py_str z) = true.

Lemma app_empty_r_string s : s +:+ "" = s.
Proof. induction s as [|c s IH]; [reflexivity|]. rewrite app_cons_string, IH. reflexivity. Qed.

(** [_b64dec] puts back exactly the padding [_b64enc] stripped. *)
Lemma repad_arith (m n : nat) :
  m mod 4 = 0 -> n <= m -> m - n <= 2 ->
  4 - n mod 4 = 4 /\ m - n = 0 \/ 4 - n mod 4 = m - n /\ 4 - n mod 4 <> 4.
Proof.
  intros Hm Hle Hk.
  pose proof (Nat.div_mod_eq m 4) as Em. pose proof (Nat.div_mod_eq n 4) as En.
  pose proof (Nat.mod_upper_bound n 4 ltac:(lia)) as Hn.
  lia.
Qed.

Lemma _b64dec_b64enc s : _b64dec (_b64enc s) = Some s.
Proof.
  unfold _b64dec, _b64enc.
  pose proof (rstrip_restore "=" (urlsafe_b64encode s)) as [Hre Hle].
  destruct (repad_arith _ _ (b64encode_length s) Hle (b64encode_padding s))
    as [[H4 H0]|[Hk Hne]]; cbv zeta.
  - rewrite H4. destruct (decide (4 <> 4)) as [?|_]; [congruence|].
    rewrite H0 in Hre. cbn [replicate_char] in Hre. rewrite app_empty_r_string in Hre.
    rewrite Hre. apply b64decode_encode.
  - destruct (decide _) as [_|?]; [|contradiction].
    rewrite Hk, Hre. apply b64decode_encode.
Qed.

Lemma _b64enc_no_colon s : occurs ":" (_b64enc s) = false.
Proof. apply occurs_rstrip, b64url_no_colon, b64encode_alphabet. Qed.

Lemma split_on_colon a rest :
  occurs ":" a = false ->
  split_on ":" (a +:+ ":" +:+ rest) = a :: split_on ":" rest.
Proof. apply (split_on_field ":" a rest). Qed.

(** The token [create_pairing_token] returns splits into its five fields. *)
Lemma created_token_fields self now peer_id w :
  split_on ":" (create_pairing_token self now peer_id w).1 =
  [TOKEN_VERSION; _b64enc peer_id; py_str (int_of_float now);
   hex_of_bytes (peek_bytes 16 w);
   _sign self (_make_payload TOKEN_VERSION peer_id (py_str (int_of_float now))
                 (hex_of_bytes (peek_bytes 16 w)))].
Proof.
  unfold create_pairing_token, token_bytes. cbn [fst].
  rewrite split_on_colon by reflexivity.
  rewrite split_on_colon by apply _b64enc_no_colon.
  rewrite split_on_colon by apply decimal_no_colon, str_is_decimal.
  rewrite split_on_colon by apply hex_no_colon, hex_of_bytes_is_hex.
  rewrite split_on_absent by apply hex_no_colon, hexdigest_is_hex.
  reflexivity.
Qed.

Lemma not_expired_iff ttl t_age issued_at :
  expired ttl t_age issued_at = false
  <-> (0 <= t_age - inject_Z issued_at <= inject_Z ttl)%Q.
Proof.
  unfold expired. rewrite orb_false_iff, !Qlt_bool_false_iff. reflexivity.
Qed.

(** A token bearing a nonce whose ledger entry survives the eviction is never
    accepted. *)
Lemma recorded_nonce_not_accepted t_age t_evict t_store token v p i n g e self :
  split_on ":" token = [v; p; i; n; g] ->
  _nonce_store self !! n = Some e ->
  (t_evict < e)%Q ->
  forall r, (verify_pairing_token t_age t_evict t_store token self).1 <> Ok r.
Proof.
  intros Hsplit Hin Hlive r Hok.
  destruct (verify_pairing_token t_age t_evict t_store token self) as [r' self'] eqn:Hrun.
  cbn [fst] in Hok. subst r'.
  destruct (verify_accepted_inv _ _ _ _ _ _ _ Hrun)
    as (p' & i' & n' & g' & issued_at & Hsplit' & _ & _ & _ & _ & Hfree & _).
  rewrite Hsplit in Hsplit'. injection Hsplit' as _ _ _ <- _.
  assert (Hsome : _nonce_store (_evict_expired_nonces t_evict self) !! n = Some e)
    by (apply evicted_lookup; split; assumption).
  congruence.
Qed.

(** X29. A token issued by [create_pairing_token] whose nonce has
    no live entry in the ledger is accepted by a first verification within
    its TTL, which returns the peer id it was issued for. From then on, while
    the eviction clock of a later call is before the entry's expiry (the
    clock of the accepting call plus 24 hours):
    - the same token, still within its TTL, is refused with [TokenReplayError];
    - no token bearing that nonce is accepted.
    The last part gives a sufficient condition on the configuration: the TTL,
    plus what the clock advances inside the later call, is below the 24 hours
    of retention. *)
Theorem issued_token_single_use
    (self : IdentityManager) (now : Q) (peer_id : string) (w : world)
    (a_age a_evict a_store : Q) :
  let token := (create_pairing_token self now peer_id w).1 in
  let nonce := hex_of_bytes (peek_bytes 16 w) in
  let issued_at := inject_Z (int_of_float now) in
  let ttl := inject_Z (_token_ttl self) in
  let retention := inject_Z NONCE_STORE_TTL in
  (0 <= a_age - issued_at <= ttl)%Q ->
  _nonce_store (_evict_expired_nonces a_evict self) !! nonce = None ->
  exists self1,
    verify_pairing_token a_age a_evict a_store token self = (Ok peer_id, self1)
    /\ (forall b_age b_evict b_store,
          (0 <= b_age - issued_at <= ttl)%Q ->
          (b_evict < a_store + retention)%Q ->
          exists self2,
            verify_pairing_token b_age b_evict b_store token self1
            = (Raise TokenReplayError, self2))
    /\ (forall b_age b_evict b_store token' v p i g,
          split_on ":" token' = [v; p; i; nonce; g] ->
          (b_evict < a_store + retention)%Q ->
          forall r, (verify_pairing_token b_age b_evict b_store token' self1).1 <> Ok r)
    /\ (forall b_age b_evict b_store,
          (0 <= b_age - issued_at <= ttl)%Q ->
          (a_age <= a_store)%Q ->
          (b_evict - b_age + ttl < retention)%Q ->
          exists self2,
            verify_pairing_token b_age b_evict b_store token self1
            = (Raise TokenReplayError, self2)).
Proof.
  intros token nonce issued_at ttl retention Hage Hfree.
  set (self1 := set_nonce_store (insert nonce (a_store + retention)%Q)
                  (_evict_expired_nonces a_evict self)).
  assert (Hsplit : split_on ":" token =
            [TOKEN_VERSION; _b64enc peer_id; py_str (int_of_float now); nonce;
             _sign self (_make_payload TOKEN_VERSION peer_id
                           (py_str (int_of_float now)) nonce)])
    by apply created_token_fields.
  assert (Hentry : _nonce_store self1 !! nonce = Some (a_store + retention)%Q)
    by apply lookup_insert_eq.
  assert (Hreplay : forall b_age b_evict b_store,
            (0 <= b_age - issued_at <= ttl)%Q ->
            (b_evict < a_store + retention)%Q ->
            exists self2,
              verify_pairing_token b_age b_evict b_store token self1
              = (Raise TokenReplayError, self2)).
  { intros b_age b_evict b_store Hb Hlive.
    exists (_evict_expired_nonces b_evict self1).
    unfold verify_pairing_token. rewrite Hsplit.
    rewrite (verify_fields_unfold _ _ _ _ _ _ _ _ _ (_b64dec_b64enc peer_id)).
    change (_sign self1) with (_sign self). change (_token_ttl self1) with (_token_ttl self).
    rewrite compare_digest_sign_same by exact hexdigest_is_hex.
    rewrite int_of_str.
    rewrite (proj2 (not_expired_iff _ _ _) Hb). cbv zeta.
    destruct (decide _) as [_|Hno]; [reflexivity|].
    exfalso. apply Hno. exists (a_store + retention)%Q.
    apply evicted_lookup. split; assumption. }
  exists self1. repeat split.
  - unfold verify_pairing_token. rewrite Hsplit.
    rewrite (verify_fields_unfold _ _ _ _ _ _ _ _ _ (_b64dec_b64enc peer_id)).
    rewrite compare_digest_sign_same by exact hexdigest_is_hex.
    rewrite int_of_str.
    rewrite (proj2 (not_expired_iff _ _ _) Hage). cbv zeta.
    destruct (decide _) as [Hin|_]; [|reflexivity].
    rewrite Hfree in Hin. destruct Hin as [? [=]].
  - exact Hreplay.
  - intros b_age b_evict b_store token' v p i g Hsplit' Hlive.
    exact (recorded_nonce_not_accepted _ _ _ _ _ _ _ _ _ _ _ Hsplit' Hentry Hlive).
  - intros b_age b_evict b_store Hb Hmono Hslack.
    apply Hreplay; [exact Hb|]. lra.
Qed.

(** C4, what the code does. The ledger keeps an accepted nonce for
    [NONCE_STORE_TTL], 24 hours from the accepting call, whatever the TTL the
    instance was constructed with, and the constructor takes any TTL. A token
    issued by [create_pairing_token] and accepted once is accepted a second
    time by the same instance, with the same peer id, when the second call is
    within the token's TTL and its eviction clock has reached the expiry of
    the entry: the eviction removes the entry before the ledger is consulted.
    With a TTL above 24 hours a token is usable more than once. *)
Theorem issued_token_accepted_twice
    (self : IdentityManager) (now : Q) (peer_id : string) (w : world)
    (a_age a_evict a_store b_age b_evict b_store : Q) :
  let token := (create_pairing_token self now peer_id w).1 in
  let nonce := hex_of_bytes (peek_bytes 16 w) in
  let issued_at := inject_Z (int_of_float now) in
  let ttl := inject_Z (_token_ttl self) in
  let retention := inject_Z NONCE_STORE_TTL in
  (0 <= a_age - issued_at <= ttl)%Q ->
  _nonce_store (_evict_expired_nonces a_evict self) !! nonce = None ->
  (0 <= b_age - issued_at <= ttl)%Q ->
  (a_store + retention <= b_evict)%Q ->
  exists self1 self2,
    verify_pairing_token a_age a_evict a_store token self = (Ok peer_id, self1)
    /\ _nonce_store self1 !! nonce = Some (a_store + retention)%Q
    /\ NONCE_STORE_TTL = (24 * 60 * 60)%Z
    /\ verify_pairing_token b_age b_evict b_store token self1 = (Ok peer_id, self2).
Proof.
  intros token nonce issued_at ttl retention Hage Hfree Hb Hdead.
  set (self1 := set_nonce_store (insert nonce (a_store + retention)%Q)
                  (_evict_expired_nonces a_evict self)).
  assert (Hsplit : split_on ":" token =
            [TOKEN_VERSION; _b64enc peer_id; py_str (int_of_float now); nonce;
             _sign self (_make_payload TOKEN_VERSION peer_id
                           (py_str (int_of_float now)) nonce)])
    by apply created_token_fields.
  assert (Hentry : _nonce_store self1 !! nonce = Some (a_store + retention)%Q)
    by apply lookup_insert_eq.
  eexists self1, _. split; [|split; [exact Hentry|split; [reflexivity|]]].
  - unfold verify_pairing_token. rewrite Hsplit.
    rewrite (verify_fields_unfold _ _ _ _ _ _ _ _ _ (_b64dec_b64enc peer_id)).
    rewrite compare_digest_sign_same by exact hexdigest_is_hex.
    rewrite int_of_str.
    rewrite (proj2 (not_expired_iff _ _ _) Hage). cbv zeta.
    destruct (decide _) as [Hin|_]; [|reflexivity].
    rewrite Hfree in Hin. destruct Hin as [? [=]].
  - unfold verify_pairing_token. rewrite Hsplit.
    rewrite (verify_fields_unfold _ _ _ _ _ _ _ _ _ (_b64dec_b64enc peer_id)).
    change (_sign self1) with (_sign self). change (_token_ttl self1) with (_token_ttl self).
    rewrite compare_digest_sign_same by exact hexdigest_is_hex.
    rewrite int_of_str.
    rewrite (proj2 (not_expired_iff _ _ _) Hb). cbv zeta.
    destruct (decide _) as [[e He]|_]; [|reflexivity].
    exfalso. apply evicted_lookup in He as [He Hlive].
    rewrite Hentry in He. injection He as <-.
    fold retention in Hlive. lra.
Qed.

End Issuing.

Section Allowlist.
Context `{IdentityLib}.

Lemma compare_digest_true a b : compare_digest a b = Ok true -> a = b.
Proof.
  unfold compare_digest. destruct (_ && _); [|discriminate].
  intros [= E]. apply String.eqb_eq. exact E.
Qed.

(** What the comprehension of [_load_allowlist] keeps was on disk with the
    signature the key gives. *)
Lemma verified_entries_sound key items m pid sig :
  verified_entries key items = Ok m ->
  m !! pid = Some sig ->
  (pid, JStr sig) ∈ items /\ sig = sign_with key ("allow:" +:+ pid).
Proof.
  revert m. induction items as [|[pid' v] rest IH]; intros m; cbn [verified_entries].
  - intros [= <-]. rewrite lookup_empty. discriminate.
  - destruct v as [sig'|]; [|discriminate].
    destruct (compare_digest _ sig') as [b|] eqn:Hcmp; [|discriminate].
    destruct (verified_entries key rest) as [m'|]; [|discriminate].
    intros [= <-] Hlook.
    assert (Hrest : m' !! pid = Some sig ->
                    (pid, JStr sig) ∈ (pid', JStr sig') :: rest
                    /\ sig = sign_with key ("allow:" +:+ pid)).
    { intros Hm'. destruct (IH m' eq_refl Hm') as [Hin Hsig].
      split; [right; exact Hin|exact Hsig]. }
    destruct b; [|exact (Hrest Hlook)].
    destruct (decide (pid' = pid)) as [->|Hne].
    + rewrite lookup_insert_eq in Hlook. injection Hlook as <-.
      split; [left|]. symmetry. exact (compare_digest_true _ _ Hcmp).
    + rewrite lookup_insert_ne in Hlook by exact Hne. exact (Hrest Hlook).
Qed.

(** [_load_allowlist] keeps an entry only if the file holds, for that peer,
    the signature under the instance's key. *)
Lemma _load_allowlist_sound self w pid sig :
  _allowlist (_load_allowlist self w) !! pid = Some sig ->
  sig = _sign self ("allow:" +:+ pid)
  /\ exists raw data,
       files w !! _allowlist_path = Some raw
       /\ json_loads raw = Some (JDict data)
       /\ data !! pid = Some (JStr sig).
Proof.
  unfold _load_allowlist.
  destruct (files w !! _allowlist_path) as [raw|] eqn:Hfile;
    [|cbn; rewrite lookup_empty; discriminate].
  destruct (json_loads raw) as [[data|]|] eqn:Hjson;
    try (cbn; rewrite lookup_empty; discriminate).
  destruct (verified_entries _ _) as [m|] eqn:Hm;
    [|cbn; rewrite lookup_empty; discriminate].
  cbn [set_allowlist _allowlist]. intros Hlook.
  destruct (verified_entries_sound _ _ _ _ _ Hm Hlook) as [Hin Hsig].
  split; [exact Hsig|]. exists raw, data.
  split; [reflexivity|]. split; [exact Hjson|].
  apply elem_of_map_to_list. exact Hin.
Qed.

Lemma _load_allowlist_key self w : _signing_key (_load_allowlist self w) = _signing_key self.
Proof.
  unfold _load_allowlist.
  destruct (files w !! _allowlist_path); [|reflexivity].
  destruct (json_loads _) as [[data|]|]; try reflexivity.
  destruct (verified_entries _ _); reflexivity.
Qed.

Lemma _load_or_create_signing_key_allowlist_file w :
  files (_load_or_create_signing_key w).2 !! _allowlist_path = files w !! _allowlist_path.
Proof.
  unfold _load_or_create_signing_key, _save_signing_key, token_bytes, set_files.
  destruct (files w !! key_file) as [raw|]; [destruct (decide _)|]; cbn [snd files];
    try reflexivity; apply lookup_insert_ne; discriminate.
Qed.

(** Library fact: [hexdigest()] is a string of lower-case hex digits. *)
Hypothesis hexdigest_is_hex :
  forall key message, all_chars is_hex_char (hmac_sha256_hexdigest key message) = true.

Lemma is_peer_allowed_valid self pid :
  allowlist_valid self ->
  is_peer_allowed self pid = Ok (bool_decide (is_Some (_allowlist self !! pid))).
Proof.
  intros Hvalid. unfold is_peer_allowed.
  destruct (_allowlist self !! pid) as [sig|] eqn:Hlook; [|reflexivity].
  rewrite (Hvalid _ _ Hlook). apply compare_digest_sign_same, hexdigest_is_hex.
Qed.

Lemma allowed_among_valid self ps :
  allowlist_valid self ->
  exists l, allowed_among self ps = Ok l /\ forall p, p ∈ l -> is_Some (_allowlist self !! p).
Proof.
  intros Hvalid. induction ps as [|p ps (l & Hl & Hsub)]; cbn [allowed_among].
  - exists []. split; [reflexivity|]. intros p Hp. inversion Hp.
  - rewrite (is_peer_allowed_valid _ _ Hvalid), Hl.
    destruct (bool_decide_reflect (is_Some (_allowlist self !! p))) as [Hin|_].
    + exists (p :: l). split; [reflexivity|].
      intros q [->|Hq]%elem_of_cons; [exact Hin|exact (Hsub _ Hq)].
    + exists l. split; [reflexivity|exact Hsub].
Qed.

Lemma __init___valid token_ttl w : allowlist_valid (__init__ token_ttl w).1.
Proof.
  unfold __init__. destruct (_load_or_create_signing_key w) as [key w'].
  cbn [fst]. intros pid sig Hlook. unfold _sign.
  rewrite _load_allowlist_key.
  destruct (_load_allowlist_sound _ _ _ _ Hlook) as [-> _]. reflexivity.
Qed.

(** The operations on the allowlist keep every entry signed under the
    current key: [allow_peer] signs the entry it adds, [revoke_peer] removes
    one, and [rotate_signing_key] signs every entry again. *)
Lemma allow_peer_valid peer_id self w :
  allowlist_valid self -> allowlist_valid (allow_peer peer_id self w).1.
Proof.
  intros Hvalid pid sig. unfold allow_peer. cbn [fst set_allowlist _allowlist].
  destruct (decide (peer_id = pid)) as [->|Hne].
  - rewrite lookup_insert_eq. intros [= <-]. reflexivity.
  - rewrite lookup_insert_ne by exact Hne. apply Hvalid.
Qed.

Lemma allow_peer_allowed peer_id self w :
  is_peer_allowed (allow_peer peer_id self w).1 peer_id = Ok true.
Proof.
  unfold is_peer_allowed, allow_peer. cbn [fst set_allowlist _allowlist].
  rewrite lookup_insert_eq.
  exact (compare_digest_sign_same hexdigest_is_hex self ("allow:" +:+ peer_id)).
Qed.

Lemma revoke_peer_denied peer_id self w self' w' :
  revoke_peer peer_id self w = (Ok tt, (self', w')) ->
  is_peer_allowed self' peer_id = Ok false
  /\ (allowlist_valid self -> allowlist_valid self').
Proof.
  unfold revoke_peer. destruct (_allowlist self !! peer_id); [|discriminate].
  intros [= <- <-]. split.
  - unfold is_peer_allowed. cbn [set_allowlist _allowlist].
    rewrite lookup_delete_eq. reflexivity.
  - intros Hvalid pid sig. cbn [set_allowlist _allowlist].
    intros Hlook. apply lookup_delete_Some in Hlook as [_ Hlook]. exact (Hvalid _ _ Hlook).
Qed.

Lemma rotate_signing_key_valid self w : allowlist_valid (rotate_signing_key self w).1.
Proof.
  intros pid sig. unfold rotate_signing_key, token_bytes.
  cbn [fst set_allowlist set_signing_key _allowlist _signing_key].
  rewrite map_lookup_imap. destruct (_allowlist self !! pid); [|discriminate].
  cbn. intros [= <-]. reflexivity.
Qed.

(** An entry held in memory with an ASCII signature that is not the HMAC
    under the current key is refused as well. *)
Lemma is_peer_allowed_mismatch self peer_id sig :
  _allowlist self !! peer_id = Some sig ->
  is_ascii sig = true ->
  sig <> _sign self ("allow:" +:+ peer_id) ->
  is_peer_allowed self peer_id = Ok false.
Proof.
  intros Hlook Hascii Hne. unfold is_peer_allowed. rewrite Hlook.
  unfold compare_digest, _sign, sign_with in *.
  rewrite (hex_is_ascii _ (hexdigest_is_hex _ _)), Hascii. cbn [andb].
  destruct (String.eqb_spec (hmac_sha256_hexdigest (_signing_key self) ("allow:" +:+ peer_id)) sig);
    [congruence|reflexivity].
Qed.

(** C8. An instance is constructed on any disk. A peer for which the
    allowlist file does not hold the HMAC of ["allow:" + peer_id] under the
    instance's signing key (the stored value was edited, is no string, or is
    missing; or the file is unreadable) is not in the in-memory allowlist:
    [is_peer_allowed] returns [False] without raising, and
    [list_allowed_peers] returns a list that does not contain the peer. *)
Theorem tampered_allowlist_entry_dropped (token_ttl : Z) (w : world) (peer_id : string) :
  let self := (__init__ token_ttl w).1 in
  (forall raw data,
     files w !! _allowlist_path = Some raw ->
     json_loads raw = Some (JDict data) ->
     data !! peer_id <> Some (JStr (_sign self ("allow:" +:+ peer_id)))) ->
  _allowlist self !! peer_id = None
  /\ is_peer_allowed self peer_id = Ok false
  /\ exists l, list_allowed_peers self = Ok l /\ peer_id ∉ l.
Proof.
  intros self Htampered.
  assert (Hnone : _allowlist self !! peer_id = None).
  { destruct (_allowlist self !! peer_id) as [sig|] eqn:Hlook; [exfalso|reflexivity].
    subst self. unfold __init__ in *.
    pose proof (_load_or_create_signing_key_allowlist_file w) as Hsame.
    destruct (_load_or_create_signing_key w) as [key w']. cbn [fst snd] in *.
    destruct (_load_allowlist_sound _ _ _ _ Hlook) as [Hsig (raw & data & Hfile & Hjson & Hentry)].
    rewrite Hsame in Hfile.
    apply (Htampered raw data Hfile Hjson).
    rewrite Hentry, Hsig. unfold _sign. rewrite _load_allowlist_key. reflexivity. }
  split; [exact Hnone|]. split.
  - unfold is_peer_allowed. rewrite Hnone. reflexivity.
  - destruct (allowed_among_valid self (map fst (map_to_list (_allowlist self)))
                (__init___valid token_ttl w)) as (l & Hl & Hsub).
    exists l. split; [exact Hl|].
    intros Hin. destruct (Hsub _ Hin) as [sig Hsig]. congruence.
Qed.

End Allowlist.

(** C10. The signing-key file exists and its content is not 32 bytes long.
    Constructing an instance draws 32 fresh bytes, uses them as the signing
    key and overwrites the file with them; the allowlist file is left as it
    was. If no entry of the allowlist file carries the HMAC under the fresh
    key (each was signed under a previous key), the in-memory allowlist is
    empty. Nothing is raised: [__init__] has no exit by exception. *)
Theorem malformed_key_file_replaced `{IdentityLib}
    (token_ttl : Z) (w : world) (raw : bytes) :
  files w !! key_file = Some raw ->
  length raw <> SIGNING_KEY_BYTES ->
  let fresh := peek_bytes SIGNING_KEY_BYTES w in
  let self := (__init__ token_ttl w).1 in
  let w' := (__init__ token_ttl w).2 in
  _signing_key self = fresh
  /\ length fresh = 32
  /\ files w' !! key_file = Some fresh
  /\ files w' !! _allowlist_path = files w !! _allowlist_path
  /\ ((forall raw_list data pid v,
         files w !! _allowlist_path = Some raw_list ->
         json_loads raw_list = Some (JDict data) ->
         data !! pid = Some v ->
         v <> JStr (sign_with fresh ("allow:" +:+ pid))) ->
      _allowlist self = ∅).
Proof.
  intros Hfile Hlen fresh self w'.
  assert (Hinit : __init__ token_ttl w =
            (_load_allowlist (Build token_ttl fresh ∅ ∅)
               (_save_signing_key fresh (token_bytes SIGNING_KEY_BYTES w).2),
             _save_signing_key fresh (token_bytes SIGNING_KEY_BYTES w).2)).
  { unfold __init__, _load_or_create_signing_key. rewrite Hfile.
    destruct (decide _) as [?|_]; [contradiction|reflexivity]. }
  subst self w'. rewrite Hinit. cbn [fst snd].
  split; [apply _load_allowlist_key|].
  split; [unfold fresh, peek_bytes; rewrite length_map, length_seq; reflexivity|].
  split; [apply lookup_insert_eq|].
  split; [apply lookup_insert_ne; discriminate|].
  intros Hstale. apply map_empty. intros pid.
  destruct (_allowlist _ !! pid) as [sig|] eqn:Hlook; [exfalso|reflexivity].
  destruct (_load_allowlist_sound _ _ _ _ Hlook) as [Hsig (raw_list & data & Hf & Hjson & Hentry)].
  cbn [_save_signing_key set_files files token_bytes snd] in Hf.
  rewrite lookup_insert_ne in Hf by discriminate.
  apply (Hstale raw_list data pid (JStr sig) Hf Hjson Hentry).
  rewrite Hsig. reflexivity.
Qed.

End IdentityFacts.

(** * identity.py: concrete runs *)
Module IdentityRuns.
Import Identity IdentityFacts.
#[local] Existing Instance Sim.identity_lib.

(** C3 at a token whose signature field is [00]. *)
Lemma forged_signature_witness :
  verify_pairing_token 0 5000 7 ("1:" +:+ Sim.b64encode "a" +:+ ":0:" +:+ Sim.nonce0 +:+ ":00")
    (Sim.manager 300)
  = (Raise (TokenInvalidError InvalidSignature), Sim.manager 300).
Proof.
  apply (forged_signature_rejected_first (H := Sim.identity_lib) SimFacts.hmac_is_hex
           0 5000 7 _ (Sim.b64encode "a") "0" Sim.nonce0 "00" "a").
  - vm_compute. reflexivity.
  - vm_compute. reflexivity.
  - vm_compute. reflexivity.
  - vm_compute. discriminate.
Defined.


(** C9 at a token whose peer field is [a]: one character, padded to four,
    is no base64 text. *)
Lemma undecodable_peer_id_witness :
  verify_pairing_token 0 0 0 "1:a:0:00:00" (Sim.manager 300)
  = (Raise DecodeError, Sim.manager 300).
Proof.
  apply (undecodable_peer_id_escapes (H := Sim.identity_lib) 0 0 0 "1:a:0:00:00"
           "a" "0" "00" "00" (Sim.manager 300)).
  - vm_compute. reflexivity.
  - vm_compute. reflexivity.
Defined.

(** C7 at the token issued at second 1000, accepted with the clock readings
    1010, 1011 and 1012. *)
Lemma accepted_nonce_witness :
  exists self',
    verify_pairing_token 1010 1011 1012 Sim.token0 (Sim.manager 300) = (Ok "device:7", self')
    /\ _nonce_store self' !! Sim.nonce0 = Some (1012 + inject_Z NONCE_STORE_TTL)%Q.
Proof.
  eexists. split; [vm_compute; reflexivity|].
  destruct (accepted_nonce_recorded (H := Sim.identity_lib) 1010 1011 1012 Sim.token0
              "device:7" (Sim.manager 300) _ eq_refl)
    as (v & p & i & nonce & g & Hsplit & Hentry & _).
  vm_compute in Hsplit. injection Hsplit as _ _ _ <- _. 
  exact Hentry.
Defined.

(** C7, counterexample. A token issued at second 1000 and accepted at
    second 1010 is recorded with expiry 1010 + 86400, not 1000 + 86400; and a
    second token accepted at second 87410 is verified on a ledger from which
    that entry is gone, although 87410 does not exceed the entry's expiry
    87410. *)
Lemma ledger_expiry_counts_from_acceptance :
  let run1 := verify_pairing_token 1010 1010 1010 Sim.token0 (Sim.manager 300) in
  let token1 := (create_pairing_token run1.2 87410 "device:8" Sim.world2).1 in
  let run2 := verify_pairing_token 87410 87410 87410 token1 run1.2 in
  run1.1 = Ok "device:7"
  /\ py_int "1000" = Some 1000%Z
  /\ split_on ":" Sim.token0 =
       ["1"; Sim.b64encode "device:7"; "1000"; Sim.nonce0;
        _sign (Sim.manager 300) (_make_payload "1" "device:7" "1000" Sim.nonce0)]
  /\ (exists e, _nonce_store run1.2 !! Sim.nonce0 = Some e
               /\ (e == 1010 + 86400)%Q /\ ~ (e == 1000 + 86400)%Q)
  /\ run2.1 = Ok "device:8"
  /\ _nonce_store run2.2 !! Sim.nonce0 = None
  /\ ~ (87410 > 1010 + 86400)%Q.
Proof.
  cbv zeta. split; [vm_compute; reflexivity|].
  split; [vm_compute; reflexivity|].
  split; [vm_compute; reflexivity|].
  split.
  - eexists. split; [vm_compute; reflexivity|]. split; [reflexivity|].
    intros E. vm_compute in E. discriminate.
  - split; [vm_compute; reflexivity|]. split; [vm_compute; reflexivity|].
    intros E. vm_compute in E. discriminate.
Qed.

(** C4 with a TTL of 200000 seconds: a token issued at second 0 is accepted
    at second 0 and accepted again at second 100000, within its TTL; the
    ledger entry made at second 0 expired at second 86400. *)
Lemma issued_token_accepted_twice_witness :
  let self := Sim.manager 200000 in
  let token := (create_pairing_token self 0 "device:7" Sim.world1).1 in
  _token_ttl self = 200000%Z
  /\ exists self1 self2,
       verify_pairing_token 0 0 0 token self = (Ok "device:7", self1)
       /\ verify_pairing_token 100000 100000 100000 token self1 = (Ok "device:7", self2).
Proof.
  cbv zeta. split; [reflexivity|].
  destruct (issued_token_accepted_twice (H := Sim.identity_lib)
              SimFacts.hmac_is_hex SimFacts.b64encode_alphabet SimFacts.b64encode_length
              SimFacts.b64encode_padding SimFacts.b64decode_encode
              SimFacts.int_of_str_of_int SimFacts.str_of_int_decimal
              (Sim.manager 200000) 0 "device:7" Sim.world1 0 0 0 100000 100000 100000)
    as (self1 & self2 & Hfirst & _ & _ & Hsecond).
  - split; intros E; vm_compute in E; discriminate.
  - vm_compute. reflexivity.
  - split; intros E; vm_compute in E; discriminate.
  - intros E. vm_compute in E. discriminate.
  - exists self1, self2. split; [exact Hfirst|exact Hsecond].
Defined.

(** X29 at the token issued at second 1000: accepted at second 1010, refused
    at second 1020. *)
Lemma issued_token_single_use_witness :
  exists self1,
    verify_pairing_token 1010 1010 1010 Sim.token0 (Sim.manager 300) = (Ok "device:7", self1)
    /\ exists self2,
         verify_pairing_token 1020 1020 1020 Sim.token0 self1 = (Raise TokenReplayError, self2).
Proof.
  destruct (issued_token_single_use (H := Sim.identity_lib)
              SimFacts.hmac_is_hex SimFacts.b64encode_alphabet SimFacts.b64encode_length
              SimFacts.b64encode_padding SimFacts.b64decode_encode
              SimFacts.int_of_str_of_int SimFacts.str_of_int_decimal
              (Sim.manager 300) 1000 "device:7" Sim.world1 1010 1010 1010)
    as (self1 & Hfirst & Hreplay & _).
  - split; intros E; vm_compute in E; discriminate.
  - vm_compute. reflexivity.
  - exists self1. split; [exact Hfirst|].
    apply Hreplay.
    + split; intros E; vm_compute in E; discriminate.
    + reflexivity.
Defined.

(** C8 on a disk whose allowlist file was edited to hold [00] for the peer. *)
Lemma tampered_allowlist_witness :
  let self := (__init__ 300 Sim.world_tampered).1 in
  files Sim.world_tampered !! _allowlist_path = Some (Sim.dumps {["telegram:42" := "00"]})
  /\ _allowlist self !! "telegram:42" = None
  /\ is_peer_allowed self "telegram:42" = Ok false
  /\ exists l, list_allowed_peers self = Ok l /\ "telegram:42" ∉ l.
Proof.
  cbv zeta. split; [reflexivity|].
  apply (tampered_allowlist_entry_dropped (H := Sim.identity_lib) SimFacts.hmac_is_hex
           300 Sim.world_tampered "telegram:42").
  intros raw data Hf. unfold Sim.world_tampered, set_files in Hf.
  cbn [files] in Hf. rewrite lookup_insert_eq in Hf.
  apply (inj Some) in Hf. subst raw.
  cbn [json_loads Sim.identity_lib]. unfold Sim.loads.
  rewrite SimFacts.loads_dict_dumps. intros [= <-].
  rewrite lookup_fmap, lookup_singleton_eq. cbn [fmap option_fmap option_map].
  intros E. vm_compute in E. discriminate.
Defined.

(** C10 on a disk whose key file holds one byte and whose allowlist was
    signed under the previous key. *)
Lemma malformed_key_file_witness :
  let fresh := peek_bytes SIGNING_KEY_BYTES Sim.world_short_key in
  let self := (__init__ 300 Sim.world_short_key).1 in
  files Sim.world_short_key !! key_file = Some [x00]
  /\ _signing_key self = fresh
  /\ files (__init__ 300 Sim.world_short_key).2 !! key_file = Some fresh
  /\ _allowlist self = ∅.
Proof.
  cbv zeta. split; [reflexivity|].
  destruct (malformed_key_file_replaced (H := Sim.identity_lib) 300 Sim.world_short_key [x00])
    as (Hkey & _ & Hfile & _ & Hempty).
  - reflexivity.
  - unfold SIGNING_KEY_BYTES. cbn. lia.
  - split; [exact Hkey|]. split; [exact Hfile|]. apply Hempty.
    intros raw_list data pid v Hf. vm_compute in Hf. injection Hf as <-.
    change (json_loads ?x) with (Sim.loads x). intros Hj. vm_compute in Hj.
    injection Hj as <-. intros Hentry.
    destruct (decide (pid = "telegram:42")) as [->|Hne].
    + vm_compute in Hentry. injection Hentry as <-. vm_compute. discriminate.
    + exfalso. revert Hentry. 
      match goal with |- ?m !! pid = Some v -> False =>
        change m with (JStr <$> ({["telegram:42" := Sim.hmac (_signing_key (Sim.manager 300)) "allow:telegram:42"]} : gmap string string)) end.
      rewrite lookup_fmap, lookup_singleton_ne by congruence. discriminate.
Defined.

End IdentityRuns.

Module SimCryptoFacts.
Import Sim.

Lemma length_rot_add acc b : length (rot_add acc b) = length acc.
Proof. destruct acc as [|a r]; [reflexivity|]. cbn [rot_add]. rewrite length_app. cbn. lia. Qed.

Lemma length_fold_rot_add bs acc : length (fold_left rot_add bs acc) = length acc.
Proof.
  revert acc. induction bs as [|b bs IH]; intros acc; [reflexivity|].
  cbn [fold_left]. rewrite IH. apply length_rot_add.
Qed.

Lemma length_tag16 bs : length (tag16 bs) = 16.
Proof. unfold tag16. rewrite length_map, length_fold_rot_add. reflexivity. Qed.

Lemma aead_round_trip key nonce plaintext :
  aead_decrypt key nonce (aead_encrypt key nonce plaintext) = Some plaintext.
Proof.
  unfold aead_decrypt, aead_encrypt. rewrite length_app, length_tag16.
  replace (length plaintext + 16 - 16) with (length plaintext) by lia.
  rewrite take_app_length. rewrite bool_decide_eq_true_2 by reflexivity. reflexivity.
Qed.

Lemma aead_tag key nonce plaintext : 16 <= length (aead_encrypt key nonce plaintext).
Proof. unfold aead_encrypt. rewrite length_app, length_tag16. lia. Qed.

Lemma unprotect_description data : unprotect (protect data) = Some dpapi_description.
Proof. reflexivity. Qed.

Lemma digest_length data : length (digest data) = 32.
Proof. unfold digest. rewrite length_app, !length_tag16. reflexivity. Qed.

(** A property checked on every number below [n]. *)
Lemma forallb_below (f : nat -> bool) n :
  forallb f (seq 0 n) = true -> forall j, j < n -> f j = true.
Proof.
  intros Hall j Hj. rewrite forallb_forall in Hall. apply Hall, in_seq. lia.
Qed.

End SimCryptoFacts.

(** * vault.py: the claims *)
Module VaultFacts.
Import Vault.

Lemma length_peek_bytes n w : length (peek_bytes n w) = n.
Proof. unfold peek_bytes. rewrite length_map, length_seq. reflexivity. Qed.

Lemma flip_bit_app_l i a b :
  i < 8 * length a -> flip_bit i (a ++ b) = flip_bit i a ++ b.
Proof.
  revert i. induction a as [|x a IH]; intros i Hi; cbn [length] in Hi; [lia|].
  cbn [app flip_bit]. destruct (Nat.ltb_spec i 8); [reflexivity|].
  rewrite IH by lia. reflexivity.
Qed.

Lemma flip_bit_app_r i a b :
  8 * length a <= i -> flip_bit i (a ++ b) = a ++ flip_bit (i - 8 * length a) b.
Proof.
  revert i. induction a as [|x a IH]; intros i Hi; cbn [length] in Hi.
  - cbn [app length]. rewrite Nat.sub_0_r. reflexivity.
  - cbn [app flip_bit]. destruct (Nat.ltb_spec i 8); [lia|].
    rewrite IH by lia. cbn [length].
    replace (i - 8 - 8 * length a) with (i - 8 * S (length a)) by lia. reflexivity.
Qed.

Lemma length_flip_bit i bs : length (flip_bit i bs) = length bs.
Proof.
  revert i. induction bs as [|x bs IH]; intros i; [reflexivity|].
  cbn [flip_bit]. destruct (Nat.ltb i 8); cbn [length]; [reflexivity|].
  rewrite IH. reflexivity.
Qed.

(** The layout of the file: what [_load] reads back from the bytes [_save]
    wrote. *)
Section Layout.
Variables (key_mode : byte) (wrapped nonce ct : bytes).
Hypothesis wrapped_32 : length wrapped = 32.
Hypothesis nonce_12 : length nonce = 12.

Lemma vault_file_length :
  length (vault_file key_mode wrapped nonce ct) = 51 + length ct.
Proof. unfold vault_file. rewrite !length_app. cbn [length MAGIC pack_H]. lia. Qed.

Lemma vault_file_magic : take 4 (vault_file key_mode wrapped nonce ct) = MAGIC.
Proof. reflexivity. Qed.

Lemma vault_file_version : unpack_H (vault_file key_mode wrapped nonce ct) 4 = VERSION.
Proof. reflexivity. Qed.

Lemma vault_file_key_mode : nth 6 (vault_file key_mode wrapped nonce ct) x00 = key_mode.
Proof. reflexivity. Qed.

Lemma vault_file_tail :
  drop 7 (vault_file key_mode wrapped nonce ct) = wrapped ++ nonce ++ ct.
Proof. reflexivity. Qed.

Lemma vault_file_wrapped : take 32 (drop 7 (vault_file key_mode wrapped nonce ct)) = wrapped.
Proof. rewrite vault_file_tail. apply take_app_length'. symmetry. exact wrapped_32. Qed.

Lemma vault_file_nonce : take 12 (drop 39 (vault_file key_mode wrapped nonce ct)) = nonce.
Proof.
  change 39 with (7 + 32). rewrite <- drop_drop, vault_file_tail.
  rewrite drop_app_length' by (symmetry; exact wrapped_32).
  apply take_app_length'. symmetry. exact nonce_12.
Qed.

Lemma vault_file_ciphertext : drop 51 (vault_file key_mode wrapped nonce ct) = ct.
Proof.
  change 51 with (7 + (32 + 12)). rewrite <- drop_drop, vault_file_tail, <- drop_drop.
  rewrite drop_app_length' by (symmetry; exact wrapped_32).
  apply drop_app_length'. symmetry. exact nonce_12.
Qed.

End Layout.

Section Code.
Context `{CryptoLib}.

(** [_load] on a file of the vault's layout, for an instance that recovers
    the key [k]. *)
Lemma _load_layout v w key_mode wrapped nonce ct k :
  files w !! _path = Some (vault_file key_mode wrapped nonce ct) ->
  length wrapped = 32 -> length nonce = 12 -> 16 <= length ct ->
  recovers (_passphrase v) (files w) key_mode wrapped k ->
  _load (v, w) =
  let v2 := set_aes_key (Some k) (set_wrapped (Some wrapped) (set_key_mode key_mode v)) in
  match AESGCM_decrypt k nonce ct with
  | None => (Raise (VaultError VaultDecryptionFailed), (v2, w))
  | Some plaintext =>
      match json_loads_payload plaintext with
      | None => (Raise ValueError, (v2, w))
      | Some data => (Ok tt, (set_data (Some data) v2, w))
      end
  end.
Proof.
  intros Hfile Hw Hn Hct Hrec.
  unfold _load, bind, disk. cbn [fst snd]. rewrite Hfile.
  pose proof (vault_file_length key_mode wrapped nonce ct Hw Hn) as Hlen.
  destruct (decide _) as [Hsmall|_]; [lia|].
  rewrite vault_file_magic, bool_decide_eq_true_2 by reflexivity.
  rewrite vault_file_version.
  change (4 + 2) with 6. change (6 + 1) with 7. change (7 + 32) with 39.
  change (39 + 12) with 51.
  rewrite vault_file_key_mode, (vault_file_wrapped _ _ _ _ Hw),
    (vault_file_nonce _ _ _ _ Hw Hn), (vault_file_ciphertext _ _ _ _ Hw Hn).
  cbn [negb N.eqb VERSION Pos.eqb update self fst snd set_key_mode set_wrapped
       _passphrase].
  unfold recovers in Hrec.
  destruct (decide (key_mode = KEY_MODE_DPAPI)) as [Hmode|Hmode].
  - destruct Hrec as (Havail & blob & Hblob & Hun).
    unfold _dpapi_unprotect, bind, disk, ret. rewrite Havail. cbn [negb fst snd].
    rewrite Hblob, Hun.
    destruct (AESGCM_decrypt k nonce ct) as [plaintext|]; [|reflexivity].
    destruct (json_loads_payload plaintext); reflexivity.
  - destruct Hrec as (Hpass & ->). rewrite Hpass. unfold ret.
    destruct (AESGCM_decrypt _ nonce ct) as [plaintext|]; [|reflexivity].
    destruct (json_loads_payload plaintext); reflexivity.
Qed.

Lemma _ensure_loaded_locked v w raw :
  _data v = None -> files w !! _path = Some raw ->
  _ensure_loaded (v, w) = _load (v, w).
Proof.
  intros Hdata Hfile. unfold _ensure_loaded, bind, self, disk. cbn [fst snd].
  rewrite Hdata. cbn [fst snd]. rewrite Hfile.
  destruct (decide _) as [_|Hno]; [reflexivity|].
  exfalso. apply Hno. eexists. reflexivity.
Qed.

(** A loaded instance answers [retrieve] from memory. *)
Lemma retrieve_loaded v w d name :
  _data v = Some d ->
  retrieve name (v, w) =
  (match d !! name with Some value => Ok value | None => Raise KeyError end, (v, w)).
Proof.
  intros Hd. unfold retrieve, _ensure_loaded, loaded_data, bind, self, ret, raise.
  cbn [fst snd]. rewrite Hd. cbn [fst snd]. rewrite Hd.
  destruct (d !! name); reflexivity.
Qed.

(** A bit flipped at or after byte 39 of a vault file is a bit flipped in
    its nonce or in its ciphertext and tag; the header is untouched. *)
Lemma flip_bit_vault_file i key_mode wrapped nonce ct :
  length wrapped = 32 -> length nonce = 12 ->
  8 * 39 <= i < 8 * length (vault_file key_mode wrapped nonce ct) ->
  (exists j, j < 8 * 12
     /\ flip_bit i (vault_file key_mode wrapped nonce ct)
        = vault_file key_mode wrapped (flip_bit j nonce) ct)
  \/ (exists j, j < 8 * length ct
     /\ flip_bit i (vault_file key_mode wrapped nonce ct)
        = vault_file key_mode wrapped nonce (flip_bit j ct)).
Proof.
  intros Hw Hn Hi. rewrite (vault_file_length _ _ _ _ Hw Hn) in Hi.
  unfold vault_file.
  assert (Hh : length (MAGIC ++ pack_H VERSION ++ [key_mode] ++ wrapped) = 39)
    by (rewrite !length_app; cbn [length MAGIC pack_H]; lia).
  rewrite flip_bit_app_r by (rewrite Hh; lia). rewrite Hh.
  destruct (Nat.lt_ge_cases (i - 8 * 39) (8 * 12)) as [Hlt|Hge].
  - left. exists (i - 8 * 39). split; [exact Hlt|].
    rewrite flip_bit_app_l by (rewrite Hn; exact Hlt). reflexivity.
  - right. exists (i - 8 * 39 - 8 * 12). split; [lia|].
    rewrite flip_bit_app_r by (rewrite Hn; exact Hge). rewrite Hn. reflexivity.
Qed.

(** C6. A vault file was written under [key]: header, nonce and
    [AESGCM_encrypt key nonce plaintext]. The instance that opens it has
    nothing loaded and recovers the key [k]. Either the file is as written and
    [k] is another key, or [k] is [key] and one bit of the file at or after
    byte 39 (the nonce and the ciphertext with its tag) was flipped. What
    AES-GCM authentication gives for this key is assumed: decryption under
    another key, under a nonce with one bit flipped, or of a ciphertext with
    one bit flipped, raises. Then the first access, whichever method makes
    it, raises [VaultError] ("Vault decryption failed"), the instance still
    has no data and the vault stays locked. *)
Theorem tampered_vault_is_refused
    (v : Vault) (w : world) (key_mode : byte)
    (wrapped nonce key plaintext k raw : bytes) :
  let ct := AESGCM_encrypt key nonce plaintext in
  let genuine := vault_file key_mode wrapped nonce ct in
  _data v = None ->
  length wrapped = 32 -> length nonce = 12 -> 16 <= length ct ->
  files w !! _path = Some raw ->
  recovers (_passphrase v) (files w) key_mode wrapped k ->
  (k <> key -> AESGCM_decrypt k nonce ct = None) ->
  (forall j, j < 8 * 12 -> AESGCM_decrypt key (flip_bit j nonce) ct = None) ->
  (forall j, j < 8 * length ct -> AESGCM_decrypt key nonce (flip_bit j ct) = None) ->
  (raw = genuine /\ k <> key)
  \/ (k = key /\ exists i, 8 * 39 <= i < 8 * length genuine /\ raw = flip_bit i genuine) ->
  exists v',
    _data v' = None
    /\ _ensure_loaded (v, w) = (Raise (VaultError VaultDecryptionFailed), (v', w))
    /\ (forall name,
          retrieve name (v, w) = (Raise (VaultError VaultDecryptionFailed), (v', w)))
    /\ (forall name value,
          store name value (v, w) = (Raise (VaultError VaultDecryptionFailed), (v', w)))
    /\ (forall name,
          delete name (v, w) = (Raise (VaultError VaultDecryptionFailed), (v', w)))
    /\ list_keys (v, w) = (Raise (VaultError VaultDecryptionFailed), (v', w))
    /\ rotate_key (v, w) = (Raise (VaultError VaultDecryptionFailed), (v', w))
    /\ is_locked v' w = true.
Proof.
  intros ct genuine Hdata Hw Hn Hct Hfile Hrec Hkey Hnonce Hcipher Hcase.
  subst genuine.
  exists (set_aes_key (Some k) (set_wrapped (Some wrapped) (set_key_mode key_mode v))).
  split; [exact Hdata|].
  assert (Hload : _ensure_loaded (v, w) =
            (Raise (VaultError VaultDecryptionFailed),
             (set_aes_key (Some k) (set_wrapped (Some wrapped) (set_key_mode key_mode v)), w))).
  { rewrite (_ensure_loaded_locked _ _ _ Hdata Hfile).
    destruct Hcase as [[-> Hne]|[-> (i & Hi & ->)]].
    - rewrite (_load_layout _ _ _ _ _ _ _ Hfile Hw Hn Hct Hrec).
      cbv zeta. rewrite (Hkey Hne). reflexivity.
    - destruct (flip_bit_vault_file i key_mode wrapped nonce ct Hw Hn Hi)
        as [(j & Hj & E)|(j & Hj & E)]; rewrite E in Hfile.
      + rewrite (_load_layout v w key_mode wrapped (flip_bit j nonce) ct key Hfile Hw
                   (eq_trans (length_flip_bit _ _) Hn) Hct Hrec).
        cbv zeta. rewrite (Hnonce j Hj). reflexivity.
      + assert (Hct' : 16 <= length (flip_bit j ct))
          by (rewrite length_flip_bit; exact Hct).
        rewrite (_load_layout v w key_mode wrapped nonce (flip_bit j ct) key Hfile Hw
                   Hn Hct' Hrec).
        cbv zeta. rewrite (Hcipher j Hj). reflexivity. }
  split; [exact Hload|].
  repeat split; intros;
    try (unfold retrieve, store, delete, list_keys, rotate_key, bind;
         rewrite Hload; reflexivity).
  unfold is_locked. rewrite Hfile. cbn [set_aes_key set_wrapped set_key_mode _data].
  rewrite Hdata. reflexivity.
Qed.

(** ** Saving, opening and initialising *)

Lemma bind_Ok_inv {S A B} (m : method S A) (f : A -> method S B) s b s'' :
  bind m f s = (Ok b, s'') ->
  exists a s', m s = (Ok a, s') /\ f a s' = (Ok b, s'').
Proof.
  unfold bind. destruct (m s) as [[a|e] s']; [|discriminate].
  intros Hf. exists a, s'. split; [reflexivity|exact Hf].
Qed.

(** The world [_save] leaves when it writes [content]. *)
Lemma _save_writes v w k d x :
  _aes_key v = Some k -> _data v = Some d -> _wrapped_key_or_salt v = Some x ->
  let nonce := peek_bytes 12 w in
  let content :=
    vault_file (_key_mode v) x nonce (AESGCM_encrypt k nonce (json_dumps_compact d)) in
  exists w',
    _save (v, w) = (Ok tt, (v, w'))
    /\ files w' !! _path = Some content
    /\ files w' !! _dpapi_sidecar_path = files w !! _dpapi_sidecar_path
    /\ entropy w' = entropy w
    /\ drawn w' = drawn w + 12.
Proof.
  intros Hk Hd Hx nonce content.
  exists (World (<[_path := content]>
                   (base.delete tmp_path (<[tmp_path := content]> (files w))))
                (entropy w) (drawn w + 12)).
  split.
  - unfold _save, bind, secrets_token_bytes, self, write_disk, disk, token_bytes.
    cbn [fst snd]. rewrite Hk, Hd, Hx. cbn [fst snd set_files files].
    rewrite lookup_insert_eq. reflexivity.
  - cbn [files entropy drawn]. split; [apply lookup_insert_eq|].
    split; [|split; reflexivity].
    rewrite lookup_insert_ne, lookup_delete_ne, lookup_insert_ne by discriminate.
    reflexivity.
Qed.

(** [_load] returns only with the key it recovered. *)
Lemma _load_ok_inv v w v' w' :
  _load (v, w) = (Ok tt, (v', w')) ->
  w' = w /\ _passphrase v' = _passphrase v
  /\ exists d k x,
       _data v' = Some d /\ _aes_key v' = Some k /\ _wrapped_key_or_salt v' = Some x
       /\ length x = 32
       /\ recovers (_passphrase v) (files w) (_key_mode v') x k.
Proof.
  unfold _load, bind, disk. cbn [fst snd].
  destruct (files w !! _path) as [raw|]; [|discriminate].
  destruct (decide _) as [?|Hlen]; [discriminate|].
  destruct (negb (bool_decide _)); [discriminate|].
  destruct (negb (_ =? _)%N); [discriminate|].
  change (4 + 2) with 6. change (6 + 1) with 7. change (7 + 32) with 39.
  change (39 + 12) with 51.
  cbn [update self fst snd set_key_mode set_wrapped _passphrase].
  set (key_mode := nth 6 raw x00). set (wrapped := take 32 (drop 7 raw)).
  assert (Hw : length wrapped = 32)
    by (unfold wrapped; rewrite length_take, length_drop; lia).
  unfold recovers.
  destruct (decide (key_mode = KEY_MODE_DPAPI)) as [Hmode|Hmode].
  - unfold _dpapi_unprotect, bind, disk, ret.
    destruct _DPAPI_AVAILABLE eqn:Havail; [|discriminate]. cbn [negb fst snd].
    destruct (files w !! _dpapi_sidecar_path) as [blob|] eqn:Hblob; [|discriminate].
    destruct (CryptUnprotectData blob) as [k|] eqn:Hun; [|discriminate].
    destruct (AESGCM_decrypt k _ _) as [plaintext|]; [|discriminate].
    destruct (json_loads_payload plaintext) as [d|]; [|discriminate].
    intros [= <- <-]. split; [reflexivity|]. split; [reflexivity|].
    exists d, k, wrapped. cbn. repeat split; try assumption.
    rewrite decide_True by exact Hmode.
    split; [reflexivity|]. exists blob. split; [reflexivity|exact Hun].
  - destruct (no_passphrase (_passphrase v)) eqn:Hpass; [discriminate|]. unfold ret.
    destruct (AESGCM_decrypt _ _ _) as [plaintext|]; [|discriminate].
    destruct (json_loads_payload plaintext) as [d|]; [|discriminate].
    intros [= <- <-]. split; [reflexivity|]. split; [reflexivity|].
    exists d, (_pbkdf2_key (passphrase_text (_passphrase v)) wrapped), wrapped.
    cbn. repeat split; try assumption.
    rewrite decide_False by exact Hmode. split; reflexivity.
Qed.

Section RoundTrip.

(** Library facts: AES-GCM decrypts what it encrypted under the same key and
    nonce, and appends a tag of 16 bytes; [json.loads] reads back what
    [json.dumps] wrote. The platform is one without pywin32, so that every
    vault is in passphrase mode: what [_dpapi_unprotect] keeps of
    [CryptUnprotectData]'s answer is the description and not the key that was
    protected, so that with DPAPI no vault is read back by a new instance. *)
Hypothesis aead_round_trip :
  forall key nonce plaintext,
    AESGCM_decrypt key nonce (AESGCM_encrypt key nonce plaintext) = Some plaintext.
Hypothesis aead_tag :
  forall key nonce plaintext, 16 <= length (AESGCM_encrypt key nonce plaintext).
Hypothesis json_round_trip :
  forall data, json_loads_payload (json_dumps_compact data) = Some data.
Hypothesis no_dpapi : _DPAPI_AVAILABLE = false.

Lemma _initialise_new_vault_ok v w v' w' :
  _initialise_new_vault (v, w) = (Ok tt, (v', w')) ->
  _passphrase v' = _passphrase v /\ _data v' = Some ∅ /\ vault_consistent v' w'.
Proof.
  unfold _initialise_new_vault, bind, secrets_token_bytes, update, self, token_bytes.
  cbn [fst snd set_aes_key _key_mode _passphrase].
  set (w1 := World (files w) (entropy w) (drawn w + 32)).
  destruct (decide (_key_mode v = KEY_MODE_DPAPI)) as [Hmode|Hmode].
  - unfold _dpapi_protect, bind, raise. rewrite no_dpapi. cbn [negb fst snd].
    discriminate.
  - destruct (no_passphrase (_passphrase v)) eqn:Hpass; [discriminate|].
    cbn [fst snd set_wrapped set_aes_key set_data].
    match goal with |- context [_save (?v1, ?w2)] =>
      destruct (_save_writes v1 w2
                  (_pbkdf2_key (passphrase_text (_passphrase v)) (peek_bytes 32 w1)) ∅
                  (peek_bytes 32 w1) eq_refl eq_refl eq_refl)
        as (w3 & Hsave & _); rewrite Hsave end.
    intros [= <- <-]. split; [reflexivity|]. split; [reflexivity|].
    unfold vault_consistent. cbn [_data _aes_key _wrapped_key_or_salt _key_mode _passphrase].
    eexists _, _. split; [reflexivity|]. split; [reflexivity|].
    split; [apply length_peek_bytes|].
    unfold recovers. rewrite decide_False by exact Hmode.
    split; [exact Hpass|reflexivity].
Qed.

Lemma _ensure_loaded_ok v w v' w' :
  vault_consistent v w ->
  _ensure_loaded (v, w) = (Ok tt, (v', w')) ->
  _passphrase v' = _passphrase v
  /\ is_Some (_data v')
  /\ vault_consistent v' w'.
Proof.
  intros Hcons. unfold _ensure_loaded, bind, self, disk. cbn [fst snd].
  destruct (_data v) as [d|] eqn:Hd.
  - unfold ret. intros [= <- <-]. split; [reflexivity|]. split; [|exact Hcons].
    rewrite Hd. eexists. reflexivity.
  - cbn [fst snd]. destruct (decide _) as [_|_].
    + intros Hload. destruct (_load_ok_inv _ _ _ _ Hload)
        as (-> & Hpass & d & k & x & Hd' & Hk & Hx & Hlen & Hrec).
      split; [exact Hpass|]. split; [rewrite Hd'; eexists; reflexivity|].
      unfold vault_consistent. rewrite Hd'. exists k, x. rewrite Hpass.
      repeat split; assumption.
    + intros Hinit. destruct (_initialise_new_vault_ok _ _ _ _ Hinit) as (Hp & Hd' & Hc).
      split; [exact Hp|]. split; [rewrite Hd'; eexists; reflexivity|exact Hc].
Qed.

Lemma recovers_sidecar passphrase fs fs' key_mode x k :
  fs' !! _dpapi_sidecar_path = fs !! _dpapi_sidecar_path ->
  recovers passphrase fs key_mode x k -> recovers passphrase fs' key_mode x k.
Proof.
  intros Hside. unfold recovers. destruct (decide _); [|exact id].
  rewrite Hside. exact id.
Qed.

(** What a new instance does on its first [retrieve], on a disk whose vault
    file has the vault's layout. *)
Lemma retrieve_reopened passphrase w key_mode x nonce ct k name :
  files w !! _path = Some (vault_file key_mode x nonce ct) ->
  length x = 32 -> length nonce = 12 -> 16 <= length ct ->
  recovers passphrase (files w) key_mode x k ->
  let v2 := set_aes_key (Some k)
              (set_wrapped (Some x) (set_key_mode key_mode (__init__ passphrase))) in
  retrieve name (__init__ passphrase, w) =
  match AESGCM_decrypt k nonce ct with
  | None => (Raise (VaultError VaultDecryptionFailed), (v2, w))
  | Some plaintext =>
      match json_loads_payload plaintext with
      | None => (Raise ValueError, (v2, w))
      | Some data =>
          (match data !! name with Some value => Ok value | None => Raise KeyError end,
           (set_data (Some data) v2, w))
      end
  end.
Proof.
  intros Hfile Hx Hn Hct Hrec v2. unfold retrieve, bind.
  rewrite (_ensure_loaded_locked (__init__ passphrase) w _ eq_refl Hfile).
  rewrite (_load_layout (__init__ passphrase) w _ _ _ _ _ Hfile Hx Hn Hct Hrec).
  cbv zeta. fold v2.
  destruct (AESGCM_decrypt k nonce ct) as [plaintext|]; [|reflexivity].
  destruct (json_loads_payload plaintext) as [data|]; [|reflexivity].
  unfold loaded_data, bind, self, ret, raise. cbn [fst snd set_data _data].
  destruct (data !! name); reflexivity.
Qed.

(** The state a successful [store] leaves. *)
Lemma store_ok_inv v w name value v' w' :
  vault_consistent v w ->
  store name value (v, w) = (Ok tt, (v', w')) ->
  exists d k x nonce,
    _data v' = Some (<[name := value]> d)
    /\ _aes_key v' = Some k /\ _wrapped_key_or_salt v' = Some x
    /\ _passphrase v' = _passphrase v
    /\ length x = 32 /\ length nonce = 12
    /\ files w' !! _path =
         Some (vault_file (_key_mode v') x nonce
                 (AESGCM_encrypt k nonce (json_dumps_compact (<[name := value]> d))))
    /\ recovers (_passphrase v) (files w') (_key_mode v') x k.
Proof.
  intros Hcons Hstore. unfold store in Hstore.
  apply bind_Ok_inv in Hstore as ([] & [v1 w1] & Hload & Hrest).
  destruct (_ensure_loaded_ok _ _ _ _ Hcons Hload) as (Hpass & [d Hd] & Hcons1).
  unfold vault_consistent in Hcons1. rewrite Hd in Hcons1.
  destruct Hcons1 as (k & x & Hk & Hx & Hlen & Hrec).
  unfold loaded_data, bind, self, ret, update in Hrest. cbn [fst snd] in Hrest.
  rewrite Hd in Hrest. cbn [fst snd] in Hrest.
  destruct (_save_writes (set_data (Some (<[name := value]> d)) v1) w1 k
              (<[name := value]> d) x Hk eq_refl Hx)
    as (w2 & Hsave & Hfile & Hside & _).
  rewrite Hsave in Hrest. injection Hrest as <- <-.
  exists d, k, x, (peek_bytes 12 w1).
  split; [reflexivity|]. split; [exact Hk|]. split; [exact Hx|]. split; [exact Hpass|].
  split; [exact Hlen|]. split; [apply length_peek_bytes|]. split; [exact Hfile|].
  rewrite <- Hpass. exact (recovers_sidecar _ _ _ _ _ _ Hside Hrec).
Qed.

(** [store] keeps the instance in that state. *)
Lemma store_consistent v w name value v' w' :
  vault_consistent v w ->
  store name value (v, w) = (Ok tt, (v', w')) ->
  vault_consistent v' w'.
Proof.
  intros Hcons Hstore.
  destruct (store_ok_inv _ _ _ _ _ _ Hcons Hstore)
    as (d & k & x & nonce & Hd & Hk & Hx & Hpass & Hlen & _ & _ & Hrec).
  unfold vault_consistent. rewrite Hd. exists k, x. rewrite Hpass.
  repeat split; assumption.
Qed.

(** X30. In passphrase mode (on a platform without pywin32), on an instance
    that holds the key its passphrase and the salt of the header derive (any
    instance that has not loaded yet, or was loaded by [_load] or
    [_initialise_new_vault]; not one on which [rotate_key] was called), a
    [store(name, value)] that returns is followed by [retrieve(name) = value]
    on the same instance, and on a new instance with the same passphrase
    constructed on the disk the store left. *)
Theorem store_retrieve_round_trip
    (v : Vault) (w : world) (name value : string) (v' : Vault) (w' : world) :
  vault_consistent v w ->
  store name value (v, w) = (Ok tt, (v', w')) ->
  retrieve name (v', w') = (Ok value, (v', w'))
  /\ exists v'', retrieve name (__init__ (_passphrase v), w') = (Ok value, (v'', w')).
Proof.
  intros Hcons Hstore.
  destruct (store_ok_inv _ _ _ _ _ _ Hcons Hstore)
    as (d & k & x & nonce & Hd & Hk & Hx & Hpass & Hlen & Hn & Hfile & Hrec).
  split.
  - rewrite (retrieve_loaded _ _ _ name Hd), lookup_insert_eq. reflexivity.
  - eexists.
    rewrite (retrieve_reopened _ _ _ _ _ _ _ name Hfile Hlen Hn (aead_tag _ _ _) Hrec).
    rewrite aead_round_trip, json_round_trip, lookup_insert_eq. reflexivity.
Qed.

End RoundTrip.

(** C1, what the code does in PBKDF2 mode. [rotate_key] on a loaded instance
    draws a fresh key and a fresh salt and writes the vault encrypted under
    the fresh key, with the fresh salt in the header. The same instance keeps
    answering from memory. A new instance with the same passphrase derives its
    key from the passphrase and the fresh salt, which is not the fresh key:
    when AES-GCM refuses that key, every first access raises [VaultError]
    ("Vault decryption failed"). [_initialise_new_vault] derives the key from
    the passphrase and the salt it stores; [rotate_key] does not. *)
Theorem rotate_key_pbkdf2_locks_out
    (v : Vault) (w : world) (d : gmap string string) :
  let fresh := peek_bytes 32 w in
  let salt := peek_bytes 32 (World (files w) (entropy w) (drawn w + 32)) in
  let nonce := peek_bytes 12 (World (files w) (entropy w) (drawn w + 32 + 32)) in
  let ct := AESGCM_encrypt fresh nonce (json_dumps_compact d) in
  let derived := _pbkdf2_key (passphrase_text (_passphrase v)) salt in
  _data v = Some d ->
  _key_mode v <> KEY_MODE_DPAPI ->
  no_passphrase (_passphrase v) = false ->
  16 <= length ct ->
  AESGCM_decrypt derived nonce ct = None ->
  exists v' w',
    rotate_key (v, w) = (Ok tt, (v', w'))
    /\ _aes_key v' = Some fresh
    /\ files w' !! _path = Some (vault_file (_key_mode v) salt nonce ct)
    /\ (forall name value,
          d !! name = Some value -> retrieve name (v', w') = (Ok value, (v', w')))
    /\ (forall name,
          exists v'',
            retrieve name (__init__ (_passphrase v), w')
            = (Raise (VaultError VaultDecryptionFailed), (v'', w'))
            /\ _data v'' = None).
Proof.
  intros fresh salt nonce ct derived Hd Hmode Hpass Hct Hreject.
  set (v1 := set_wrapped (Some salt) (set_aes_key (Some fresh) v)).
  destruct (_save_writes v1 (World (files w) (entropy w) (drawn w + 32 + 32)) fresh d salt
              eq_refl Hd eq_refl) as (w2 & Hsave & Hfile & Hside & _).
  exists v1, w2. split.
  - unfold rotate_key, _ensure_loaded, bind, self, ret, secrets_token_bytes, update,
      token_bytes. cbn [fst snd]. rewrite Hd. cbn [fst snd set_aes_key _key_mode].
    rewrite decide_False by exact Hmode. cbn [fst snd files entropy drawn].
    exact Hsave.
  - split; [reflexivity|]. split; [exact Hfile|]. split.
    + intros name value Hlook.
      rewrite (retrieve_loaded v1 w2 d name Hd), Hlook. reflexivity.
    + intros name. eexists.
      rewrite (retrieve_reopened (_passphrase v) w2 _ _ _ _ derived name Hfile
                 (length_peek_bytes _ _) (length_peek_bytes _ _) Hct).
      * fold nonce ct. rewrite Hreject. split; reflexivity.
      * unfold recovers. cbn [v1 set_wrapped set_aes_key _key_mode].
        rewrite decide_False by exact Hmode. split; [exact Hpass|reflexivity].
Qed.

End Code.
End VaultFacts.

(** * vault.py: concrete runs *)
Module VaultRuns.
Import Vault VaultFacts.
#[local] Existing Instance Sim.posix_lib.

(** X30 at a first [store] on the empty disk. *)
Lemma store_retrieve_witness :
  store "gmail" "ya29" (__init__ (Some "pw"), Sim.world0) = (Ok tt, Sim.vault_stored)
  /\ retrieve "gmail" (Sim.vault_stored.1, Sim.vault_stored.2)
     = (Ok "ya29", (Sim.vault_stored.1, Sim.vault_stored.2))
  /\ exists v'',
       retrieve "gmail" (__init__ (Some "pw"), Sim.vault_stored.2)
       = (Ok "ya29", (v'', Sim.vault_stored.2)).
Proof.
  split; [vm_compute; reflexivity|].
  apply (store_retrieve_round_trip (H := Sim.posix_lib)
           SimCryptoFacts.aead_round_trip SimCryptoFacts.aead_tag
           SimFacts.loads_dict_dumps eq_refl
           (__init__ (Some "pw")) Sim.world0 "gmail" "ya29").
  - exact I.
  - vm_compute. reflexivity.
Defined.

(** The simulated AES-GCM refuses every single-bit flip of the stored nonce
    and ciphertext (checked by evaluation). *)
Lemma stored_nonce_flips_refused j :
  j < 8 * 12 ->
  Sim.aead_decrypt Sim.stored_key (flip_bit j Sim.stored_nonce)
    (Sim.aead_encrypt Sim.stored_key Sim.stored_nonce Sim.stored_plaintext) = None.
Proof.
  intros Hj.
  assert (Hall : forallb
            (fun j => match Sim.aead_decrypt Sim.stored_key (flip_bit j Sim.stored_nonce)
                              (Sim.aead_encrypt Sim.stored_key Sim.stored_nonce
                                 Sim.stored_plaintext)
                      with None => true | Some _ => false end)
            (seq 0 (8 * 12)) = true) by (vm_compute; reflexivity).
  pose proof (SimCryptoFacts.forallb_below _ _ Hall j Hj) as Hone. cbv beta in Hone.
  destruct (Sim.aead_decrypt _ _ _); [discriminate|reflexivity].
Qed.

Lemma stored_ciphertext_flips_refused j :
  j < 8 * length (Sim.aead_encrypt Sim.stored_key Sim.stored_nonce Sim.stored_plaintext) ->
  Sim.aead_decrypt Sim.stored_key Sim.stored_nonce
    (flip_bit j (Sim.aead_encrypt Sim.stored_key Sim.stored_nonce Sim.stored_plaintext))
  = None.
Proof.
  intros Hj.
  assert (Hall : forallb
            (fun j => match Sim.aead_decrypt Sim.stored_key Sim.stored_nonce
                              (flip_bit j (Sim.aead_encrypt Sim.stored_key
                                             Sim.stored_nonce Sim.stored_plaintext))
                      with None => true | Some _ => false end)
            (seq 0 (8 * length (Sim.aead_encrypt Sim.stored_key Sim.stored_nonce
                                  Sim.stored_plaintext))) = true)
    by (vm_compute; reflexivity).
  pose proof (SimCryptoFacts.forallb_below _ _ Hall j Hj) as Hone. cbv beta in Hone.
  destruct (Sim.aead_decrypt _ _ _); [discriminate|reflexivity].
Qed.

(** C6 at the stored vault with bit 3 of byte 51, the first byte of the
    ciphertext, flipped. *)
Lemma tampered_vault_witness :
  files Sim.vault_stored.2 !! _path = Some Sim.stored_file
  /\ exists v',
       _data v' = None
       /\ retrieve "gmail" (__init__ (Some "pw"), Sim.world_flipped (8 * 51 + 3))
          = (Raise (VaultError VaultDecryptionFailed), (v', Sim.world_flipped (8 * 51 + 3))).
Proof.
  split; [vm_compute; reflexivity|].
  destruct (tampered_vault_is_refused (H := Sim.posix_lib)
              (__init__ (Some "pw")) (Sim.world_flipped (8 * 51 + 3)) KEY_MODE_PBKDF2
              Sim.stored_salt Sim.stored_nonce Sim.stored_key Sim.stored_plaintext
              Sim.stored_key (flip_bit (8 * 51 + 3) Sim.stored_file))
    as (v' & Hdata & _ & Hretrieve & _).
  - reflexivity.
  - reflexivity.
  - reflexivity.
  - apply SimCryptoFacts.aead_tag.
  - apply lookup_insert_eq.
  - split; reflexivity.
  - intros Hne. exfalso. apply Hne. reflexivity.
  - exact stored_nonce_flips_refused.
  - exact stored_ciphertext_flips_refused.
  - right. split; [reflexivity|]. exists (8 * 51 + 3). split; [|reflexivity].
    split; [lia|]. apply Nat.ltb_lt. vm_compute. reflexivity.
  - exists v'. split; [exact Hdata|apply Hretrieve].
Defined.

(** C1 at the stored vault: after [rotate_key] the same instance reads the
    value, a new instance with the same passphrase is refused. *)
Lemma rotate_key_locks_out_witness :
  _data Sim.vault_stored.1 = Some {["gmail" := "ya29"]}
  /\ exists v' w',
       rotate_key Sim.vault_stored = (Ok tt, (v', w'))
       /\ retrieve "gmail" (v', w') = (Ok "ya29", (v', w'))
       /\ exists v'',
            retrieve "gmail" (__init__ (Some "pw"), w')
            = (Raise (VaultError VaultDecryptionFailed), (v'', w')).
Proof.
  split; [vm_compute; reflexivity|].
  destruct (rotate_key_pbkdf2_locks_out (H := Sim.posix_lib)
              Sim.vault_stored.1 Sim.vault_stored.2 {["gmail" := "ya29"]})
    as (v' & w' & Hrun & _ & _ & Hsame & Hfresh).
  - vm_compute. reflexivity.
  - intros E. vm_compute in E. discriminate.
  - vm_compute. reflexivity.
  - apply SimCryptoFacts.aead_tag.
  - vm_compute. reflexivity.
  - exists v', w'. split; [exact Hrun|]. split.
    + apply Hsame. reflexivity.
    + destruct (Hfresh "gmail") as (v'' & Hfail & _). exists v''. exact Hfail.
Defined.

End VaultRuns.

(** * identity.py: further properties *)
Module IdentityMore.
Import Identity IdentityFacts.

Lemma length_split_on sep s : length (split_on sep s) = S (count_char sep s).
Proof.
  induction s as [|c s IH]; [reflexivity|]. cbn [split_on count_char].
  destruct (Ascii.eqb c sep); cbn [length]; [rewrite IH; reflexivity|].
  destruct (split_on sep s) as [|x xs]; cbn [length] in *; [discriminate|exact IH].
Qed.

Lemma length_hex_of_bytes bs : String.length (hex_of_bytes bs) = 2 * length bs.
Proof.
  induction bs as [|b bs IH]; [reflexivity|].
  cbn [hex_of_bytes length]. unfold hex_of_byte. rewrite !app_cons_string, app_nil_string.
  cbn [String.length]. rewrite IH. lia.
Qed.

Section Tokens.
Context `{IdentityLib}.

(** The exits of [verify_fields]. *)
Lemma verify_fields_cases t_age t_evict t_store v p i n g self :
  let run := verify_fields t_age t_evict t_store v p i n g self in
  (v <> TOKEN_VERSION /\ run = (Raise (TokenInvalidError UnsupportedVersion), self))
  \/ (v = TOKEN_VERSION
      /\ ((run.2 = self
           /\ (run.1 = Raise DecodeError \/ run.1 = Raise TypeError
               \/ run.1 = Raise (TokenInvalidError InvalidSignature)
               \/ run.1 = Raise ValueError \/ run.1 = Raise TokenExpiredError))
          \/ run = (Raise TokenReplayError, _evict_expired_nonces t_evict self)
          \/ exists peer_id,
               run = (Ok peer_id,
                      set_nonce_store (insert n (t_store + inject_Z NONCE_STORE_TTL)%Q)
                        (_evict_expired_nonces t_evict self)))).
Proof.
  cbv zeta.
  destruct (String.eqb_spec v TOKEN_VERSION) as [->|Hv];
    [right; split; [reflexivity|]
    |left; split; [exact Hv|apply verify_fields_version; exact Hv]].
  destruct (_b64dec p) as [pid|] eqn:Hdec;
    [|rewrite verify_fields_undecodable by assumption; left; split; [reflexivity|];
      left; reflexivity].
  rewrite (verify_fields_unfold _ _ _ _ _ _ _ _ _ Hdec).
  destruct (compare_digest _ g) as [[|]|e] eqn:Hcmp.
  - destruct (py_int i) as [issued_at|];
      [|left; split; [reflexivity|]; do 3 right; left; reflexivity].
    destruct (expired _ _ _);
      [left; split; [reflexivity|]; do 4 right; reflexivity|].
    cbv zeta. destruct (decide _).
    + right; left; reflexivity.
    + right; right. exists pid. reflexivity.
  - left; split; [reflexivity|]. do 2 right; left; reflexivity.
  - left; split; [reflexivity|]. right; left.
    unfold compare_digest in Hcmp. destruct (_ && _); [discriminate|].
    injection Hcmp as <-. reflexivity.
Qed.

(** X1. [verify_pairing_token] refuses a token as malformed exactly when the
    token does not hold four colons; the instance is then unchanged. *)
Theorem malformed_iff_colon_count
    (t_age t_evict t_store : Q) (token : string) (self : IdentityManager) :
  let run := verify_pairing_token t_age t_evict t_store token self in
  (count_char ":" token <> 4 -> run = (Raise (TokenInvalidError Malformed), self))
  /\ (count_char ":" token = 4 -> run.1 <> Raise (TokenInvalidError Malformed)).
Proof.
  cbv zeta. pose proof (length_split_on ":" token) as Hlen.
  unfold verify_pairing_token.
  destruct (split_on ":" token) as [|v [|p [|i [|n [|g [|x rest]]]]]];
    cbn [length] in Hlen;
    try (split; [reflexivity|intros E; rewrite E in Hlen; discriminate]).
  split; [intros Hne; exfalso; apply Hne; lia|]. intros _.
  destruct (verify_fields_cases t_age t_evict t_store v p i n g self)
    as [[_ E]|[_ [[_ E]|[E|[pid E]]]]].
  - rewrite E. discriminate.
  - intros E'. rewrite E' in E. intuition discriminate.
  - rewrite E. discriminate.
  - rewrite E. discriminate.
Qed.

(** X2. The call raises "Unsupported token version" exactly when the token
    has five fields and the first is not "1": whether the peer field decodes
    and what the signature is plays no part. *)
Theorem unsupported_version_iff
    (t_age t_evict t_store : Q) (token : string) (self : IdentityManager) :
  (verify_pairing_token t_age t_evict t_store token self).1
  = Raise (TokenInvalidError UnsupportedVersion)
  <-> exists v p i n g, split_on ":" token = [v; p; i; n; g] /\ v <> TOKEN_VERSION.
Proof.
  unfold verify_pairing_token.
  destruct (split_on ":" token) as [|v [|p [|i [|n [|g [|x rest]]]]]];
    try (split; [discriminate|intros (? & ? & ? & ? & ? & [=] & _)]).
  destruct (verify_fields_cases t_age t_evict t_store v p i n g self)
    as [[Hv E]|[Hv Hrest]].
  - rewrite E. split; [intros _|reflexivity]. exists v, p, i, n, g. split; [reflexivity|exact Hv].
  - split.
    + intros E'. exfalso. destruct Hrest as [[_ E]|[E|[pid E]]].
      * rewrite E' in E. intuition discriminate.
      * rewrite E in E'. discriminate.
      * rewrite E in E'. discriminate.
    + intros (v' & ? & ? & ? & ? & [= <- _ _ _ _] & Hne). contradiction.
Qed.

Lemma evict_subseteq now self :
  _nonce_store (_evict_expired_nonces now self) ⊆ _nonce_store self.
Proof.
  unfold _evict_expired_nonces, set_nonce_store. cbn [_nonce_store].
  apply map_filter_subseteq.
Qed.

(** What no call of [verify_pairing_token] changes. *)
Lemma verify_pairing_token_frame t_age t_evict t_store token self :
  let run := verify_pairing_token t_age t_evict t_store token self in
  _signing_key run.2 = _signing_key self
  /\ _token_ttl run.2 = _token_ttl self
  /\ _allowlist run.2 = _allowlist self.
Proof.
  cbv zeta. unfold verify_pairing_token.
  destruct (split_on ":" token) as [|v [|p [|i [|n [|g [|x rest]]]]]];
    try (repeat split; reflexivity).
  destruct (verify_fields_cases t_age t_evict t_store v p i n g self)
    as [[_ E]|[_ [[E _]|[E|[pid E]]]]]; rewrite E; repeat split; reflexivity.
Qed.

(** X3. No call of [verify_pairing_token] changes the signing key, the TTL or
    the allowlist. A call that raises leaves the instance as it was, except
    that a replay refusal has evicted the expired ledger entries: a refused
    token never adds to the ledger. *)
Theorem refused_token_adds_nothing
    (t_age t_evict t_store : Q) (token : string) (self : IdentityManager) :
  let run := verify_pairing_token t_age t_evict t_store token self in
  _signing_key run.2 = _signing_key self
  /\ _token_ttl run.2 = _token_ttl self
  /\ _allowlist run.2 = _allowlist self
  /\ (forall e, run.1 = Raise e ->
        (e <> TokenReplayError -> run.2 = self)
        /\ (e = TokenReplayError -> run.2 = _evict_expired_nonces t_evict self)
        /\ _nonce_store run.2 ⊆ _nonce_store self).
Proof.
  cbv zeta.
  destruct (verify_pairing_token_frame t_age t_evict t_store token self) as (Hk & Ht & Ha).
  split; [exact Hk|]. split; [exact Ht|]. split; [exact Ha|]. clear Hk Ht Ha.
  unfold verify_pairing_token.
  destruct (split_on ":" token) as [|v [|p [|i [|n [|g [|x rest]]]]]];
    try (cbn [raise fst snd]; intros e [= <-];
         split; [reflexivity|split; [discriminate|reflexivity]]).
  destruct (verify_fields_cases t_age t_evict t_store v p i n g self)
    as [[_ E]|[_ [[E1 E2]|[E|[pid E]]]]].
  - rewrite E. cbn [fst snd]. intros e [= <-].
    split; [reflexivity|split; [discriminate|reflexivity]].
  - rewrite E1. intros e He. split; [reflexivity|]. split; [|reflexivity].
    intros ->. rewrite He in E2. intuition discriminate.
  - rewrite E. cbn [fst snd]. intros e [= <-].
    split; [intros Hne; congruence|]. split; [reflexivity|apply evict_subseteq].
  - rewrite E. cbn [fst snd]. intros e [=].
Qed.

End Tokens.


Section Issued.
Context `{IdentityLib}.

(** Library facts, as in the section on issuing above. *)
Hypothesis hexdigest_is_hex :
  forall key message, all_chars is_hex_char (hmac_sha256_hexdigest key message) = true.
Hypothesis b64encode_alphabet :
  forall s, all_chars is_b64url_char (urlsafe_b64encode s) = true.
Hypothesis b64encode_length :
  forall s, String.length (urlsafe_b64encode s) mod 4 = 0.
Hypothesis b64encode_padding :
  forall s, String.length (urlsafe_b64encode s)
            - String.length (rstrip "=" (urlsafe_b64encode s)) <= 2.
Hypothesis b64decode_encode :
  forall s, urlsafe_b64decode (urlsafe_b64encode s) = Some s.
Hypothesis int_of_str : forall z, py_int (py_str z) = Some z.
Hypothesis str_is_decimal : forall z, all_chars is_decimal_char (py_str z) = true.

(** X4. [_b64dec] inverts [_b64enc]: the padding [_b64enc] strips is the
    padding [_b64dec] puts back. The encoded text holds no colon, so it is one
    field of a token. *)
Theorem b64_helpers_round_trip (s : string) :
  _b64dec (_b64enc s) = Some s /\ occurs ":" (_b64enc s) = false.
Proof.
  split.
  - exact (_b64dec_b64enc b64encode_length b64encode_padding b64decode_encode s).
  - exact (_b64enc_no_colon b64encode_alphabet s).
Qed.

(** X5. The token [create_pairing_token] returns has four colons and the
    fields: "1"; a peer field that decodes to the peer id; an issue time that
    [int] reads as the clock truncated to seconds; a nonce of 32 hex digits
    made of 16 bytes of entropy; the HMAC of the four under the instance's
    key. The call draws those 16 bytes and writes no file. *)
Theorem issued_token_format
    (self : IdentityManager) (now : Q) (peer_id : string) (w : world) :
  let token := (create_pairing_token self now peer_id w).1 in
  let w' := (create_pairing_token self now peer_id w).2 in
  exists p i n,
    split_on ":" token
    = [TOKEN_VERSION; p; i; n; _sign self (_make_payload TOKEN_VERSION peer_id i n)]
    /\ count_char ":" token = 4
    /\ _b64dec p = Some peer_id
    /\ py_int i = Some (int_of_float now)
    /\ n = hex_of_bytes (peek_bytes 16 w)
    /\ String.length n = 32
    /\ all_chars is_hex_char n = true
    /\ files w' = files w
    /\ entropy w' = entropy w
    /\ drawn w' = drawn w + 16.
Proof.
  cbv zeta.
  pose proof (created_token_fields hexdigest_is_hex b64encode_alphabet str_is_decimal
                self now peer_id w) as Hsplit.
  exists (_b64enc peer_id), (py_str (int_of_float now)), (hex_of_bytes (peek_bytes 16 w)).
  split; [exact Hsplit|].
  split.
  { pose proof (length_split_on ":" (create_pairing_token self now peer_id w).1) as Hlen.
    rewrite Hsplit in Hlen. cbn [length] in Hlen. lia. }
  split; [exact (_b64dec_b64enc b64encode_length b64encode_padding b64decode_encode peer_id)|].
  split; [apply int_of_str|]. split; [reflexivity|].
  split.
  { rewrite length_hex_of_bytes. unfold peek_bytes. rewrite length_map, length_seq.
    reflexivity. }
  split; [apply hex_of_bytes_is_hex|].
  repeat split.
Qed.

(** X6. A token an instance issued is refused by an instance holding the same
    key only as expired or as replayed, never as invalid: the result is
    [TokenExpiredError] when the age is outside the TTL, else
    [TokenReplayError] when the nonce has a live ledger entry, else the peer
    id the token was issued for. *)
Theorem issued_token_outcomes
    (self self' : IdentityManager) (now : Q) (peer_id : string) (w : world)
    (t_age t_evict t_store : Q) :
  _signing_key self' = _signing_key self ->
  let token := (create_pairing_token self now peer_id w).1 in
  let nonce := hex_of_bytes (peek_bytes 16 w) in
  (verify_pairing_token t_age t_evict t_store token self').1 =
  if expired (_token_ttl self') t_age (int_of_float now) then Raise TokenExpiredError
  else if decide (is_Some (_nonce_store (_evict_expired_nonces t_evict self') !! nonce))
       then Raise TokenReplayError
       else Ok peer_id.
Proof.
  intros Hkey. cbv zeta. unfold verify_pairing_token.
  rewrite (created_token_fields hexdigest_is_hex b64encode_alphabet str_is_decimal).
  rewrite (verify_fields_unfold _ _ _ _ _ _ _ _ _
             (_b64dec_b64enc b64encode_length b64encode_padding b64decode_encode peer_id)).
  replace (_sign self) with (_sign self') by (unfold _sign; rewrite Hkey; reflexivity).
  rewrite (compare_digest_sign_same hexdigest_is_hex), int_of_str.
  destruct (expired _ _ _); [reflexivity|]. cbv zeta.
  destruct (decide _); reflexivity.
Qed.

(** X7. Rotating the signing key invalidates the tokens issued before: when
    the HMAC of the token's fields under the fresh key is not the one under
    the old key, the token is refused with "Token signature is invalid",
    whatever the clock and the ledger. *)
Theorem rotated_key_refuses_old_tokens
    (self : IdentityManager) (now : Q) (peer_id : string) (w0 w : world)
    (t_age t_evict t_store : Q) :
  let token := (create_pairing_token self now peer_id w0).1 in
  let self' := (rotate_signing_key self w).1 in
  let payload := _make_payload TOKEN_VERSION peer_id (py_str (int_of_float now))
                   (hex_of_bytes (peek_bytes 16 w0)) in
  sign_with (peek_bytes SIGNING_KEY_BYTES w) payload <> sign_with (_signing_key self) payload ->
  verify_pairing_token t_age t_evict t_store token self'
  = (Raise (TokenInvalidError InvalidSignature), self').
Proof.
  cbv zeta. intros Hne. unfold verify_pairing_token.
  rewrite (created_token_fields hexdigest_is_hex b64encode_alphabet str_is_decimal).
  rewrite (verify_fields_unfold _ _ _ _ _ _ _ _ _
             (_b64dec_b64enc b64encode_length b64encode_padding b64decode_encode peer_id)).
  rewrite (compare_digest_sign hexdigest_is_hex)
    by (apply hex_is_ascii, hexdigest_is_hex).
  match goal with |- context [String.eqb ?a ?b] =>
    destruct (String.eqb_spec a b) as [E|_] end; [|reflexivity].
  exfalso. apply Hne. exact E.
Qed.

End Issued.

Section Escapes.
Context `{IdentityLib}.

Hypothesis hexdigest_is_hex :
  forall key message, all_chars is_hex_char (hmac_sha256_hexdigest key message) = true.

(** X8. A token whose signature verifies but whose issue-time field [int]
    does not read makes the call raise [ValueError], which is none of the
    three documented exceptions; the instance is unchanged. *)
Theorem unreadable_issue_time_escapes
    (t_age t_evict t_store : Q) (token p i n peer_id : string) (self : IdentityManager) :
  split_on ":" token
  = [TOKEN_VERSION; p; i; n; _sign self (_make_payload TOKEN_VERSION peer_id i n)] ->
  _b64dec p = Some peer_id ->
  py_int i = None ->
  verify_pairing_token t_age t_evict t_store token self = (Raise ValueError, self)
  /\ (forall why, ValueError <> TokenInvalidError why)
  /\ ValueError <> TokenExpiredError
  /\ ValueError <> TokenReplayError.
Proof.
  intros Hsplit Hdec Hint. unfold verify_pairing_token. rewrite Hsplit.
  rewrite (verify_fields_unfold _ _ _ _ _ _ _ _ _ Hdec).
  rewrite (compare_digest_sign_same hexdigest_is_hex), Hint.
  repeat split; intros; discriminate.
Qed.

End Escapes.

Section Persistence.
Context `{IdentityLib}.

(** What [__init__] leaves besides the key and the allowlist. *)
Lemma _load_allowlist_frame self w :
  _token_ttl (_load_allowlist self w) = _token_ttl self
  /\ _nonce_store (_load_allowlist self w) = _nonce_store self.
Proof.
  unfold _load_allowlist.
  destruct (files w !! _allowlist_path); [|split; reflexivity].
  destruct (json_loads _) as [[data|]|]; try (split; reflexivity).
  destruct (verified_entries _ _); split; reflexivity.
Qed.

Lemma __init___reuses token_ttl w raw :
  files w !! key_file = Some raw -> length raw = SIGNING_KEY_BYTES ->
  __init__ token_ttl w = (_load_allowlist (Build token_ttl raw ∅ ∅) w, w).
Proof.
  intros Hfile Hlen. unfold __init__, _load_or_create_signing_key. rewrite Hfile.
  destruct (decide _) as [_|?]; [reflexivity|contradiction].
Qed.

Lemma __init___fresh token_ttl w :
  (forall raw, files w !! key_file = Some raw -> length raw <> SIGNING_KEY_BYTES) ->
  let fresh := peek_bytes SIGNING_KEY_BYTES w in
  let w' := _save_signing_key fresh (token_bytes SIGNING_KEY_BYTES w).2 in
  __init__ token_ttl w = (_load_allowlist (Build token_ttl fresh ∅ ∅) w', w').
Proof.
  intros Hfile. cbv zeta. unfold __init__, _load_or_create_signing_key.
  destruct (files w !! key_file) as [raw|]; [|reflexivity].
  destruct (decide _) as [Hlen|_]; [|reflexivity].
  exfalso. exact (Hfile raw eq_refl Hlen).
Qed.

Lemma length_peek_key w : length (peek_bytes SIGNING_KEY_BYTES w) = SIGNING_KEY_BYTES.
Proof. unfold peek_bytes. rewrite length_map, length_seq. reflexivity. Qed.

Lemma __init___cases token_ttl w :
  (exists raw,
     files w !! key_file = Some raw /\ length raw = SIGNING_KEY_BYTES
     /\ __init__ token_ttl w = (_load_allowlist (Build token_ttl raw ∅ ∅) w, w))
  \/ ((forall raw, files w !! key_file = Some raw -> length raw <> SIGNING_KEY_BYTES)
      /\ let fresh := peek_bytes SIGNING_KEY_BYTES w in
         let w' := _save_signing_key fresh (token_bytes SIGNING_KEY_BYTES w).2 in
         __init__ token_ttl w = (_load_allowlist (Build token_ttl fresh ∅ ∅) w', w')).
Proof.
  destruct (files w !! key_file) as [raw|] eqn:Hfile.
  - destruct (decide (length raw = SIGNING_KEY_BYTES)) as [Hlen|Hlen].
    + left. exists raw. split; [reflexivity|]. split; [exact Hlen|].
      apply __init___reuses; assumption.
    + right. split; [intros ? [= <-]; exact Hlen|].
      apply __init___fresh. rewrite Hfile. intros ? [= <-]. exact Hlen.
  - right. split; [discriminate|]. apply __init___fresh. rewrite Hfile. discriminate.
Qed.

(** The state [__init__] leaves. *)
Lemma __init___state token_ttl w :
  let run := __init__ token_ttl w in
  key_on_disk run.1 run.2 /\ _nonce_store run.1 = ∅ /\ _token_ttl run.1 = token_ttl.
Proof.
  cbv zeta. unfold key_on_disk.
  destruct (__init___cases token_ttl w) as [(raw & Hfile & Hlen & ->)|[_ E]];
    [|cbv zeta in E; rewrite E]; cbn [fst snd].
  - destruct (_load_allowlist_frame (Build token_ttl raw ∅ ∅) w) as [Httl Hstore].
    rewrite _load_allowlist_key, Httl, Hstore, Hfile.
    cbn [_signing_key]. repeat split; try reflexivity; exact Hlen.
  - set (fresh := peek_bytes SIGNING_KEY_BYTES w).
    destruct (_load_allowlist_frame (Build token_ttl fresh ∅ ∅)
                (_save_signing_key fresh (token_bytes SIGNING_KEY_BYTES w).2))
      as [Httl Hstore].
    rewrite _load_allowlist_key, Httl, Hstore.
    cbn [_signing_key _save_signing_key set_files files].
    rewrite lookup_insert_eq.
    split; [split; [reflexivity|apply length_peek_key]|]. split; reflexivity.
Qed.

(** X9. [__init__] on any disk leaves an instance whose key is the content of
    the key file, 32 bytes long, with an empty ledger and the given TTL. A key
    file of 32 bytes is used as it is: nothing is written and no entropy is
    drawn. Without a key file, 32 bytes are drawn, used as the key and
    written to the key file, and no other file changes. *)
Theorem init_key_file_cases (token_ttl : Z) (w : world) :
  let run := __init__ token_ttl w in
  key_on_disk run.1 run.2
  /\ _nonce_store run.1 = ∅
  /\ _token_ttl run.1 = token_ttl
  /\ match files w !! key_file with
     | Some raw =>
         length raw = SIGNING_KEY_BYTES -> run.2 = w /\ _signing_key run.1 = raw
     | None =>
         _signing_key run.1 = peek_bytes SIGNING_KEY_BYTES w
         /\ files run.2 = <[key_file := peek_bytes SIGNING_KEY_BYTES w]> (files w)
         /\ drawn run.2 = drawn w + SIGNING_KEY_BYTES
     end.
Proof.
  cbv zeta.
  destruct (__init___state token_ttl w) as (Hkey & Hstore & Httl).
  split; [exact Hkey|]. split; [exact Hstore|]. split; [exact Httl|]. clear.
  destruct (files w !! key_file) as [raw|] eqn:Hfile.
  - intros Hlen. rewrite (__init___reuses _ _ _ Hfile Hlen). cbn [fst snd].
    split; [reflexivity|apply _load_allowlist_key].
  - rewrite (__init___fresh token_ttl w) by (rewrite Hfile; discriminate).
    cbn [fst snd]. rewrite _load_allowlist_key. repeat split.
Qed.

(** The comprehension of [_load_allowlist] raises when it meets a value that
    is no ASCII string. *)
Lemma verified_entries_raises key items pid v :
  (pid, v) ∈ items ->
  (v = JOther \/ exists sig, v = JStr sig /\ is_ascii sig = false) ->
  exists e, verified_entries key items = Raise e.
Proof.
  intros Hin Hbad. induction items as [|[pid' v'] rest IH]; [inversion Hin|].
  cbn [verified_entries].
  destruct v' as [sig'|]; [|eexists; reflexivity].
  destruct (compare_digest _ sig') as [b|e] eqn:Hcmp; [|eexists; reflexivity].
  apply elem_of_cons in Hin as [[= -> ->]|Hin].
  - exfalso. destruct Hbad as [[=]|(sig & [= <-] & Hascii)].
    unfold compare_digest in Hcmp. rewrite Hascii, andb_false_r in Hcmp. discriminate.
  - destruct (IH Hin) as [e ->]. eexists; reflexivity.
Qed.

(** X10. One entry of the allowlist file whose value is not a string, or is a
    string with a character outside ASCII, empties the whole allowlist of the
    instance constructed on that disk: [hmac.compare_digest] raises on it,
    and the handler of [_load_allowlist] drops every entry, the correctly
    signed ones included. *)
Theorem malformed_entry_empties_allowlist
    (token_ttl : Z) (w : world) (raw : bytes) (data : gmap string jvalue)
    (pid : string) (v : jvalue) :
  files w !! _allowlist_path = Some raw ->
  json_loads raw = Some (JDict data) ->
  data !! pid = Some v ->
  (v = JOther \/ exists sig, v = JStr sig /\ is_ascii sig = false) ->
  _allowlist (__init__ token_ttl w).1 = ∅
  /\ forall q, is_peer_allowed (__init__ token_ttl w).1 q = Ok false.
Proof.
  intros Hfile Hjson Hentry Hbad.
  assert (Hempty : _allowlist (__init__ token_ttl w).1 = ∅).
  { unfold __init__.
    pose proof (_load_or_create_signing_key_allowlist_file w) as Hsame.
    destruct (_load_or_create_signing_key w) as [key w']. cbn [fst snd] in *.
    unfold _load_allowlist. rewrite Hsame, Hfile, Hjson. cbn [_signing_key].
    destruct (verified_entries_raises key (map_to_list data) pid v) as [e ->];
      [apply elem_of_map_to_list; exact Hentry|exact Hbad|reflexivity]. }
  split; [exact Hempty|].
  intros q. unfold is_peer_allowed. rewrite Hempty, lookup_empty. reflexivity.
Qed.

(** Library facts: [hexdigest()] is hex, and [json.loads] reads back the
    dictionary of strings [json.dumps] wrote. *)
Hypothesis hexdigest_is_hex :
  forall key message, all_chars is_hex_char (hmac_sha256_hexdigest key message) = true.
Hypothesis json_round_trip :
  forall d, json_loads (json_dumps d) = Some (JDict (JStr <$> d)).

Lemma compare_digest_sign_with key message :
  compare_digest (sign_with key message) (sign_with key message) = Ok true.
Proof.
  exact (compare_digest_sign_same hexdigest_is_hex (Build 0 key ∅ ∅) message).
Qed.

(** The comprehension keeps every entry when each carries the signature the
    key gives. *)
Lemma verified_entries_all_valid key items :
  (forall pid v, (pid, v) ∈ items -> v = JStr (sign_with key ("allow:" +:+ pid))) ->
  exists m,
    verified_entries key items = Ok m
    /\ forall pid, m !! pid = if decide (pid ∈ items.*1)
                              then Some (sign_with key ("allow:" +:+ pid)) else None.
Proof.
  induction items as [|[pid' v'] rest IH]; intros Hvalid.
  - exists ∅. split; [reflexivity|]. intros pid. rewrite lookup_empty.
    destruct (decide _) as [Hin|_]; [inversion Hin|reflexivity].
  - destruct IH as (m & Hm & Hlook).
    { intros pid v Hin. apply Hvalid. right. exact Hin. }
    cbn [verified_entries].
    rewrite (Hvalid pid' v' ltac:(left)), compare_digest_sign_with, Hm.
    eexists. split; [reflexivity|]. intros pid. cbn [fmap list_fmap fst].
    destruct (decide (pid' = pid)) as [->|Hne].
    + rewrite lookup_insert_eq, decide_True by left. reflexivity.
    + rewrite lookup_insert_ne, Hlook by exact Hne.
      destruct (decide (pid ∈ rest.*1)) as [Hin|Hout].
      * rewrite decide_True by (right; exact Hin). reflexivity.
      * rewrite decide_False; [reflexivity|].
        intros [E|Hin]%elem_of_cons; [congruence|contradiction].
Qed.

Lemma _load_allowlist_restores token_ttl self w :
  allowlist_valid self -> allowlist_on_disk self w ->
  _load_allowlist (Build token_ttl (_signing_key self) ∅ ∅) w
  = Build token_ttl (_signing_key self) ∅ (_allowlist self).
Proof.
  intros Hvalid Hdisk. unfold _load_allowlist. rewrite Hdisk, json_round_trip.
  cbn [_signing_key].
  destruct (verified_entries_all_valid (_signing_key self)
              (map_to_list (JStr <$> _allowlist self))) as (m & -> & Hlook).
  { intros pid v Hin. apply elem_of_map_to_list in Hin.
    rewrite lookup_fmap in Hin.
    destruct (_allowlist self !! pid) as [sig|] eqn:Hsig; [|discriminate].
    injection Hin as <-. rewrite (Hvalid _ _ Hsig). reflexivity. }
  unfold set_allowlist. cbn [_token_ttl _signing_key _nonce_store]. f_equal.
  apply map_eq. intros pid. rewrite Hlook.
  destruct (_allowlist self !! pid) as [sig|] eqn:Hsig.
  - rewrite decide_True.
    + rewrite (Hvalid _ _ Hsig). reflexivity.
    + apply list_elem_of_fmap. exists (pid, JStr sig). split; [reflexivity|].
      apply elem_of_map_to_list. rewrite lookup_fmap, Hsig. reflexivity.
  - rewrite decide_False; [reflexivity|].
    intros ([pid' v] & -> & Hin)%list_elem_of_fmap.
    apply elem_of_map_to_list in Hin. cbn [fst] in Hsig.
    rewrite lookup_fmap, Hsig in Hin. discriminate.
Qed.

(** A new instance on a disk that holds the key and the allowlist of [self]
    has the key and the allowlist of [self], and an empty ledger. *)
Lemma __init___restores token_ttl self w :
  key_on_disk self w -> allowlist_valid self -> allowlist_on_disk self w ->
  __init__ token_ttl w = (Build token_ttl (_signing_key self) ∅ (_allowlist self), w).
Proof.
  intros [Hfile Hlen] Hvalid Hdisk.
  rewrite (__init___reuses _ _ _ Hfile Hlen), (_load_allowlist_restores _ _ _ Hvalid Hdisk).
  reflexivity.
Qed.

Lemma is_peer_allowed_ext self self' q :
  _signing_key self' = _signing_key self -> _allowlist self' = _allowlist self ->
  is_peer_allowed self' q = is_peer_allowed self q.
Proof.
  intros Hkey Hlist. unfold is_peer_allowed, _sign. rewrite Hkey, Hlist. reflexivity.
Qed.

(** X11. [allow_peer] persists: the peer is allowed on the instance, and an
    instance constructed afterwards on the same disk reads the same key and
    the same allowlist, so that it answers [is_peer_allowed] alike for every
    peer, with [True] for the added one. Constructing it changes nothing on
    disk. *)
Theorem allow_peer_survives_restart
    (peer_id : string) (self : IdentityManager) (w : world) (token_ttl : Z) :
  key_on_disk self w -> allowlist_valid self ->
  let self' := (allow_peer peer_id self w).1 in
  let w' := (allow_peer peer_id self w).2 in
  let again := __init__ token_ttl w' in
  is_peer_allowed self' peer_id = Ok true
  /\ again.2 = w'
  /\ _signing_key again.1 = _signing_key self
  /\ _allowlist again.1 = <[peer_id := _sign self ("allow:" +:+ peer_id)]> (_allowlist self)
  /\ is_peer_allowed again.1 peer_id = Ok true
  /\ forall q, is_peer_allowed again.1 q = is_peer_allowed self' q.
Proof.
  intros Hkey Hvalid. cbv zeta.
  pose proof (allow_peer_allowed hexdigest_is_hex peer_id self w) as Hallowed.
  assert (Hinit : __init__ token_ttl (allow_peer peer_id self w).2
                  = (Build token_ttl (_signing_key self) ∅
                       (_allowlist (allow_peer peer_id self w).1),
                     (allow_peer peer_id self w).2)).
  { apply (__init___restores token_ttl (allow_peer peer_id self w).1).
    - destruct Hkey as [Hfile Hlen]. split; [|exact Hlen].
      unfold allow_peer, _save_allowlist, set_files.
      cbn [fst snd files set_allowlist _signing_key].
      rewrite lookup_insert_ne by discriminate. exact Hfile.
    - apply allow_peer_valid. exact Hvalid.
    - apply lookup_insert_eq. }
  rewrite Hinit. cbn [fst snd _signing_key _allowlist].
  split; [exact Hallowed|]. split; [reflexivity|]. split; [reflexivity|].
  split; [reflexivity|].
  assert (Hext : forall q,
            is_peer_allowed
              (Build token_ttl (_signing_key self) ∅ (_allowlist (allow_peer peer_id self w).1)) q
            = is_peer_allowed (allow_peer peer_id self w).1 q)
    by (intros q; apply is_peer_allowed_ext; reflexivity).
  split; [rewrite Hext; exact Hallowed|exact Hext].
Qed.

(** X12. [revoke_peer] of a peer that is not in the allowlist raises
    [KeyError] and changes neither the instance nor the disk. Otherwise the
    peer is removed, on the instance and for an instance constructed
    afterwards on the same disk: both answer [False] for it, and as before
    for every other peer. *)
Theorem revoke_peer_survives_restart
    (peer_id : string) (self : IdentityManager) (w : world) (token_ttl : Z) :
  key_on_disk self w -> allowlist_valid self ->
  match _allowlist self !! peer_id with
  | None => revoke_peer peer_id self w = (Raise KeyError, (self, w))
  | Some _ =>
      exists self' w',
        revoke_peer peer_id self w = (Ok tt, (self', w'))
        /\ is_peer_allowed self' peer_id = Ok false
        /\ let again := __init__ token_ttl w' in
           again.2 = w'
           /\ _allowlist again.1 = delete peer_id (_allowlist self)
           /\ is_peer_allowed again.1 peer_id = Ok false
           /\ forall q, q <> peer_id -> is_peer_allowed again.1 q = is_peer_allowed self q
  end.
Proof.
  intros Hkey Hvalid.
  destruct (_allowlist self !! peer_id) as [sig|] eqn:Hlook;
    [|unfold revoke_peer; rewrite Hlook; reflexivity].
  set (self' := set_allowlist (delete peer_id (_allowlist self)) self).
  exists self', (_save_allowlist self' w).
  assert (Hrun : revoke_peer peer_id self w = (Ok tt, (self', _save_allowlist self' w)))
    by (unfold revoke_peer; rewrite Hlook; reflexivity).
  destruct (revoke_peer_denied _ _ _ _ _ Hrun) as [Hdenied Hvalid'].
  split; [exact Hrun|]. split; [exact Hdenied|]. cbv zeta.
  rewrite (__init___restores token_ttl self').
  - cbn [fst snd _allowlist].
    split; [reflexivity|]. split; [reflexivity|].
    assert (Hext : forall q,
              is_peer_allowed (Build token_ttl (_signing_key self') ∅ (_allowlist self')) q
              = is_peer_allowed self' q)
      by (intros q; apply is_peer_allowed_ext; reflexivity).
    split; [rewrite Hext; exact Hdenied|].
    intros q Hq. rewrite Hext. unfold is_peer_allowed, self'.
    cbn [set_allowlist _allowlist]. rewrite lookup_delete_ne by congruence. reflexivity.
  - destruct Hkey as [Hfile Hlen]. split; [|exact Hlen].
    unfold _save_allowlist, set_files. cbn [files].
    rewrite lookup_insert_ne by discriminate. exact Hfile.
  - exact (Hvalid' Hvalid).
  - apply lookup_insert_eq.
Qed.

(** X13. [rotate_signing_key] draws 32 bytes as the new key, writes them to
    the key file and signs every allowlist entry again: the ledger and the
    TTL are unchanged, exactly the peers in the allowlist before are allowed
    after, and an instance constructed afterwards on the same disk reads the
    new key and the same allowlist. *)
Theorem rotate_signing_key_keeps_peers
    (self : IdentityManager) (w : world) (token_ttl : Z) :
  let self' := (rotate_signing_key self w).1 in
  let w' := (rotate_signing_key self w).2 in
  let again := __init__ token_ttl w' in
  _signing_key self' = peek_bytes SIGNING_KEY_BYTES w
  /\ key_on_disk self' w'
  /\ _nonce_store self' = _nonce_store self
  /\ _token_ttl self' = _token_ttl self
  /\ (forall p, is_peer_allowed self' p
                = Ok (bool_decide (is_Some (_allowlist self !! p))))
  /\ again.2 = w'
  /\ _signing_key again.1 = _signing_key self'
  /\ _allowlist again.1 = _allowlist self'
  /\ (forall p, is_peer_allowed again.1 p
                = Ok (bool_decide (is_Some (_allowlist self !! p)))).
Proof.
  cbv zeta.
  pose proof (rotate_signing_key_valid self w) as Hvalid.
  assert (Hkey : key_on_disk (rotate_signing_key self w).1 (rotate_signing_key self w).2).
  { unfold key_on_disk, rotate_signing_key, token_bytes, _save_allowlist,
      _save_signing_key, set_files.
    cbn [fst snd files set_allowlist set_signing_key _signing_key].
    split; [|apply length_peek_key].
    rewrite lookup_insert_ne by discriminate. apply lookup_insert_eq. }
  assert (Hdisk : allowlist_on_disk (rotate_signing_key self w).1 (rotate_signing_key self w).2)
    by apply lookup_insert_eq.
  assert (Hallowed : forall p, is_peer_allowed (rotate_signing_key self w).1 p
                               = Ok (bool_decide (is_Some (_allowlist self !! p)))).
  { intros p. rewrite (is_peer_allowed_valid hexdigest_is_hex _ _ Hvalid).
    unfold rotate_signing_key, token_bytes.
    cbn [fst set_allowlist set_signing_key _allowlist].
    rewrite map_lookup_imap. destruct (_allowlist self !! p); reflexivity. }
  rewrite (__init___restores token_ttl _ _ Hkey Hvalid Hdisk). cbn [fst snd _signing_key _allowlist].
  split; [reflexivity|]. split; [exact Hkey|]. split; [reflexivity|].
  split; [reflexivity|]. split; [exact Hallowed|]. split; [reflexivity|].
  split; [reflexivity|]. split; [reflexivity|].
  intros p. rewrite <- Hallowed. apply is_peer_allowed_ext; reflexivity.
Qed.

(** The allowlist of a valid instance, as the three queries see it. *)
Lemma allowed_among_keys self ps :
  allowlist_valid self ->
  (forall p, p ∈ ps -> is_Some (_allowlist self !! p)) ->
  allowed_among self ps = Ok ps.
Proof.
  intros Hvalid. induction ps as [|p ps IH]; intros Hin; [reflexivity|].
  cbn [allowed_among].
  rewrite (is_peer_allowed_valid hexdigest_is_hex _ _ Hvalid), IH
    by (intros q Hq; apply Hin; right; exact Hq).
  rewrite bool_decide_eq_true_2 by (apply Hin; left). reflexivity.
Qed.

(** X14. On an instance whose entries all carry the signature of the current
    key, the three queries agree with membership in the allowlist and none
    raises: [is_peer_allowed] is the membership test, [assert_peer_allowed]
    raises [PeerNotAllowedError] exactly for the others, and
    [list_allowed_peers] returns every key once. *)
Theorem allowlist_queries_agree (self : IdentityManager) :
  allowlist_valid self ->
  (forall p, is_peer_allowed self p = Ok (bool_decide (is_Some (_allowlist self !! p))))
  /\ (forall p, assert_peer_allowed self p
                = if bool_decide (is_Some (_allowlist self !! p))
                  then Ok tt else Raise PeerNotAllowedError)
  /\ exists l,
       list_allowed_peers self = Ok l
       /\ NoDup l
       /\ forall p, p ∈ l <-> is_Some (_allowlist self !! p).
Proof.
  intros Hvalid.
  split; [intros p; apply (is_peer_allowed_valid hexdigest_is_hex); exact Hvalid|].
  split.
  - intros p. unfold assert_peer_allowed.
    rewrite (is_peer_allowed_valid hexdigest_is_hex _ _ Hvalid).
    destruct (bool_decide _); reflexivity.
  - exists (map fst (map_to_list (_allowlist self))).
    assert (Hkeys : forall p, p ∈ map fst (map_to_list (_allowlist self))
                              <-> is_Some (_allowlist self !! p)).
    { intros p. rewrite list_elem_of_fmap. split.
      - intros ([q sig] & -> & Hin). apply elem_of_map_to_list in Hin.
        exists sig. exact Hin.
      - intros [sig Hsig]. exists (p, sig). split; [reflexivity|].
        apply elem_of_map_to_list. exact Hsig. }
    split; [|split; [apply NoDup_fst_map_to_list|exact Hkeys]].
    unfold list_allowed_peers. apply allowed_among_keys; [exact Hvalid|].
    intros p. apply Hkeys.
Qed.

End Persistence.

Section Lifecycle.
Context `{IdentityLib}.

(** X15. Replay protection ends with the instance. A token accepted by an
    instance is accepted once more by an instance constructed afterwards on
    the same disk, while it has not expired: the new instance reads the same
    key from the key file and starts with an empty ledger. *)
Theorem restart_forgets_ledger
    (self self1 : IdentityManager) (w : world) (token peer_id : string)
    (a_age a_evict a_store b_age b_evict b_store : Q)
    (v p i n g : string) (issued_at : Z) :
  key_on_disk self w ->
  verify_pairing_token a_age a_evict a_store token self = (Ok peer_id, self1) ->
  split_on ":" token = [v; p; i; n; g] ->
  py_int i = Some issued_at ->
  expired (_token_ttl self) b_age issued_at = false ->
  let again := (__init__ (_token_ttl self) w).1 in
  _nonce_store self1 !! n = Some (a_store + inject_Z NONCE_STORE_TTL)%Q
  /\ _nonce_store again = ∅
  /\ verify_pairing_token b_age b_evict b_store token again
     = (Ok peer_id,
        set_nonce_store (insert n (b_store + inject_Z NONCE_STORE_TTL)%Q)
          (_evict_expired_nonces b_evict again)).
Proof.
  intros [Hfile Hlen] Hrun Hsplit Hint Hfresh. cbv zeta.
  destruct (verify_accepted_inv _ _ _ _ _ _ _ Hrun)
    as (p' & i' & n' & g' & z & Hsplit' & Hdec & Hsig & Hint' & _ & _ & ->).
  rewrite Hsplit in Hsplit'. injection Hsplit' as -> <- <- <- <-.
  rewrite (__init___reuses _ _ _ Hfile Hlen). cbn [fst].
  set (again := _load_allowlist (Build (_token_ttl self) (_signing_key self) ∅ ∅) w).
  destruct (_load_allowlist_frame (Build (_token_ttl self) (_signing_key self) ∅ ∅) w)
    as [Httl Hstore].
  fold again in Httl, Hstore. cbn [_token_ttl _nonce_store] in Httl, Hstore.
  assert (Hkey : _signing_key again = _signing_key self)
    by exact (_load_allowlist_key (Build (_token_ttl self) (_signing_key self) ∅ ∅) w).
  split; [apply lookup_insert_eq|]. split; [exact Hstore|].
  unfold verify_pairing_token. rewrite Hsplit.
  rewrite (verify_fields_unfold _ _ _ _ _ _ _ _ _ Hdec).
  unfold _sign in *. rewrite Hkey, Hsig, Hint, Httl, Hfresh. cbv zeta.
  destruct (decide _) as [[e He]|_]; [|reflexivity].
  exfalso. apply evicted_lookup in He as [He _]. rewrite Hstore, lookup_empty in He.
  discriminate.
Qed.

Lemma identity_step_invariant token_ttl s s' :
  identity_step s s' ->
  key_on_disk s.1 s.2 /\ allowlist_valid s.1 /\ _token_ttl s.1 = token_ttl ->
  key_on_disk s'.1 s'.2 /\ allowlist_valid s'.1 /\ _token_ttl s'.1 = token_ttl.
Proof.
  intros Hstep ([Hfile Hlen] & Hvalid & Httl).
  destruct Hstep as [self w now peer_id|self w t_age t_evict t_store token
                    |self w peer_id|self w peer_id|self w]; cbn [fst snd] in *.
  - split; [|split; assumption]. split; [exact Hfile|exact Hlen].
  - destruct (verify_pairing_token_frame t_age t_evict t_store token self)
      as (Hk & Ht & Ha).
    unfold key_on_disk. rewrite Hk, Ht. split; [split; assumption|]. split; [|exact Httl].
    intros pid sig. unfold _sign. rewrite Ha, Hk. apply Hvalid.
  - split; [|split; [apply allow_peer_valid; exact Hvalid|exact Httl]].
    split; [|exact Hlen].
    unfold allow_peer, _save_allowlist, set_files. cbn [snd files].
    rewrite lookup_insert_ne by discriminate. exact Hfile.
  - unfold revoke_peer.
    destruct (_allowlist self !! peer_id) as [sig|] eqn:Hlook; cbn [fst snd].
    + split; [split; [|exact Hlen]|split; [|exact Httl]].
      * unfold _save_allowlist, set_files. cbn [files].
        rewrite lookup_insert_ne by discriminate. exact Hfile.
      * intros pid sig'. cbn [set_allowlist _allowlist]. intros Hl.
        apply lookup_delete_Some in Hl as [_ Hl]. exact (Hvalid _ _ Hl).
    + split; [split; assumption|split; assumption].
  - split; [|split; [apply rotate_signing_key_valid|exact Httl]].
    unfold key_on_disk, rotate_signing_key, token_bytes, _save_allowlist,
      _save_signing_key, set_files.
    cbn [fst snd files set_allowlist set_signing_key _signing_key].
    split; [|apply length_peek_key].
    rewrite lookup_insert_ne by discriminate. apply lookup_insert_eq.
Qed.

(** X16. Whatever sequence of [create_pairing_token], [verify_pairing_token],
    [allow_peer], [revoke_peer] and [rotate_signing_key] calls follows the
    construction of an instance, with any arguments and outcomes: the key
    file holds the instance's key, of 32 bytes; every allowlist entry in
    memory carries the signature of that key; the TTL is the constructor's. *)
Theorem reachable_instance_invariant
    (token_ttl : Z) (w0 : world) (s : IdentityManager * world) :
  rtc identity_step (__init__ token_ttl w0) s ->
  key_on_disk s.1 s.2 /\ allowlist_valid s.1 /\ _token_ttl s.1 = token_ttl.
Proof.
  intros Hreach.
  refine (rtc_ind_r
            (fun s => key_on_disk s.1 s.2 /\ allowlist_valid s.1 /\ _token_ttl s.1 = token_ttl)
            _ _ _ _ Hreach).
  - destruct (__init___state token_ttl w0) as (Hkey & _ & Httl).
    split; [exact Hkey|]. split; [apply __init___valid|exact Httl].
  - intros y z _ Hstep IH. exact (identity_step_invariant token_ttl _ _ Hstep IH).
Qed.

End Lifecycle.
End IdentityMore.

(** * identity.py: further concrete runs *)
Module IdentityMoreRuns.
Import Identity IdentityFacts IdentityMore.
#[local] Existing Instance Sim.identity_lib.

Lemma sim_json_round_trip (d : gmap string string) :
  json_loads (json_dumps d) = Some (JDict (JStr <$> d)).
Proof.
  cbn [json_loads json_dumps Sim.identity_lib]. unfold Sim.loads.
  rewrite SimFacts.loads_dict_dumps. reflexivity.
Qed.

Lemma manager_key_on_disk : key_on_disk (Sim.manager 300) Sim.world1.
Proof. split; vm_compute; reflexivity. Qed.

Lemma manager_valid : allowlist_valid (Sim.manager 300).
Proof. apply __init___valid. Qed.

(** X1 at a token of three fields and at the token issued at second 1000. *)
Lemma malformed_witness :
  verify_pairing_token 0 0 0 "1:2:3" (Sim.manager 300)
  = (Raise (TokenInvalidError Malformed), Sim.manager 300)
  /\ (verify_pairing_token 1010 1010 1010 Sim.token0 (Sim.manager 300)).1
     <> Raise (TokenInvalidError Malformed).
Proof.
  split.
  - apply (proj1 (malformed_iff_colon_count (H := Sim.identity_lib) 0 0 0 "1:2:3"
                    (Sim.manager 300))).
    cbn. lia.
  - apply (proj2 (malformed_iff_colon_count (H := Sim.identity_lib) 1010 1010 1010
                    Sim.token0 (Sim.manager 300))).
    vm_compute. reflexivity.
Defined.

(** X2 at a token of version 2 whose peer field does not decode. *)
Lemma unsupported_version_witness :
  (verify_pairing_token 0 0 0 "2:?:0:00:00" (Sim.manager 300)).1
  = Raise (TokenInvalidError UnsupportedVersion).
Proof.
  apply (proj2 (unsupported_version_iff (H := Sim.identity_lib) 0 0 0 "2:?:0:00:00"
                  (Sim.manager 300))).
  exists "2", "?", "0", "00", "00". split; [reflexivity|discriminate].
Defined.

(** X3 at the token issued at second 1000, refused as expired at second
    1301. *)
Lemma refused_token_witness :
  verify_pairing_token 1301 1301 1301 Sim.token0 (Sim.manager 300)
  = (Raise TokenExpiredError, Sim.manager 300).
Proof.
  destruct (refused_token_adds_nothing (H := Sim.identity_lib) 1301 1301 1301 Sim.token0
              (Sim.manager 300)) as (_ & _ & _ & Hraise).
  assert (Hrun : (verify_pairing_token 1301 1301 1301 Sim.token0 (Sim.manager 300)).1
                 = Raise TokenExpiredError) by (vm_compute; reflexivity).
  destruct (Hraise _ Hrun) as (Hsame & _).
  rewrite (surjective_pairing (verify_pairing_token 1301 1301 1301 Sim.token0 (Sim.manager 300))).
  rewrite Hrun, Hsame by discriminate. reflexivity.
Defined.

(** X4 at the peer id [device:7]. *)
Lemma b64_helpers_witness :
  _b64dec (_b64enc "device:7") = Some "device:7" /\ occurs ":" (_b64enc "device:7") = false.
Proof.
  apply (b64_helpers_round_trip (H := Sim.identity_lib)
           SimFacts.b64encode_alphabet SimFacts.b64encode_length
           SimFacts.b64encode_padding SimFacts.b64decode_encode "device:7").
Defined.

(** X5 at the token issued at second 1000. *)
Lemma issued_token_format_witness :
  exists p i n,
    split_on ":" Sim.token0
    = ["1"; p; i; n; _sign (Sim.manager 300) (_make_payload "1" "device:7" i n)]
    /\ _b64dec p = Some "device:7"
    /\ py_int i = Some 1000%Z
    /\ String.length n = 32
    /\ drawn Sim.world2 = drawn Sim.world1 + 16.
Proof.
  destruct (issued_token_format (H := Sim.identity_lib)
              SimFacts.hmac_is_hex SimFacts.b64encode_alphabet SimFacts.b64encode_length
              SimFacts.b64encode_padding SimFacts.b64decode_encode
              SimFacts.int_of_str_of_int SimFacts.str_of_int_decimal
              (Sim.manager 300) 1000 "device:7" Sim.world1)
    as (p & i & n & Hsplit & _ & Hdec & Hint & _ & Hlen & _ & _ & _ & Hdrawn).
  exists p, i, n. repeat split; assumption.
Defined.

(** X6 at the token issued at second 1000, on the issuing instance with an
    empty ledger: in time at second 1010, expired at second 1301. *)
Lemma issued_token_outcomes_witness :
  (verify_pairing_token 1010 1010 1010 Sim.token0 (Sim.manager 300)).1 = Ok "device:7"
  /\ (verify_pairing_token 1301 1301 1301 Sim.token0 (Sim.manager 300)).1
     = Raise TokenExpiredError.
Proof.
  unfold Sim.token0. split.
  - rewrite (issued_token_outcomes (H := Sim.identity_lib)
               SimFacts.hmac_is_hex SimFacts.b64encode_alphabet SimFacts.b64encode_length
               SimFacts.b64encode_padding SimFacts.b64decode_encode
               SimFacts.int_of_str_of_int SimFacts.str_of_int_decimal
               (Sim.manager 300) (Sim.manager 300) 1000 "device:7" Sim.world1
               1010 1010 1010 eq_refl).
    vm_compute. reflexivity.
  - rewrite (issued_token_outcomes (H := Sim.identity_lib)
               SimFacts.hmac_is_hex SimFacts.b64encode_alphabet SimFacts.b64encode_length
               SimFacts.b64encode_padding SimFacts.b64decode_encode
               SimFacts.int_of_str_of_int SimFacts.str_of_int_decimal
               (Sim.manager 300) (Sim.manager 300) 1000 "device:7" Sim.world1
               1301 1301 1301 eq_refl).
    vm_compute. reflexivity.
Defined.

(** X7 at the token issued at second 1000 and a rotation that draws its key
    after the token's nonce. *)
Lemma rotated_key_witness :
  verify_pairing_token 1010 1010 1010 Sim.token0 (rotate_signing_key (Sim.manager 300) Sim.world2).1
  = (Raise (TokenInvalidError InvalidSignature),
     (rotate_signing_key (Sim.manager 300) Sim.world2).1).
Proof.
  apply (rotated_key_refuses_old_tokens (H := Sim.identity_lib)
           SimFacts.hmac_is_hex SimFacts.b64encode_alphabet SimFacts.b64encode_length
           SimFacts.b64encode_padding SimFacts.b64decode_encode
           SimFacts.str_of_int_decimal
           (Sim.manager 300) 1000 "device:7" Sim.world1 Sim.world2 1010 1010 1010).
  intros E. vm_compute in E. discriminate.
Defined.

(** X8 at a signed token whose issue time is [x]. *)
Lemma unreadable_issue_time_witness :
  verify_pairing_token 0 0 0 Sim.token_issued_at_x (Sim.manager 300)
  = (Raise ValueError, Sim.manager 300).
Proof.
  apply (unreadable_issue_time_escapes (H := Sim.identity_lib) SimFacts.hmac_is_hex
           0 0 0 Sim.token_issued_at_x (Sim.b64encode "a") "x" "00" "a" (Sim.manager 300)).
  - vm_compute. reflexivity.
  - vm_compute. reflexivity.
  - vm_compute. reflexivity.
Defined.

(** X9 on the empty disk and on the disk the first construction left. *)
Lemma init_key_file_witness :
  key_on_disk (__init__ 300 Sim.world0).1 (__init__ 300 Sim.world0).2
  /\ _signing_key (__init__ 300 Sim.world0).1 = peek_bytes 32 Sim.world0
  /\ (__init__ 300 Sim.world1).2 = Sim.world1
  /\ _signing_key (__init__ 300 Sim.world1).1 = peek_bytes 32 Sim.world0.
Proof.
  destruct (init_key_file_cases (H := Sim.identity_lib) 300 Sim.world0)
    as (Hkey & _ & _ & Hfresh).
  destruct (init_key_file_cases (H := Sim.identity_lib) 300 Sim.world1)
    as (_ & _ & _ & Hreuse).
  assert (Hnone : files Sim.world0 !! key_file = None) by reflexivity.
  assert (Hfile : files Sim.world1 !! key_file = Some (peek_bytes 32 Sim.world0))
    by (vm_compute; reflexivity).
  rewrite Hnone in Hfresh. rewrite Hfile in Hreuse.
  split; [exact Hkey|]. split; [exact (proj1 Hfresh)|].
  apply Hreuse. reflexivity.
Defined.

(** X10 on a disk whose allowlist file holds the signed entry of
    [telegram:42] and an entry with a signature that is not ASCII. *)
Lemma malformed_entry_witness :
  is_peer_allowed (__init__ 300 Sim.world_paired).1 "telegram:42" = Ok true
  /\ _allowlist (__init__ 300 Sim.world_non_ascii).1 = ∅
  /\ is_peer_allowed (__init__ 300 Sim.world_non_ascii).1 "telegram:42" = Ok false.
Proof.
  split; [vm_compute; reflexivity|].
  destruct (malformed_entry_empties_allowlist (H := Sim.identity_lib) 300
              Sim.world_non_ascii
              (Sim.dumps (<["signal:9" := Sim.e_acute]> (_allowlist Sim.manager_paired)))
              (JStr <$> <["signal:9" := Sim.e_acute]> (_allowlist Sim.manager_paired))
              "signal:9" (JStr Sim.e_acute)) as [Hempty Hdenied].
  - apply lookup_insert_eq.
  - apply sim_json_round_trip.
  - rewrite lookup_fmap, lookup_insert_eq. reflexivity.
  - right. exists Sim.e_acute. split; reflexivity.
  - split; [exact Hempty|apply Hdenied].
Defined.

(** X11 at [telegram:42], allowed on the instance constructed on the empty
    disk. *)
Lemma allow_peer_restart_witness :
  is_peer_allowed Sim.manager_paired "telegram:42" = Ok true
  /\ is_peer_allowed (__init__ 300 Sim.world_paired).1 "telegram:42" = Ok true.
Proof.
  destruct (allow_peer_survives_restart (H := Sim.identity_lib)
              SimFacts.hmac_is_hex sim_json_round_trip
              "telegram:42" (Sim.manager 300) Sim.world1 300
              manager_key_on_disk manager_valid)
    as (Hnow & _ & _ & _ & Hagain & _).
  split; [exact Hnow|exact Hagain].
Defined.

Lemma manager_paired_inv :
  key_on_disk Sim.manager_paired Sim.world_paired /\ allowlist_valid Sim.manager_paired.
Proof.
  split; [split; vm_compute; reflexivity|].
  apply allow_peer_valid, manager_valid.
Qed.

(** X12 at [telegram:42], revoked after it was allowed. *)
Lemma revoke_peer_restart_witness :
  exists self' w',
    revoke_peer "telegram:42" Sim.manager_paired Sim.world_paired = (Ok tt, (self', w'))
    /\ is_peer_allowed self' "telegram:42" = Ok false
    /\ is_peer_allowed (__init__ 300 w').1 "telegram:42" = Ok false.
Proof.
  pose proof (revoke_peer_survives_restart (H := Sim.identity_lib)
                SimFacts.hmac_is_hex sim_json_round_trip
                "telegram:42" Sim.manager_paired Sim.world_paired 300
                (proj1 manager_paired_inv) (proj2 manager_paired_inv)) as Hrevoke.
  assert (Hentry : _allowlist Sim.manager_paired !! "telegram:42"
                   = Some (_sign (Sim.manager 300) "allow:telegram:42"))
    by apply lookup_insert_eq.
  rewrite Hentry in Hrevoke.
  destruct Hrevoke as (self' & w' & Hrun & Hnow & _ & _ & Hagain & _).
  exists self', w'. split; [exact Hrun|]. split; [exact Hnow|exact Hagain].
Defined.

(** X13 at the instance on which [telegram:42] was allowed. *)
Lemma rotate_signing_key_witness :
  let self' := (rotate_signing_key Sim.manager_paired Sim.world_paired).1 in
  let w' := (rotate_signing_key Sim.manager_paired Sim.world_paired).2 in
  _signing_key self' = peek_bytes 32 Sim.world_paired
  /\ is_peer_allowed self' "telegram:42" = Ok true
  /\ is_peer_allowed (__init__ 300 w').1 "telegram:42" = Ok true.
Proof.
  cbv zeta.
  destruct (rotate_signing_key_keeps_peers (H := Sim.identity_lib)
              SimFacts.hmac_is_hex sim_json_round_trip
              Sim.manager_paired Sim.world_paired 300)
    as (Hkey & _ & _ & _ & Hnow & _ & _ & _ & Hagain).
  split; [exact Hkey|].
  rewrite Hnow, Hagain. split; apply f_equal, bool_decide_eq_true_2;
    eexists; apply lookup_insert_eq.
Defined.

(** X14 at the instance on which [telegram:42] was allowed. *)
Lemma allowlist_queries_witness :
  is_peer_allowed Sim.manager_paired "telegram:42" = Ok true
  /\ assert_peer_allowed Sim.manager_paired "signal:9" = Raise PeerNotAllowedError
  /\ exists l, list_allowed_peers Sim.manager_paired = Ok l /\ "telegram:42" ∈ l.
Proof.
  destruct (allowlist_queries_agree (H := Sim.identity_lib) SimFacts.hmac_is_hex
              Sim.manager_paired (proj2 manager_paired_inv))
    as (Hallowed & Hassert & l & Hlist & _ & Hkeys).
  assert (Hin : is_Some (_allowlist Sim.manager_paired !! "telegram:42"))
    by (eexists; apply lookup_insert_eq).
  split; [rewrite Hallowed; apply f_equal, bool_decide_eq_true_2; exact Hin|].
  split.
  - rewrite Hassert, bool_decide_eq_false_2; [reflexivity|].
    intros [sig Hsig]. vm_compute in Hsig. discriminate.
  - exists l. split; [exact Hlist|]. apply Hkeys. exact Hin.
Defined.

(** X15 at the token issued at second 1000: accepted at second 1010, and
    accepted at second 1020 by an instance constructed in between. *)
Lemma restart_forgets_ledger_witness :
  exists self1 self2,
    verify_pairing_token 1010 1010 1010 Sim.token0 (Sim.manager 300) = (Ok "device:7", self1)
    /\ verify_pairing_token 1020 1020 1020 Sim.token0 (__init__ 300 Sim.world2).1
       = (Ok "device:7", self2).
Proof.
  eexists _, _. split; [vm_compute; reflexivity|].
  refine (proj2 (proj2 (restart_forgets_ledger (H := Sim.identity_lib)
            (Sim.manager 300) _ Sim.world2 Sim.token0 "device:7"
            1010 1010 1010 1020 1020 1020
            "1" (Sim.b64encode "device:7") "1000" Sim.nonce0
            (_sign (Sim.manager 300) (_make_payload "1" "device:7" "1000" Sim.nonce0))
            1000 _ _ _ _ _))).
  - split; vm_compute; reflexivity.
  - vm_compute. reflexivity.
  - vm_compute. reflexivity.
  - vm_compute. reflexivity.
  - vm_compute. reflexivity.
Defined.

(** X16 at the state reached by allowing a peer and rotating the key. *)
Lemma reachable_instance_witness :
  let s := rotate_signing_key Sim.manager_paired Sim.world_paired in
  key_on_disk s.1 s.2 /\ allowlist_valid s.1 /\ _token_ttl s.1 = 300%Z.
Proof.
  cbv zeta. apply (reachable_instance_invariant (H := Sim.identity_lib) 300 Sim.world0).
  apply rtc_l with (allow_peer "telegram:42" (Sim.manager 300) Sim.world1).
  - exact (step_allow_peer (Sim.manager 300) Sim.world1 "telegram:42").
  - apply rtc_once.
    exact (step_rotate_signing_key Sim.manager_paired Sim.world_paired).
Defined.

End IdentityMoreRuns.

(** * vault.py: further properties *)
Module VaultMore.
Import Vault VaultFacts.

Section Code.
Context `{CryptoLib}.

(** ** The methods, one equation per exit *)

Lemma _save_unfold v w k d x :
  _aes_key v = Some k -> _data v = Some d -> _wrapped_key_or_salt v = Some x ->
  let nonce := peek_bytes 12 w in
  _save (v, w)
  = (Ok tt,
     (v, saved_world
           (vault_file (_key_mode v) x nonce (AESGCM_encrypt k nonce (json_dumps_compact d)))
           w)).
Proof.
  intros Hk Hd Hx. cbv zeta.
  unfold _save, bind, secrets_token_bytes, self, write_disk, disk, token_bytes.
  cbn [fst snd]. rewrite Hk, Hd, Hx. cbn [fst snd set_files files].
  rewrite lookup_insert_eq. reflexivity.
Qed.

Lemma _load_unfold v w raw :
  files w !! _path = Some raw ->
  _load (v, w) =
  if decide (length raw < 67) then (Raise (VaultError VaultTooSmall), (v, w))
  else if negb (bool_decide (take 4 raw = MAGIC))
  then (Raise (VaultError VaultBadMagic), (v, w))
  else if negb (N.eqb (unpack_H raw 4) VERSION)
  then (Raise (VaultError VaultUnsupportedVersion), (v, w))
  else
    let key_mode := nth 6 raw x00 in
    let wrapped := take 32 (drop 7 raw) in
    let v1 := set_wrapped (Some wrapped) (set_key_mode key_mode v) in
    match recover_key (_passphrase v) (files w) key_mode wrapped with
    | Raise e => (Raise e, (v1, w))
    | Ok k =>
        let v2 := set_aes_key (Some k) v1 in
        match AESGCM_decrypt k (take 12 (drop 39 raw)) (drop 51 raw) with
        | None => (Raise (VaultError VaultDecryptionFailed), (v2, w))
        | Some plaintext =>
            match json_loads_payload plaintext with
            | None => (Raise ValueError, (v2, w))
            | Some data => (Ok tt, (set_data (Some data) v2, w))
            end
        end
    end.
Proof.
  intros Hfile. unfold _load, bind, disk. cbn [fst snd]. rewrite Hfile.
  change (4 + 2 + 1 + 32 + 12 + 16) with 67.
  destruct (decide (length raw < 67)); [reflexivity|].
  destruct (negb (bool_decide _)); [reflexivity|].
  destruct (negb (_ =? _)%N); [reflexivity|].
  change (4 + 2) with 6. change (6 + 1) with 7. change (7 + 32) with 39.
  change (39 + 12) with 51.
  cbn [update self fst snd set_key_mode set_wrapped _passphrase]. cbv zeta.
  unfold recover_key.
  destruct (decide (nth 6 raw x00 = KEY_MODE_DPAPI)) as [Hmode|Hmode].
  - destruct _DPAPI_AVAILABLE eqn:Havail; cbn [negb]; [|reflexivity].
    unfold _dpapi_unprotect, bind, disk, ret, raise. rewrite Havail. cbn [negb fst snd].
    destruct (files w !! _dpapi_sidecar_path) as [blob|]; [|reflexivity].
    destruct (CryptUnprotectData blob) as [k|]; [|reflexivity].
    cbn [fst snd].
    destruct (AESGCM_decrypt k _ _) as [plaintext|]; [|reflexivity].
    destruct (json_loads_payload plaintext); reflexivity.
  - destruct (no_passphrase (_passphrase v)); [reflexivity|]. unfold ret.
    destruct (AESGCM_decrypt _ _ _) as [plaintext|]; [|reflexivity].
    destruct (json_loads_payload plaintext); reflexivity.
Qed.

Lemma recover_key_recovers passphrase fs key_mode wrapped k :
  recover_key passphrase fs key_mode wrapped = Ok k
  <-> recovers passphrase fs key_mode wrapped k.
Proof.
  unfold recover_key, recovers.
  destruct (decide (key_mode = KEY_MODE_DPAPI)).
  - destruct _DPAPI_AVAILABLE; cbn [negb].
    + destruct (fs !! _dpapi_sidecar_path) as [blob|].
      * destruct (CryptUnprotectData blob) as [k'|] eqn:Hun; split.
        -- intros [= <-]. split; [reflexivity|]. exists blob. split; [reflexivity|exact Hun].
        -- intros (_ & blob' & [= <-] & Hk). rewrite Hun in Hk. injection Hk as <-.
           reflexivity.
        -- discriminate.
        -- intros (_ & blob' & [= <-] & Hk). rewrite Hun in Hk. discriminate.
      * split; [discriminate|]. intros (_ & blob' & [=] & _).
    + split; [discriminate|]. intros [[=] _].
  - destruct (no_passphrase passphrase); split.
    + discriminate.
    + intros [[=] _].
    + intros [= <-]. split; reflexivity.
    + intros [_ ->]. reflexivity.
Qed.

(** [_initialise_new_vault], by key mode. *)
Lemma _initialise_new_vault_unfold v w :
  let fresh := peek_bytes 32 w in
  let w1 := World (files w) (entropy w) (drawn w + 32) in
  let v1 := set_aes_key (Some fresh) v in
  _initialise_new_vault (v, w) =
  if decide (_key_mode v = KEY_MODE_DPAPI)
  then
    if _DPAPI_AVAILABLE
    then
      let blob := CryptProtectData fresh in
      let w2 := set_files (insert _dpapi_sidecar_path blob) w1 in
      let v2 := set_data (Some ∅) (set_wrapped (Some (sha256_digest blob)) v1) in
      (Ok tt,
       (v2, saved_world
              (vault_file (_key_mode v) (sha256_digest blob) (peek_bytes 12 w2)
                 (AESGCM_encrypt fresh (peek_bytes 12 w2) (json_dumps_compact ∅)))
              w2))
    else (Raise (VaultError VaultDpapiUnavailable), (v1, w1))
  else
    if no_passphrase (_passphrase v)
    then (Raise (VaultError VaultPassphraseRequiredInit), (v1, w1))
    else
      let salt := peek_bytes 32 w1 in
      let w2 := World (files w) (entropy w) (drawn w + 32 + 32) in
      let k := _pbkdf2_key (passphrase_text (_passphrase v)) salt in
      let v2 := set_data (Some ∅) (set_aes_key (Some k) (set_wrapped (Some salt) v1)) in
      (Ok tt,
       (v2, saved_world
              (vault_file (_key_mode v) salt (peek_bytes 12 w2)
                 (AESGCM_encrypt k (peek_bytes 12 w2) (json_dumps_compact ∅)))
              w2)).
Proof.
  cbv zeta.
  unfold _initialise_new_vault, bind, secrets_token_bytes, update, self, token_bytes.
  cbn [fst snd set_aes_key _key_mode _passphrase].
  destruct (decide (_key_mode v = KEY_MODE_DPAPI)) as [Hmode|Hmode].
  - unfold _dpapi_protect, bind, write_disk, ret, raise.
    destruct _DPAPI_AVAILABLE; cbn [negb fst snd]; [|reflexivity].
    cbn [set_wrapped set_data].
    match goal with |- _save (?v2, ?w2) = _ =>
      rewrite (_save_unfold v2 w2 (peek_bytes 32 w) ∅
                 (sha256_digest (CryptProtectData (peek_bytes 32 w)))
                 eq_refl eq_refl eq_refl) end.
    reflexivity.
  - destruct (no_passphrase (_passphrase v)); [reflexivity|].
    cbn [fst snd set_wrapped set_aes_key set_data files entropy drawn].
    match goal with |- _save (?v2, ?w2) = _ =>
      rewrite (_save_unfold v2 w2 _ ∅ _ eq_refl eq_refl eq_refl) end.
    reflexivity.
Qed.

Lemma _ensure_loaded_unfold v w :
  _ensure_loaded (v, w) =
  match _data v with
  | Some _ => (Ok tt, (v, w))
  | None =>
      if decide (is_Some (files w !! _path)) then _load (v, w)
      else _initialise_new_vault (v, w)
  end.
Proof.
  unfold _ensure_loaded, bind, self, disk, ret. cbn [fst snd].
  destruct (_data v); [reflexivity|]. cbn [fst snd].
  destruct (decide _); reflexivity.
Qed.

(** The five methods after [_ensure_loaded]. *)
Lemma methods_unfold s :
  (forall key value,
     store key value s =
     match _ensure_loaded s with
     | (Raise e, s1) => (Raise e, s1)
     | (Ok _, (v1, w1)) =>
         match _data v1 with
         | None => (Raise TypeError, (v1, w1))
         | Some d => _save (set_data (Some (<[key := value]> d)) v1, w1)
         end
     end)
  /\ (forall key,
        retrieve key s =
        match _ensure_loaded s with
        | (Raise e, s1) => (Raise e, s1)
        | (Ok _, (v1, w1)) =>
            match _data v1 with
            | None => (Raise TypeError, (v1, w1))
            | Some d =>
                (match d !! key with Some value => Ok value | None => Raise KeyError end,
                 (v1, w1))
            end
        end)
  /\ (forall key,
        delete key s =
        match _ensure_loaded s with
        | (Raise e, s1) => (Raise e, s1)
        | (Ok _, (v1, w1)) =>
            match _data v1 with
            | None => (Raise TypeError, (v1, w1))
            | Some d =>
                match d !! key with
                | None => (Raise KeyError, (v1, w1))
                | Some _ => _save (set_data (Some (base.delete key d)) v1, w1)
                end
            end
        end)
  /\ list_keys s =
     match _ensure_loaded s with
     | (Raise e, s1) => (Raise e, s1)
     | (Ok _, (v1, w1)) =>
         match _data v1 with
         | None => (Raise TypeError, (v1, w1))
         | Some d => (Ok (map fst (map_to_list d)), (v1, w1))
         end
     end.
Proof.
  repeat split; intros;
    unfold store, retrieve, delete, list_keys, loaded_data, bind, self, ret, raise, update;
    destruct (_ensure_loaded s) as [[[]|e] [v1 w1]]; try reflexivity;
    cbn [fst snd]; destruct (_data v1) as [d|]; try reflexivity;
    cbn [fst snd]; destruct (d !! key); reflexivity.
Qed.

Lemma every_method_raises_intro e s s' :
  _ensure_loaded s = (Raise e, s') -> every_method_raises e s s'.
Proof.
  intros Hload. split; [exact Hload|].
  repeat split; intros;
    unfold store, retrieve, delete, list_keys, rotate_key, bind; rewrite Hload; reflexivity.
Qed.


Lemma _ensure_loaded_no_file v w :
  _data v = None -> files w !! _path = None ->
  _ensure_loaded (v, w) = _initialise_new_vault (v, w).
Proof.
  intros Hdata Hfile. rewrite _ensure_loaded_unfold, Hdata, Hfile.
  destruct (decide _) as [[? [=]]|_]. reflexivity.
Qed.

(** X17. A vault file with a damaged header is refused before any key is
    recovered, by every method: shorter than 67 bytes, "too small"; else
    without the magic bytes, "bad magic"; else with a version other than 1,
    "unsupported version". The instance and the disk are unchanged: [store]
    does not overwrite the file. *)
Theorem corrupt_header_refused (v : Vault) (w : world) (raw : bytes) :
  _data v = None ->
  files w !! _path = Some raw ->
  (length raw < 67 -> every_method_raises (VaultError VaultTooSmall) (v, w) (v, w))
  /\ (67 <= length raw -> take 4 raw <> MAGIC ->
      every_method_raises (VaultError VaultBadMagic) (v, w) (v, w))
  /\ (67 <= length raw -> take 4 raw = MAGIC -> unpack_H raw 4 <> VERSION ->
      every_method_raises (VaultError VaultUnsupportedVersion) (v, w) (v, w)).
Proof.
  intros Hdata Hfile.
  pose proof (_ensure_loaded_locked v w raw Hdata Hfile) as Hload.
  rewrite (_load_unfold v w raw Hfile) in Hload.
  split; [|split].
  - intros Hlen. apply every_method_raises_intro. rewrite Hload.
    destruct (decide _) as [_|?]; [reflexivity|lia].
  - intros Hlen Hmagic. apply every_method_raises_intro. rewrite Hload.
    destruct (decide _) as [?|_]; [lia|].
    rewrite bool_decide_eq_false_2 by exact Hmagic. reflexivity.
  - intros Hlen Hmagic Hversion. apply every_method_raises_intro. rewrite Hload.
    destruct (decide _) as [?|_]; [lia|].
    rewrite bool_decide_eq_true_2 by exact Hmagic. cbn [negb].
    apply N.eqb_neq in Hversion. rewrite Hversion. reflexivity.
Qed.

(** X18. An instance without a passphrase and in passphrase mode. On a disk
    without vault file every method raises "a passphrase is required to
    initialise": 32 bytes of entropy were drawn as a key, but no file is
    written. On a vault file with a sound header whose mode byte is not 0
    (any other value counts as passphrase mode) every method raises "a
    passphrase is required to unlock", with the mode and the salt of the
    header already stored in the instance; the disk is unchanged. *)
Theorem passphrase_required (v : Vault) (w : world) :
  _data v = None ->
  no_passphrase (_passphrase v) = true ->
  match files w !! _path with
  | None =>
      _key_mode v <> KEY_MODE_DPAPI ->
      every_method_raises (VaultError VaultPassphraseRequiredInit) (v, w)
        (set_aes_key (Some (peek_bytes 32 w)) v,
         World (files w) (entropy w) (drawn w + 32))
  | Some raw =>
      67 <= length raw -> take 4 raw = MAGIC -> unpack_H raw 4 = VERSION ->
      nth 6 raw x00 <> KEY_MODE_DPAPI ->
      every_method_raises (VaultError VaultPassphraseRequiredUnlock) (v, w)
        (set_wrapped (Some (take 32 (drop 7 raw))) (set_key_mode (nth 6 raw x00) v), w)
  end.
Proof.
  intros Hdata Hpass. destruct (files w !! _path) as [raw|] eqn:Hfile.
  - intros Hlen Hmagic Hversion Hmode. apply every_method_raises_intro.
    rewrite (_ensure_loaded_locked v w raw Hdata Hfile), (_load_unfold v w raw Hfile).
    destruct (decide _) as [?|_]; [lia|].
    rewrite bool_decide_eq_true_2 by exact Hmagic. cbn [negb].
    rewrite Hversion. cbn [N.eqb VERSION Pos.eqb negb]. cbv zeta.
    unfold recover_key. rewrite decide_False by exact Hmode. rewrite Hpass. reflexivity.
  - intros Hmode. apply every_method_raises_intro.
    rewrite (_ensure_loaded_no_file v w Hdata Hfile).
    pose proof (_initialise_new_vault_unfold v w) as Hinit. cbv zeta in Hinit.
    rewrite Hinit, decide_False by exact Hmode. rewrite Hpass. reflexivity.
Qed.

(** X19. A vault file with a sound header and mode byte 0 (DPAPI). Without
    pywin32 every method raises "created with Windows DPAPI but pywin32 is not
    installed", whatever the passphrase; with it, and without the sidecar
    file, "sidecar key file is missing". Either way the instance has taken
    the mode and the fingerprint of the header, has no data, and the disk is
    unchanged. *)
Theorem dpapi_vault_needs_dpapi (v : Vault) (w : world) (raw : bytes) :
  _data v = None ->
  files w !! _path = Some raw ->
  67 <= length raw -> take 4 raw = MAGIC -> unpack_H raw 4 = VERSION ->
  nth 6 raw x00 = KEY_MODE_DPAPI ->
  let v' := set_wrapped (Some (take 32 (drop 7 raw))) (set_key_mode KEY_MODE_DPAPI v) in
  _data v' = None
  /\ (_DPAPI_AVAILABLE = false ->
      every_method_raises (VaultError VaultDpapiNotInstalled) (v, w) (v', w))
  /\ (_DPAPI_AVAILABLE = true -> files w !! _dpapi_sidecar_path = None ->
      every_method_raises (VaultError VaultSidecarMissing) (v, w) (v', w)).
Proof.
  intros Hdata Hfile Hlen Hmagic Hversion Hmode. cbv zeta.
  split; [exact Hdata|].
  pose proof (_ensure_loaded_locked v w raw Hdata Hfile) as Hload.
  rewrite (_load_unfold v w raw Hfile) in Hload.
  destruct (decide _) as [?|_] in Hload; [lia|].
  rewrite bool_decide_eq_true_2 in Hload by exact Hmagic. cbn [negb] in Hload.
  rewrite Hversion in Hload. cbn [N.eqb VERSION Pos.eqb negb] in Hload. cbv zeta in Hload.
  unfold recover_key in Hload. rewrite Hmode, decide_True in Hload by reflexivity.
  split.
  - intros Havail. apply every_method_raises_intro. rewrite Hload, Havail. reflexivity.
  - intros Havail Hside. apply every_method_raises_intro.
    rewrite Hload, Havail, Hside. reflexivity.
Qed.

Lemma saved_world_files content w :
  files (saved_world content w) !! _path = Some content
  /\ files (saved_world content w) !! tmp_path = None
  /\ forall p, p <> _path -> p <> tmp_path ->
       files (saved_world content w) !! p = files w !! p.
Proof.
  unfold saved_world. cbn [files]. split; [apply lookup_insert_eq|]. split.
  - rewrite lookup_insert_ne by discriminate. apply lookup_delete_eq.
  - intros p Hp Htmp.
    rewrite lookup_insert_ne, lookup_delete_ne, lookup_insert_ne by congruence.
    reflexivity.
Qed.

(** X20. The first access of an instance that has not loaded, on a disk
    without vault file, creates the vault, whichever method makes it,
    provided the instance is in DPAPI mode with DPAPI, or in passphrase mode
    with a passphrase: even [retrieve], [delete] and [list_keys] write the
    file of an empty vault (and no temporary file stays behind) before they
    answer [KeyError], [KeyError] and the empty list. *)
Theorem first_access_creates_vault (v : Vault) (w : world) :
  _data v = None ->
  files w !! _path = None ->
  (_key_mode v = KEY_MODE_DPAPI /\ _DPAPI_AVAILABLE = true)
  \/ (_key_mode v <> KEY_MODE_DPAPI /\ no_passphrase (_passphrase v) = false) ->
  exists v' w',
    _ensure_loaded (v, w) = (Ok tt, (v', w'))
    /\ _data v' = Some ∅
    /\ is_Some (files w' !! _path)
    /\ files w' !! tmp_path = None
    /\ drawn w' = drawn w + (if decide (_key_mode v = KEY_MODE_DPAPI) then 44 else 76)
    /\ is_locked v w = false
    /\ is_locked v' w' = false
    /\ (forall name, retrieve name (v, w) = (Raise KeyError, (v', w')))
    /\ (forall name, delete name (v, w) = (Raise KeyError, (v', w')))
    /\ list_keys (v, w) = (Ok [], (v', w')).
Proof.
  intros Hdata Hfile Hmode.
  pose proof (_ensure_loaded_no_file v w Hdata Hfile) as Hload.
  pose proof (_initialise_new_vault_unfold v w) as Hinit.
  cbv zeta in Hinit. rewrite Hinit in Hload. clear Hinit.
  destruct (methods_unfold (v, w)) as (_ & Hretrieve & Hdelete & Hlist).
  assert (Hlocked : is_locked v w = false).
  { unfold is_locked. rewrite Hfile, bool_decide_eq_false_2; [reflexivity|].
    intros [? [=]]. }
  assert (Hrun : exists v' w',
            _ensure_loaded (v, w) = (Ok tt, (v', w'))
            /\ _data v' = Some ∅
            /\ is_Some (files w' !! _path)
            /\ files w' !! tmp_path = None
            /\ drawn w' = drawn w + (if decide (_key_mode v = KEY_MODE_DPAPI) then 44 else 76)).
  { destruct Hmode as [[Hmode Havail]|[Hmode Hpass]].
    - rewrite decide_True in Hload by exact Hmode. rewrite Havail in Hload.
      eexists _, _. split; [exact Hload|]. split; [reflexivity|].
      match goal with |- context [saved_world ?c ?w2] =>
        destruct (saved_world_files c w2) as (Hp & Htmp & _) end.
      split; [eexists; exact Hp|]. split; [exact Htmp|].
      rewrite decide_True by exact Hmode. cbn [saved_world drawn set_files]. lia.
    - rewrite decide_False in Hload by exact Hmode. rewrite Hpass in Hload.
      eexists _, _. split; [exact Hload|]. split; [reflexivity|].
      match goal with |- context [saved_world ?c ?w2] =>
        destruct (saved_world_files c w2) as (Hp & Htmp & _) end.
      split; [eexists; exact Hp|]. split; [exact Htmp|].
      rewrite decide_False by exact Hmode. cbn [saved_world drawn]. lia. }
  destruct Hrun as (v' & w' & Hrun & Hempty & Hp & Htmp & Hdrawn).
  exists v', w'. split; [exact Hrun|]. split; [exact Hempty|]. split; [exact Hp|].
  split; [exact Htmp|]. split; [exact Hdrawn|]. split; [exact Hlocked|].
  split; [unfold is_locked; rewrite Hempty, andb_comm, bool_decide_eq_false_2 by discriminate;
          reflexivity|].
  split; [intros name; rewrite Hretrieve, Hrun, Hempty; reflexivity|].
  split; [intros name; rewrite Hdelete, Hrun, Hempty; reflexivity|].
  rewrite Hlist, Hrun, Hempty, map_to_list_empty. reflexivity.
Qed.


(** [rotate_key] after [_ensure_loaded]. *)
Lemma rotate_key_unfold s :
  rotate_key s =
  match _ensure_loaded s with
  | (Raise e, s1) => (Raise e, s1)
  | (Ok _, (v1, w1)) =>
      let fresh := peek_bytes 32 w1 in
      let w2 := World (files w1) (entropy w1) (drawn w1 + 32) in
      let v2 := set_aes_key (Some fresh) v1 in
      if decide (_key_mode v1 = KEY_MODE_DPAPI)
      then
        if _DPAPI_AVAILABLE
        then
          let blob := CryptProtectData fresh in
          _save (set_wrapped (Some (sha256_digest blob)) v2,
                 set_files (insert _dpapi_sidecar_path blob) w2)
        else (Raise (VaultError VaultDpapiUnavailable), (v2, w2))
      else
        _save (set_wrapped (Some (peek_bytes 32 w2)) v2,
               World (files w1) (entropy w1) (drawn w1 + 32 + 32))
  end.
Proof.
  unfold rotate_key, bind. destruct (_ensure_loaded s) as [[[]|e] [v1 w1]]; [|reflexivity].
  unfold secrets_token_bytes, update, self, token_bytes.
  cbn [fst snd set_aes_key _key_mode]. cbv zeta.
  destruct (decide (_key_mode v1 = KEY_MODE_DPAPI)); [|reflexivity].
  unfold _dpapi_protect, bind, write_disk, ret, raise.
  destruct _DPAPI_AVAILABLE; reflexivity.
Qed.

(** A first access that raises has written nothing and loaded nothing. *)
Lemma _ensure_loaded_raise v w e s1 :
  _data v = None ->
  _ensure_loaded (v, w) = (Raise e, s1) ->
  files s1.2 = files w /\ _data s1.1 = None.
Proof.
  intros Hdata. rewrite _ensure_loaded_unfold, Hdata.
  destruct (decide _) as [[raw Hfile]|_].
  - rewrite (_load_unfold v w raw Hfile).
    destruct (decide _); [intros [= <- <-]; split; [reflexivity|exact Hdata]|].
    destruct (negb (bool_decide _)); [intros [= <- <-]; split; [reflexivity|exact Hdata]|].
    destruct (negb (_ =? _)%N); [intros [= <- <-]; split; [reflexivity|exact Hdata]|].
    cbv zeta. destruct (recover_key _ _ _ _) as [k|e'];
      [|intros [= <- <-]; split; [reflexivity|exact Hdata]].
    destruct (AESGCM_decrypt _ _ _) as [plaintext|];
      [|intros [= <- <-]; split; [reflexivity|exact Hdata]].
    destruct (json_loads_payload plaintext);
      [discriminate|intros [= <- <-]; split; [reflexivity|exact Hdata]].
  - pose proof (_initialise_new_vault_unfold v w) as Hinit. cbv zeta in Hinit.
    rewrite Hinit. clear Hinit.
    destruct (decide _).
    + destruct _DPAPI_AVAILABLE; [discriminate|].
      intros [= <- <-]. split; [reflexivity|exact Hdata].
    + destruct (no_passphrase _); [|discriminate].
      intros [= <- <-]. split; [reflexivity|exact Hdata].
Qed.

(** A first access that returns has set the data, the key and the header
    field, and an instance in DPAPI mode has DPAPI. *)
Lemma _ensure_loaded_ok_fields v w v1 w1 :
  _data v = None ->
  _ensure_loaded (v, w) = (Ok tt, (v1, w1)) ->
  exists d k x,
    _data v1 = Some d /\ _aes_key v1 = Some k /\ _wrapped_key_or_salt v1 = Some x
    /\ (_key_mode v1 = KEY_MODE_DPAPI -> _DPAPI_AVAILABLE = true).
Proof.
  intros Hdata. rewrite _ensure_loaded_unfold, Hdata.
  destruct (decide _) as [[raw Hfile]|_].
  - rewrite (_load_unfold v w raw Hfile).
    destruct (decide _); [discriminate|].
    destruct (negb (bool_decide _)); [discriminate|].
    destruct (negb (_ =? _)%N); [discriminate|].
    cbv zeta. destruct (recover_key _ _ _ _) as [k|e'] eqn:Hrec; [|discriminate].
    destruct (AESGCM_decrypt _ _ _) as [plaintext|]; [|discriminate].
    destruct (json_loads_payload plaintext) as [d|]; [|discriminate].
    intros [= <- <-]. exists d, k, (take 32 (drop 7 raw)).
    repeat split. cbn [set_data set_aes_key set_wrapped set_key_mode _key_mode].
    intros Hmode. unfold recover_key in Hrec. rewrite decide_True in Hrec by exact Hmode.
    destruct _DPAPI_AVAILABLE; [reflexivity|discriminate].
  - pose proof (_initialise_new_vault_unfold v w) as Hinit. cbv zeta in Hinit.
    rewrite Hinit. clear Hinit.
    destruct (decide _) as [Hmode|Hmode].
    + destruct _DPAPI_AVAILABLE; [|discriminate].
      intros [= <- <-]. eexists _, _, _. repeat split.
    + destruct (no_passphrase _); [discriminate|].
      intros [= <- <-]. eexists _, _, _. repeat split.
      cbn [set_data set_aes_key set_wrapped _key_mode]. intros E. contradiction.
Qed.

(** The exceptions of a first access on a disk whose payload [_save] wrote. *)
Lemma _ensure_loaded_raise_kind v w e s1 :
  (forall data, json_loads_payload (json_dumps_compact data) = Some data) ->
  _data v = None ->
  payload_written_by_save (_passphrase v) w ->
  _ensure_loaded (v, w) = (Raise e, s1) ->
  e = PlatformError \/ exists why, e = VaultError why.
Proof.
  intros Hjson Hdata Hpayload. rewrite _ensure_loaded_unfold, Hdata.
  destruct (decide _) as [[raw Hfile]|_].
  - rewrite (_load_unfold v w raw Hfile).
    destruct (decide _); [intros [= <- <-]; right; eexists; reflexivity|].
    destruct (negb (bool_decide _)); [intros [= <- <-]; right; eexists; reflexivity|].
    destruct (negb (_ =? _)%N); [intros [= <- <-]; right; eexists; reflexivity|].
    cbv zeta. destruct (recover_key _ _ _ _) as [k|e'] eqn:Hrec.
    + destruct (AESGCM_decrypt _ _ _) as [plaintext|] eqn:Hdec;
        [|intros [= <- <-]; right; eexists; reflexivity].
      destruct (Hpayload raw k plaintext Hfile Hrec Hdec) as [d ->].
      rewrite Hjson. discriminate.
    + intros [= <- <-]. unfold recover_key in Hrec.
      destruct (decide _) in Hrec.
      * destruct (negb _DPAPI_AVAILABLE) in Hrec;
          [injection Hrec as <-; right; eexists; reflexivity|].
        destruct (files w !! _dpapi_sidecar_path) in Hrec;
          [|injection Hrec as <-; right; eexists; reflexivity].
        destruct (CryptUnprotectData _) in Hrec; [discriminate|].
        injection Hrec as <-. left. reflexivity.
      * destruct (no_passphrase _) in Hrec; [|discriminate].
        injection Hrec as <-. right. eexists. reflexivity.
  - pose proof (_initialise_new_vault_unfold v w) as Hinit. cbv zeta in Hinit.
    rewrite Hinit. clear Hinit.
    destruct (decide _).
    + destruct _DPAPI_AVAILABLE; [discriminate|].
      intros [= <- <-]. right. eexists. reflexivity.
    + destruct (no_passphrase _); [|discriminate].
      intros [= <- <-]. right. eexists. reflexivity.
Qed.

(** X21. From an instance that has not loaded, on a disk whose vault file, if
    it decrypts under the key the instance recovers, holds a payload [_save]
    wrote (the JSON text of a dictionary of strings; [json.loads] reads back
    what [json.dumps] wrote): a call that raises anything but [KeyError]
    raises a [VaultError], or the error of [CryptUnprotectData], has written
    no file and has left the instance without data, and every method raises
    the same. A failed [store], [delete] or [rotate_key] never damages what
    is on disk. ([retrieve] and [delete] raise [KeyError] after a first
    access that may have created the vault. On a payload that is JSON but no
    dictionary, which [_load] keeps, the methods raise otherwise; such a disk
    is excluded.) *)
Theorem failed_call_writes_nothing (c : vault_call) (v : Vault) (w : world) (e : exn) :
  (forall data, json_loads_payload (json_dumps_compact data) = Some data) ->
  _data v = None ->
  payload_written_by_save (_passphrase v) w ->
  call_raises c (v, w) = Some e ->
  e <> KeyError ->
  (e = PlatformError \/ exists why, e = VaultError why)
  /\ files (after_call c (v, w)).2 = files w
  /\ _data (after_call c (v, w)).1 = None
  /\ every_method_raises e (v, w) (after_call c (v, w)).
Proof.
  intros Hjson Hdata Hpayload Hraise Hne.
  destruct (methods_unfold (v, w)) as (Hstore & Hretrieve & Hdelete & Hlist).
  pose proof (rotate_key_unfold (v, w)) as Hrotate.
  destruct (_ensure_loaded (v, w)) as [[[]|e'] [v1 w1]] eqn:Hload.
  - exfalso.
    destruct (_ensure_loaded_ok_fields v w v1 w1 Hdata Hload)
      as (d & k & x & Hd & Hk & Hx & Havail).
    rewrite Hd in Hstore, Hretrieve, Hdelete, Hlist.
    destruct c as [key value|key|key| |]; cbn [call_raises] in Hraise.
    + rewrite Hstore,
        (_save_unfold (set_data (Some (<[key := value]> d)) v1) w1 k _ x Hk eq_refl Hx)
        in Hraise.
      discriminate.
    + rewrite Hretrieve in Hraise. destruct (d !! key); [discriminate|].
      injection Hraise as <-. contradiction.
    + rewrite Hdelete in Hraise. destruct (d !! key).
      * rewrite (_save_unfold (set_data (Some (base.delete key d)) v1) w1 k _ x
                   Hk eq_refl Hx) in Hraise.
        discriminate.
      * injection Hraise as <-. contradiction.
    + rewrite Hlist in Hraise. discriminate.
    + rewrite Hrotate in Hraise. cbv zeta in Hraise.
      destruct (decide _) as [Hmode|Hmode] in Hraise.
      * rewrite (Havail Hmode) in Hraise.
        match type of Hraise with context [_save (?v2, ?w2)] =>
          rewrite (_save_unfold v2 w2 (peek_bytes 32 w1) d _ eq_refl Hd eq_refl) in Hraise
        end.
        discriminate.
      * match type of Hraise with context [_save (?v2, ?w2)] =>
          rewrite (_save_unfold v2 w2 (peek_bytes 32 w1) d _ eq_refl Hd eq_refl) in Hraise
        end.
        discriminate.
  - destruct (_ensure_loaded_raise v w e' (v1, w1) Hdata Hload) as [Hfiles Hnone].
    pose proof (_ensure_loaded_raise_kind v w e' (v1, w1) Hjson Hdata Hpayload Hload)
      as Hkind.
    assert (He : e' = e /\ after_call c (v, w) = (v1, w1)).
    { destruct c as [key value|key|key| |]; cbn [call_raises after_call] in *.
      - rewrite Hstore in *. injection Hraise as <-. split; reflexivity.
      - rewrite Hretrieve in *. injection Hraise as <-. split; reflexivity.
      - rewrite Hdelete in *. injection Hraise as <-. split; reflexivity.
      - rewrite Hlist in *. injection Hraise as <-. split; reflexivity.
      - rewrite Hrotate in *. injection Hraise as <-. split; reflexivity. }
    destruct He as [<- ->]. split; [exact Hkind|]. split; [exact Hfiles|].
    split; [exact Hnone|].
    apply every_method_raises_intro. exact Hload.
Qed.


Section RoundTrip.

(** Library facts, as for the round trip of [store] above. *)
Hypothesis aead_round_trip :
  forall key nonce plaintext,
    AESGCM_decrypt key nonce (AESGCM_encrypt key nonce plaintext) = Some plaintext.
Hypothesis aead_tag :
  forall key nonce plaintext, 16 <= length (AESGCM_encrypt key nonce plaintext).
Hypothesis json_round_trip :
  forall data, json_loads_payload (json_dumps_compact data) = Some data.

(** What a new instance loads from a file [_save] wrote. *)
Lemma reopen_loads passphrase w key_mode x nonce k d :
  files w !! _path
  = Some (vault_file key_mode x nonce (AESGCM_encrypt k nonce (json_dumps_compact d))) ->
  length x = 32 -> length nonce = 12 ->
  recovers passphrase (files w) key_mode x k ->
  _ensure_loaded (__init__ passphrase, w)
  = (Ok tt, (Build passphrase (Some d) (Some k) key_mode (Some x), w)).
Proof.
  intros Hfile Hx Hn Hrec.
  rewrite (_ensure_loaded_locked (__init__ passphrase) w _ eq_refl Hfile).
  rewrite (_load_layout (__init__ passphrase) w _ _ _ _ _ Hfile Hx Hn (aead_tag _ _ _) Hrec).
  cbv zeta. rewrite aead_round_trip, json_round_trip. reflexivity.
Qed.

(** Saving new data from a loaded, consistent instance. *)
Lemma mutated_state v w d' :
  vault_consistent v w -> is_Some (_data v) ->
  let v' := set_data (Some d') v in
  exists w',
    _save (v', w) = (Ok tt, (v', w'))
    /\ vault_consistent v' w'
    /\ vault_mirrored v' w'
    /\ _ensure_loaded (__init__ (_passphrase v), w')
       = (Ok tt, (Build (_passphrase v) (Some d') (_aes_key v) (_key_mode v)
                    (_wrapped_key_or_salt v), w'))
    /\ files w' !! tmp_path = None
    /\ (forall p, p <> _path -> p <> tmp_path -> files w' !! p = files w !! p).
Proof.
  intros Hcons [d Hd]. cbv zeta.
  unfold vault_consistent in Hcons. rewrite Hd in Hcons.
  destruct Hcons as (k & x & Hk & Hx & Hlen & Hrec).
  pose proof (_save_unfold (set_data (Some d') v) w k d' x Hk eq_refl Hx) as Hsave.
  cbv zeta in Hsave. cbn [set_data _key_mode] in Hsave.
  match type of Hsave with context [saved_world ?c w] =>
    destruct (saved_world_files c w) as (Hfile & Htmp & Hother);
    set (w' := saved_world c w) in * end.
  assert (Hrec' : recovers (_passphrase v) (files w') (_key_mode v) x k).
  { apply (recovers_sidecar _ (files w)); [|exact Hrec].
    apply Hother; discriminate. }
  assert (Hopen : _ensure_loaded (__init__ (_passphrase v), w')
                  = (Ok tt, (Build (_passphrase v) (Some d') (Some k) (_key_mode v) (Some x), w')))
    by exact (reopen_loads _ _ _ _ _ _ _ Hfile Hlen (length_peek_bytes _ _) Hrec').
  exists w'. split; [exact Hsave|]. split; [|split; [|split; [|split]]].
  - unfold vault_consistent. cbn [set_data _data _aes_key _wrapped_key_or_salt _key_mode
                                   _passphrase].
    exists k, x. repeat split; assumption.
  - intros d0. cbn [set_data _data _passphrase]. intros [= <-].
    eexists. split; [exact Hopen|reflexivity].
  - rewrite Hk, Hx. exact Hopen.
  - exact Htmp.
  - exact Hother.
Qed.

Section Passphrase.

(** A platform without pywin32: every new vault is in passphrase mode. *)
Hypothesis no_dpapi : _DPAPI_AVAILABLE = false.

(** The first access keeps both invariants. *)
Lemma _ensure_loaded_invariant v w r s1 :
  vault_consistent v w -> vault_mirrored v w ->
  _ensure_loaded (v, w) = (r, s1) ->
  vault_consistent s1.1 s1.2 /\ vault_mirrored s1.1 s1.2
  /\ _passphrase s1.1 = _passphrase v
  /\ match r with
     | Ok _ => is_Some (_data s1.1)
     | Raise _ => _data s1.1 = None
     end.
Proof.
  intros Hcons Hmirror. rewrite _ensure_loaded_unfold.
  destruct (_data v) as [d|] eqn:Hdata.
  { intros [= <- <-]. cbn [fst snd]. rewrite Hdata.
    split; [exact Hcons|]. split; [exact Hmirror|]. split; [reflexivity|].
    eexists; reflexivity. }
  assert (Hunloaded : forall v' w',
            _data v' = None -> _passphrase v' = _passphrase v ->
            vault_consistent v' w' /\ vault_mirrored v' w'
            /\ _passphrase v' = _passphrase v /\ _data v' = None).
  { intros v' w' Hnone Hpass. unfold vault_consistent, vault_mirrored. rewrite Hnone.
    split; [exact I|]. split; [discriminate|]. split; [exact Hpass|reflexivity]. }
  destruct (decide _) as [[raw Hfile]|_].
  - pose proof (_ensure_loaded_locked (__init__ (_passphrase v)) w raw eq_refl Hfile) as Hopen.
    rewrite (_load_unfold _ w raw Hfile) in Hopen.
    rewrite (_load_unfold v w raw Hfile). revert Hopen.
    assert (Hlen : length (take 32 (drop 7 raw)) = 32 \/ length raw < 67)
      by (rewrite length_take, length_drop; lia).
    destruct (decide _) as [?|Hbig];
      [intros _ [= <- <-]; apply Hunloaded; [exact Hdata|reflexivity]|].
    destruct Hlen as [Hlen|?]; [|lia].
    destruct (negb (bool_decide _));
      [intros _ [= <- <-]; apply Hunloaded; [exact Hdata|reflexivity]|].
    destruct (negb (_ =? _)%N);
      [intros _ [= <- <-]; apply Hunloaded; [exact Hdata|reflexivity]|].
    cbv zeta. cbn [__init__ _passphrase].
    destruct (recover_key _ _ _ _) as [k|e'] eqn:Hrec;
      [|intros _ [= <- <-]; apply Hunloaded; [exact Hdata|reflexivity]].
    destruct (AESGCM_decrypt _ _ _) as [plaintext|];
      [|intros _ [= <- <-]; apply Hunloaded; [exact Hdata|reflexivity]].
    destruct (json_loads_payload plaintext) as [d|];
      [|intros _ [= <- <-]; apply Hunloaded; [exact Hdata|reflexivity]].
    intros Hopen [= <- <-]. cbn [fst snd].
    split; [|split; [|split; [reflexivity|eexists; reflexivity]]].
    + unfold vault_consistent.
      cbn [set_data set_aes_key set_wrapped set_key_mode _data _aes_key
           _wrapped_key_or_salt _key_mode _passphrase].
      eexists _, _. split; [reflexivity|]. split; [reflexivity|]. split; [exact Hlen|].
      apply recover_key_recovers. exact Hrec.
    + intros d0. cbn [set_data _data _passphrase set_aes_key set_wrapped set_key_mode].
      intros [= <-]. eexists. split; [exact Hopen|reflexivity].
  - pose proof (_initialise_new_vault_unfold v w) as Hinit. cbv zeta in Hinit.
    rewrite Hinit. clear Hinit.
    destruct (decide _) as [Hmode|Hmode].
    + rewrite no_dpapi. intros [= <- <-]. apply Hunloaded; [exact Hdata|reflexivity].
    + destruct (no_passphrase (_passphrase v)) eqn:Hpass;
        [intros [= <- <-]; apply Hunloaded; [exact Hdata|reflexivity]|].
      intros [= <- <-]. cbn [fst snd].
      match goal with |- context [saved_world ?c ?w2] =>
        destruct (saved_world_files c w2) as (Hfile & _ & Hother);
        set (w' := saved_world c w2) in * end.
      set (salt := peek_bytes 32 _) in *.
      assert (Hrec : recovers (_passphrase v) (files w') (_key_mode v) salt
                       (_pbkdf2_key (passphrase_text (_passphrase v)) salt)).
      { unfold recovers. rewrite decide_False by exact Hmode.
        split; [exact Hpass|reflexivity]. }
      split; [|split; [|split; [reflexivity|eexists; reflexivity]]].
      * unfold vault_consistent.
        cbn [set_data set_aes_key set_wrapped _data _aes_key _wrapped_key_or_salt
             _key_mode _passphrase].
        eexists _, _. split; [reflexivity|]. split; [reflexivity|].
        split; [apply length_peek_bytes|exact Hrec].
      * intros d0. cbn [set_data _data _passphrase set_aes_key set_wrapped].
        intros [= <-]. eexists. split;
          [exact (reopen_loads _ _ _ _ _ _ _ Hfile (length_peek_bytes _ _)
                    (length_peek_bytes _ _) Hrec)|reflexivity].
Qed.

Lemma after_call_invariant c s :
  is_rotate_key c = false ->
  vault_consistent s.1 s.2 -> vault_mirrored s.1 s.2 ->
  vault_consistent (after_call c s).1 (after_call c s).2
  /\ vault_mirrored (after_call c s).1 (after_call c s).2
  /\ _passphrase (after_call c s).1 = _passphrase s.1.
Proof.
  intros Hc Hcons Hmirror. destruct s as [v w]. cbn [fst snd] in *.
  destruct (methods_unfold (v, w)) as (Hstore & Hretrieve & Hdelete & Hlist).
  destruct (_ensure_loaded (v, w)) as [r [v1 w1]] eqn:Hload.
  destruct (_ensure_loaded_invariant v w r (v1, w1) Hcons Hmirror Hload)
    as (Hcons1 & Hmirror1 & Hpass1 & Hr). cbn [fst snd] in *.
  destruct r as [[]|e].
  - destruct Hr as [d Hd]. rewrite Hd in Hstore, Hretrieve, Hdelete, Hlist.
    assert (Hsaved : forall d',
              vault_consistent (_save (set_data (Some d') v1, w1)).2.1
                               (_save (set_data (Some d') v1, w1)).2.2
              /\ vault_mirrored (_save (set_data (Some d') v1, w1)).2.1
                                (_save (set_data (Some d') v1, w1)).2.2
              /\ _passphrase (_save (set_data (Some d') v1, w1)).2.1 = _passphrase v).
    { intros d'.
      destruct (mutated_state v1 w1 d' Hcons1 ltac:(eexists; exact Hd))
        as (w' & -> & Hc' & Hm' & _). cbn [fst snd].
      split; [exact Hc'|]. split; [exact Hm'|exact Hpass1]. }
    destruct c as [key value|key|key| |]; cbn [after_call]; try discriminate.
    + rewrite Hstore. apply Hsaved.
    + rewrite Hretrieve. cbn [fst snd]. repeat split; assumption.
    + rewrite Hdelete. destruct (d !! key); [apply Hsaved|].
      cbn [fst snd]. repeat split; assumption.
    + rewrite Hlist. cbn [fst snd]. repeat split; assumption.
  - destruct c as [key value|key|key| |]; cbn [after_call]; try discriminate.
    + rewrite Hstore. cbn [fst snd]. repeat split; assumption.
    + rewrite Hretrieve. cbn [fst snd]. repeat split; assumption.
    + rewrite Hdelete. cbn [fst snd]. repeat split; assumption.
    + rewrite Hlist. cbn [fst snd]. repeat split; assumption.
Qed.

(** X22. In passphrase mode (on a platform without pywin32): whatever
    sequence of [store], [retrieve], [delete] and [list_keys] calls is made on
    a new instance, with any arguments and outcomes, the instance holds the
    key that the passphrase and the salt of the header derive, and the disk
    mirrors the memory: a new instance with the same passphrase reads, at its
    first access, exactly the data the instance holds. *)
Theorem reachable_vault_mirrors_disk
    (passphrase : option string) (w0 : world) (cs : list vault_call) :
  forallb (fun c => negb (is_rotate_key c)) cs = true ->
  let s := after_calls cs (__init__ passphrase, w0) in
  vault_consistent s.1 s.2
  /\ vault_mirrored s.1 s.2
  /\ _passphrase s.1 = passphrase.
Proof.
  intros Hcs. cbv zeta.
  assert (Hgen : forall s0,
            vault_consistent s0.1 s0.2 /\ vault_mirrored s0.1 s0.2
            /\ _passphrase s0.1 = passphrase ->
            vault_consistent (after_calls cs s0).1 (after_calls cs s0).2
            /\ vault_mirrored (after_calls cs s0).1 (after_calls cs s0).2
            /\ _passphrase (after_calls cs s0).1 = passphrase).
  { induction cs as [|c cs IH]; intros s0 Hinv; [exact Hinv|].
    cbn [forallb] in Hcs. apply andb_prop in Hcs as [Hc Hcs].
    apply negb_true_iff in Hc.
    unfold after_calls. cbn [fold_left]. apply (IH Hcs).
    destruct Hinv as (Hcons & Hmirror & Hpass).
    destruct (after_call_invariant c s0 Hc Hcons Hmirror) as (Hc' & Hm' & Hp').
    split; [exact Hc'|]. split; [exact Hm'|]. rewrite Hp'. exact Hpass. }
  apply Hgen. cbn [fst snd]. split; [exact I|]. split; [discriminate|reflexivity].
Qed.

End Passphrase.

Lemma _ensure_loaded_loaded v w d :
  _data v = Some d -> _ensure_loaded (v, w) = (Ok tt, (v, w)).
Proof. intros Hd. rewrite _ensure_loaded_unfold, Hd. reflexivity. Qed.

(** What a new instance answers once its first access has loaded [d']. *)
Lemma retrieve_after_open s v'' w' name :
  _ensure_loaded s = (Ok tt, (v'', w')) ->
  forall d', _data v'' = Some d' ->
  retrieve name s
  = (match d' !! name with Some value => Ok value | None => Raise KeyError end, (v'', w')).
Proof.
  intros Hopen d' Hd. destruct (methods_unfold s) as (_ & Hretrieve & _).
  rewrite Hretrieve, Hopen, Hd. reflexivity.
Qed.

(** X23. On a loaded instance that holds the key its header recovers,
    [store] returns, leaves no temporary file, and changes no other
    credential: [retrieve] of any other name answers as the data did before
    the call, on the same instance and on a new instance with the same
    passphrase. *)
Theorem store_keeps_other_credentials
    (v : Vault) (w : world) (d : gmap string string) (name value : string) :
  vault_consistent v w ->
  _data v = Some d ->
  exists v' w',
    store name value (v, w) = (Ok tt, (v', w'))
    /\ _data v' = Some (<[name := value]> d)
    /\ files w' !! tmp_path = None
    /\ forall other,
         other <> name ->
         let answer := match d !! other with
                       | Some x => Ok x
                       | None => Raise KeyError
                       end in
         retrieve other (v', w') = (answer, (v', w'))
         /\ exists v'', retrieve other (__init__ (_passphrase v), w') = (answer, (v'', w')).
Proof.
  intros Hcons Hd.
  destruct (mutated_state v w (<[name := value]> d) Hcons ltac:(eexists; exact Hd))
    as (w' & Hsave & _ & _ & Hopen & Htmp & _).
  exists (set_data (Some (<[name := value]> d)) v), w'.
  destruct (methods_unfold (v, w)) as (Hstore & _).
  split; [rewrite Hstore, (_ensure_loaded_loaded v w d Hd), Hd; exact Hsave|].
  split; [reflexivity|]. split; [exact Htmp|].
  intros other Hother. cbv zeta. split.
  - rewrite (retrieve_loaded (set_data (Some (<[name := value]> d)) v) w'
               (<[name := value]> d) other eq_refl).
    rewrite lookup_insert_ne by congruence. reflexivity.
  - eexists. pose proof (retrieve_after_open _ _ _ other Hopen) as Hr.
    cbn [_data] in Hr. rewrite (Hr _ eq_refl).
    rewrite lookup_insert_ne by congruence. reflexivity.
Qed.

(** X24. On a loaded instance that holds the key its header recovers,
    [delete] of a stored name returns; afterwards [retrieve] and [delete] of
    that name raise [KeyError] on the same instance, [retrieve] raises
    [KeyError] on a new instance with the same passphrase, and every other
    credential is as before on both. *)
Theorem delete_round_trip
    (v : Vault) (w : world) (d : gmap string string) (name : string) :
  vault_consistent v w ->
  _data v = Some d ->
  is_Some (d !! name) ->
  exists v' w',
    delete name (v, w) = (Ok tt, (v', w'))
    /\ retrieve name (v', w') = (Raise KeyError, (v', w'))
    /\ delete name (v', w') = (Raise KeyError, (v', w'))
    /\ (exists v'', retrieve name (__init__ (_passphrase v), w') = (Raise KeyError, (v'', w')))
    /\ forall other,
         other <> name ->
         let answer := match d !! other with
                       | Some x => Ok x
                       | None => Raise KeyError
                       end in
         retrieve other (v', w') = (answer, (v', w'))
         /\ exists v'', retrieve other (__init__ (_passphrase v), w') = (answer, (v'', w')).
Proof.
  intros Hcons Hd [x Hx].
  destruct (mutated_state v w (base.delete name d) Hcons ltac:(eexists; exact Hd))
    as (w' & Hsave & _ & _ & Hopen & _).
  set (v' := set_data (Some (base.delete name d)) v) in *.
  exists v', w'.
  destruct (methods_unfold (v, w)) as (_ & _ & Hdelete & _).
  destruct (methods_unfold (v', w')) as (_ & _ & Hdelete' & _).
  split; [rewrite Hdelete, (_ensure_loaded_loaded v w d Hd), Hd, Hx; exact Hsave|].
  split.
  { rewrite (retrieve_loaded v' w' (base.delete name d) name eq_refl), lookup_delete_eq.
    reflexivity. }
  split.
  { rewrite Hdelete', (_ensure_loaded_loaded v' w' (base.delete name d) eq_refl).
    cbn [v' set_data _data]. rewrite lookup_delete_eq. reflexivity. }
  split.
  { eexists. pose proof (retrieve_after_open _ _ _ name Hopen) as Hr.
    cbn [_data] in Hr. rewrite (Hr _ eq_refl), lookup_delete_eq. reflexivity. }
  intros other Hother. cbv zeta. split.
  - rewrite (retrieve_loaded v' w' (base.delete name d) other eq_refl).
    rewrite lookup_delete_ne by congruence. reflexivity.
  - eexists. pose proof (retrieve_after_open _ _ _ other Hopen) as Hr.
    cbn [_data] in Hr. rewrite (Hr _ eq_refl).
    rewrite lookup_delete_ne by congruence. reflexivity.
Qed.

(** X25. After [store], [list_keys] returns, on the same instance and on a
    new instance with the same passphrase, the same list: without
    repetition, of the stored name and the names held before. Neither call
    writes. *)
Theorem list_keys_after_store
    (v : Vault) (w : world) (d : gmap string string) (name value : string) :
  vault_consistent v w ->
  _data v = Some d ->
  exists v' w' l,
    store name value (v, w) = (Ok tt, (v', w'))
    /\ list_keys (v', w') = (Ok l, (v', w'))
    /\ (exists v'', list_keys (__init__ (_passphrase v), w') = (Ok l, (v'', w')))
    /\ NoDup l
    /\ forall n, n ∈ l <-> n = name \/ is_Some (d !! n).
Proof.
  intros Hcons Hd.
  destruct (mutated_state v w (<[name := value]> d) Hcons ltac:(eexists; exact Hd))
    as (w' & Hsave & _ & _ & Hopen & _).
  set (v' := set_data (Some (<[name := value]> d)) v) in *.
  exists v', w', (map fst (map_to_list (<[name := value]> d))).
  destruct (methods_unfold (v, w)) as (Hstore & _).
  destruct (methods_unfold (v', w')) as (_ & _ & _ & Hlist).
  destruct (methods_unfold (__init__ (_passphrase v), w')) as (_ & _ & _ & Hlist').
  split; [rewrite Hstore, (_ensure_loaded_loaded v w d Hd), Hd; exact Hsave|].
  split; [rewrite Hlist, (_ensure_loaded_loaded v' w' _ eq_refl); reflexivity|].
  split; [eexists; rewrite Hlist', Hopen; reflexivity|].
  split; [apply NoDup_fst_map_to_list|].
  intros n. rewrite list_elem_of_fmap. split.
  - intros ([n' x] & -> & Hin). apply elem_of_map_to_list in Hin. cbn [fst].
    apply lookup_insert_Some in Hin as [[-> _]|[_ Hin]]; [left; reflexivity|].
    right. eexists; exact Hin.
  - intros [->|[x Hx]].
    + exists (name, value). split; [reflexivity|].
      apply elem_of_map_to_list, lookup_insert_eq.
    + destruct (decide (n = name)) as [->|Hne].
      * exists (name, value). split; [reflexivity|].
        apply elem_of_map_to_list, lookup_insert_eq.
      * exists (n, x). split; [reflexivity|].
        apply elem_of_map_to_list. rewrite lookup_insert_ne by congruence. exact Hx.
Qed.

End RoundTrip.

(** C2, what the code does. [store] followed by [retrieve] answers the value
    on the storing instance, and a new instance on the same files is refused,
    in two situations the public methods reach.

    With DPAPI: [_dpapi_unprotect] keeps element 0 of the pair
    [CryptUnprotectData] returns, which is the description [_dpapi_protect]
    gave to [CryptProtectData] and not the key. A first [store] on a disk
    without vault file creates the vault under 32 fresh bytes and returns; a
    new instance, whatever its passphrase, hands the description to AES-GCM,
    which refuses it (it has 14 characters), and every first access raises
    [VaultError] ("Vault decryption failed").

    With a passphrase, after [rotate_key] (C1): the file [store] writes is
    encrypted under the fresh key while the header holds a fresh salt, and a
    new instance with the same passphrase, whose derived key AES-GCM refuses,
    raises the same [VaultError]. *)
Theorem store_not_reopened :
  (forall (v : Vault) (w : world) (name value : string),
     let fresh := peek_bytes 32 w in
     let blob := CryptProtectData fresh in
     let nonce := peek_bytes 12 (World (files w) (entropy w) (drawn w + 32 + 12)) in
     let ct := AESGCM_encrypt fresh nonce (json_dumps_compact (<[name := value]> ∅)) in
     _data v = None ->
     files w !! _path = None ->
     _key_mode v = KEY_MODE_DPAPI ->
     _DPAPI_AVAILABLE = true ->
     length (sha256_digest blob) = 32 ->
     16 <= length ct ->
     CryptUnprotectData blob = Some dpapi_description ->
     AESGCM_decrypt dpapi_description nonce ct = None ->
     exists v' w',
       store name value (v, w) = (Ok tt, (v', w'))
       /\ retrieve name (v', w') = (Ok value, (v', w'))
       /\ forall passphrase,
            exists v'',
              retrieve name (__init__ passphrase, w')
              = (Raise (VaultError VaultDecryptionFailed), (v'', w'))
              /\ _data v'' = None)
  /\ (forall (v : Vault) (w : world) (d : gmap string string) (name value : string),
       let fresh := peek_bytes 32 w in
       let salt := peek_bytes 32 (World (files w) (entropy w) (drawn w + 32)) in
       let nonce := peek_bytes 12 (World (files w) (entropy w) (drawn w + 32 + 32 + 12)) in
       let ct := AESGCM_encrypt fresh nonce (json_dumps_compact (<[name := value]> d)) in
       let derived := _pbkdf2_key (passphrase_text (_passphrase v)) salt in
       _data v = Some d ->
       _key_mode v <> KEY_MODE_DPAPI ->
       no_passphrase (_passphrase v) = false ->
       16 <= length ct ->
       AESGCM_decrypt derived nonce ct = None ->
       exists v1 w1 v' w',
         rotate_key (v, w) = (Ok tt, (v1, w1))
         /\ store name value (v1, w1) = (Ok tt, (v', w'))
         /\ retrieve name (v', w') = (Ok value, (v', w'))
         /\ exists v'',
              retrieve name (__init__ (_passphrase v), w')
              = (Raise (VaultError VaultDecryptionFailed), (v'', w'))
              /\ _data v'' = None).
Proof.
  split.
  - intros v w name value fresh blob nonce ct Hdata Hfile Hmode Havail Hsha Hct Hun Hrej.
    pose proof (_ensure_loaded_no_file v w Hdata Hfile) as Hload.
    pose proof (_initialise_new_vault_unfold v w) as Hinit. cbv zeta in Hinit.
    rewrite Hinit, decide_True in Hload by exact Hmode. rewrite Havail in Hload.
    clear Hinit. fold fresh blob in Hload.
    match type of Hload with _ = (Ok tt, (?a, ?b)) =>
      set (v1 := a) in *; set (w1 := b) in * end.
    set (v' := set_data (Some (<[name := value]> ∅)) v1).
    pose proof (_save_unfold v' w1 fresh (<[name := value]> ∅) (sha256_digest blob)
                  eq_refl eq_refl eq_refl) as Hsave.
    cbv zeta in Hsave.
    match type of Hsave with context [saved_world ?c w1] =>
      destruct (saved_world_files c w1) as (Hfile' & _ & Hother);
      set (w' := saved_world c w1) in * end.
    exists v', w'.
    destruct (methods_unfold (v, w)) as (Hstore & _).
    split; [rewrite Hstore, Hload; exact Hsave|].
    split.
    { rewrite (retrieve_loaded v' w' (<[name := value]> ∅) name eq_refl), lookup_insert_eq.
      reflexivity. }
    intros passphrase. eexists.
    assert (Hside : files w' !! _dpapi_sidecar_path = Some blob).
    { rewrite Hother by discriminate. unfold w1.
      rewrite (proj2 (proj2 (saved_world_files _ _))) by discriminate.
      apply lookup_insert_eq. }
    rewrite (retrieve_reopened passphrase w' KEY_MODE_DPAPI (sha256_digest blob) nonce ct
               dpapi_description name).
    + rewrite Hrej. split; reflexivity.
    + rewrite Hfile'. cbn [v' v1 set_data set_wrapped set_aes_key _key_mode].
      rewrite Hmode. reflexivity.
    + exact Hsha.
    + apply length_peek_bytes.
    + exact Hct.
    + unfold recovers. rewrite decide_True by reflexivity. split; [exact Havail|].
      exists blob. split; [exact Hside|exact Hun].
  - intros v w d name value fresh salt nonce ct derived Hd Hmode Hpass Hct Hrej.
    pose proof (rotate_key_unfold (v, w)) as Hrotate.
    rewrite (_ensure_loaded_loaded v w d Hd) in Hrotate. cbv zeta in Hrotate.
    rewrite decide_False in Hrotate by exact Hmode. fold fresh salt in Hrotate.
    set (v1 := set_wrapped (Some salt) (set_aes_key (Some fresh) v)) in *.
    pose proof (_save_unfold v1 (World (files w) (entropy w) (drawn w + 32 + 32)) fresh d salt
                  eq_refl Hd eq_refl) as Hsave1.
    cbv zeta in Hsave1. rewrite Hsave1 in Hrotate. clear Hsave1.
    match type of Hrotate with _ = (Ok tt, (_, ?b)) => set (w1 := b) in * end.
    set (v' := set_data (Some (<[name := value]> d)) v1).
    pose proof (_save_unfold v' w1 fresh (<[name := value]> d) salt eq_refl eq_refl eq_refl)
      as Hsave.
    cbv zeta in Hsave.
    match type of Hsave with context [saved_world ?c w1] =>
      destruct (saved_world_files c w1) as (Hfile' & _ & _);
      set (w' := saved_world c w1) in * end.
    exists v1, w1, v', w'. split; [exact Hrotate|].
    destruct (methods_unfold (v1, w1)) as (Hstore & _).
    split.
    { rewrite Hstore, (_ensure_loaded_loaded v1 w1 d Hd).
      cbn [v1 set_wrapped set_aes_key _data]. rewrite Hd. exact Hsave. }
    split.
    { rewrite (retrieve_loaded v' w' (<[name := value]> d) name eq_refl), lookup_insert_eq.
      reflexivity. }
    eexists.
    rewrite (retrieve_reopened (_passphrase v) w' (_key_mode v) salt nonce ct derived name).
    + rewrite Hrej. split; reflexivity.
    + exact Hfile'.
    + apply length_peek_bytes.
    + apply length_peek_bytes.
    + exact Hct.
    + unfold recovers. rewrite decide_False by exact Hmode. split; [exact Hpass|reflexivity].
Qed.

End Code.
End VaultMore.

(** * vault.py: further concrete runs *)
Module VaultMoreRuns.
Import Vault VaultFacts VaultMore.
#[local] Existing Instance Sim.posix_lib.

(** X17 at a vault file of two bytes. *)
Lemma corrupt_header_witness :
  let s := (__init__ (Some "pw"), Sim.world_short_vault) in
  retrieve "gmail" s = (Raise (VaultError VaultTooSmall), s)
  /\ store "gmail" "ya29" s = (Raise (VaultError VaultTooSmall), s).
Proof.
  cbv zeta.
  destruct (corrupt_header_refused (H := Sim.posix_lib) (__init__ (Some "pw"))
              Sim.world_short_vault [x52; x55] eq_refl eq_refl) as (Hsmall & _ & _).
  destruct (Hsmall ltac:(cbn; lia)) as (_ & Hstore & Hretrieve & _).
  split; [apply Hretrieve|apply Hstore].
Defined.

(** X18 at an instance without passphrase on the empty disk. *)
Lemma passphrase_required_witness :
  exists s',
    store "gmail" "ya29" (__init__ None, Sim.world0)
    = (Raise (VaultError VaultPassphraseRequiredInit), s')
    /\ files s'.2 !! _path = None.
Proof.
  pose proof (passphrase_required (H := Sim.posix_lib) (__init__ None) Sim.world0
                eq_refl eq_refl) as Hrun.
  assert (Hfile : files Sim.world0 !! _path = None) by reflexivity.
  rewrite Hfile in Hrun.
  destruct (Hrun ltac:(discriminate)) as (_ & Hstore & _).
  eexists. split; [apply Hstore|reflexivity].
Defined.

(** X19 at the vault created with DPAPI, opened without pywin32. *)
Lemma dpapi_vault_witness :
  exists v',
    retrieve "gmail" (__init__ (Some "pw"), Sim.vault_stored_dpapi.2)
    = (Raise (VaultError VaultDpapiNotInstalled), (v', Sim.vault_stored_dpapi.2))
    /\ _data v' = None.
Proof.
  eexists. 
  edestruct (dpapi_vault_needs_dpapi (H := Sim.posix_lib) (__init__ (Some "pw"))
               Sim.vault_stored_dpapi.2) as (Hdata & Hmissing & _).
  - reflexivity.
  - vm_compute. reflexivity.
  - vm_compute. lia.
  - vm_compute. reflexivity.
  - vm_compute. reflexivity.
  - vm_compute. reflexivity.
  - destruct (Hmissing eq_refl) as (_ & _ & Hretrieve & _).
    split; [apply Hretrieve|exact Hdata].
Defined.

(** X20 at a new instance with a passphrase on the empty disk. *)
Lemma first_access_witness :
  exists v' w',
    retrieve "gmail" (__init__ (Some "pw"), Sim.world0) = (Raise KeyError, (v', w'))
    /\ is_Some (files w' !! _path)
    /\ drawn w' = 76.
Proof.
  destruct (first_access_creates_vault (H := Sim.posix_lib) (__init__ (Some "pw")) Sim.world0)
    as (v' & w' & _ & _ & Hfile & _ & Hdrawn & _ & _ & Hretrieve & _).
  - reflexivity.
  - reflexivity.
  - right. split; [discriminate|reflexivity].
  - exists v', w'. split; [apply Hretrieve|]. split; [exact Hfile|exact Hdrawn].
Defined.

(** X21 at a [store] on the stored vault with one bit of the ciphertext
    flipped. *)
Lemma failed_call_witness :
  let s := (__init__ (Some "pw"), Sim.world_flipped (8 * 51 + 3)) in
  call_raises (CallStore "gmail" "other") s = Some (VaultError VaultDecryptionFailed)
  /\ files (after_call (CallStore "gmail" "other") s).2 = files (Sim.world_flipped (8 * 51 + 3)).
Proof.
  cbv zeta.
  assert (Hraise : call_raises (CallStore "gmail" "other")
                     (__init__ (Some "pw"), Sim.world_flipped (8 * 51 + 3))
                   = Some (VaultError VaultDecryptionFailed)) by (vm_compute; reflexivity).
  split; [exact Hraise|].
  apply (failed_call_writes_nothing (H := Sim.posix_lib) (CallStore "gmail" "other")
           (__init__ (Some "pw")) (Sim.world_flipped (8 * 51 + 3))
           (VaultError VaultDecryptionFailed) SimFacts.loads_dict_dumps eq_refl).
  - intros raw k plaintext Hfile Hrec Hdec. exfalso.
    assert (Hraw : files (Sim.world_flipped (8 * 51 + 3)) !! _path
                   = Some (flip_bit (8 * 51 + 3) Sim.stored_file))
      by (vm_compute; reflexivity).
    rewrite Hraw in Hfile. injection Hfile as <-.
    vm_compute in Hrec. injection Hrec as <-.
    vm_compute in Hdec. discriminate Hdec.
  - exact Hraise.
  - discriminate.
Defined.

(** X22 at three calls on a new instance. *)
Lemma reachable_vault_witness :
  let s := after_calls [CallStore "gmail" "ya29"; CallRetrieve "none"; CallStore "imap" "pw1"]
             (__init__ (Some "pw"), Sim.world0) in
  _data s.1 = Some {["gmail" := "ya29"; "imap" := "pw1"]}
  /\ exists v',
       _ensure_loaded (__init__ (Some "pw"), s.2) = (Ok tt, (v', s.2))
       /\ _data v' = Some {["gmail" := "ya29"; "imap" := "pw1"]}.
Proof.
  cbv zeta.
  assert (Hdata : _data (after_calls
                    [CallStore "gmail" "ya29"; CallRetrieve "none"; CallStore "imap" "pw1"]
                    (__init__ (Some "pw"), Sim.world0)).1
                  = Some {["gmail" := "ya29"; "imap" := "pw1"]}) by (vm_compute; reflexivity).
  split; [exact Hdata|].
  destruct (reachable_vault_mirrors_disk (H := Sim.posix_lib)
              SimCryptoFacts.aead_round_trip SimCryptoFacts.aead_tag
              SimFacts.loads_dict_dumps eq_refl
              (Some "pw") Sim.world0
              [CallStore "gmail" "ya29"; CallRetrieve "none"; CallStore "imap" "pw1"]
              eq_refl) as (_ & Hmirror & Hpass).
  destruct (Hmirror _ Hdata) as (v' & Hopen & Hd).
  rewrite Hpass in Hopen. exists v'. split; [exact Hopen|exact Hd].
Defined.

Lemma vault_stored_consistent :
  vault_consistent Sim.vault_stored.1 Sim.vault_stored.2.
Proof.
  apply (store_consistent (H := Sim.posix_lib) eq_refl
           (__init__ (Some "pw")) Sim.world0 "gmail" "ya29").
  - exact I.
  - vm_compute. reflexivity.
Qed.

Lemma vault_stored_data : _data Sim.vault_stored.1 = Some {["gmail" := "ya29"]}.
Proof. vm_compute. reflexivity. Qed.

(** X23 at the stored vault, storing a second credential. *)
Lemma store_keeps_witness :
  exists v' w',
    store "imap" "pw1" (Sim.vault_stored.1, Sim.vault_stored.2) = (Ok tt, (v', w'))
    /\ retrieve "gmail" (v', w') = (Ok "ya29", (v', w'))
    /\ exists v'', retrieve "gmail" (__init__ (Some "pw"), w') = (Ok "ya29", (v'', w')).
Proof.
  destruct (store_keeps_other_credentials (H := Sim.posix_lib)
              SimCryptoFacts.aead_round_trip SimCryptoFacts.aead_tag
              SimFacts.loads_dict_dumps
              Sim.vault_stored.1 Sim.vault_stored.2 {["gmail" := "ya29"]} "imap" "pw1"
              vault_stored_consistent vault_stored_data)
    as (v' & w' & Hstore & _ & _ & Hothers).
  exists v', w'. split; [exact Hstore|].
  destruct (Hothers "gmail" ltac:(discriminate)) as [Hsame Hnew].
  split; [exact Hsame|exact Hnew].
Defined.

(** X24 at the stored vault. *)
Lemma delete_round_trip_witness :
  exists v' w',
    delete "gmail" (Sim.vault_stored.1, Sim.vault_stored.2) = (Ok tt, (v', w'))
    /\ retrieve "gmail" (v', w') = (Raise KeyError, (v', w'))
    /\ exists v'', retrieve "gmail" (__init__ (Some "pw"), w') = (Raise KeyError, (v'', w')).
Proof.
  destruct (delete_round_trip (H := Sim.posix_lib)
              SimCryptoFacts.aead_round_trip SimCryptoFacts.aead_tag
              SimFacts.loads_dict_dumps
              Sim.vault_stored.1 Sim.vault_stored.2 {["gmail" := "ya29"]} "gmail"
              vault_stored_consistent vault_stored_data)
    as (v' & w' & Hdelete & Hsame & _ & Hnew & _).
  - exists "ya29". reflexivity.
  - exists v', w'. split; [exact Hdelete|]. split; [exact Hsame|exact Hnew].
Defined.

(** X25 at the stored vault, storing a second credential. *)
Lemma list_keys_witness :
  exists v' w' l,
    store "imap" "pw1" (Sim.vault_stored.1, Sim.vault_stored.2) = (Ok tt, (v', w'))
    /\ list_keys (v', w') = (Ok l, (v', w'))
    /\ (exists v'', list_keys (__init__ (Some "pw"), w') = (Ok l, (v'', w')))
    /\ "imap" ∈ l /\ "gmail" ∈ l.
Proof.
  destruct (list_keys_after_store (H := Sim.posix_lib)
              SimCryptoFacts.aead_round_trip SimCryptoFacts.aead_tag
              SimFacts.loads_dict_dumps
              Sim.vault_stored.1 Sim.vault_stored.2 {["gmail" := "ya29"]} "imap" "pw1"
              vault_stored_consistent vault_stored_data)
    as (v' & w' & l & Hstore & Hsame & Hnew & _ & Hin).
  exists v', w', l. split; [exact Hstore|]. split; [exact Hsame|]. split; [exact Hnew|].
  split; apply Hin; [left; reflexivity|right; exists "ya29"; reflexivity].
Defined.

End VaultMoreRuns.

(** * vault.py: concrete runs with DPAPI *)
Module VaultDpapiRuns.
Import Vault VaultFacts VaultMore.
#[local] Existing Instance Sim.windows_lib.

(** C2 with DPAPI at a first [store] on the empty disk, and with a passphrase
    at a [store] on the stored vault after [rotate_key]. *)
Lemma store_not_reopened_witness :
  (exists v' w',
     store "gmail" "ya29" (__init__ None, Sim.world0) = (Ok tt, (v', w'))
     /\ retrieve "gmail" (v', w') = (Ok "ya29", (v', w'))
     /\ exists v'',
          retrieve "gmail" (__init__ None, w')
          = (Raise (VaultError VaultDecryptionFailed), (v'', w')))
  /\ (exists v1 w1 v' w',
        rotate_key (H := Sim.posix_lib) (Sim.vault_stored.1, Sim.vault_stored.2)
        = (Ok tt, (v1, w1))
        /\ store (H := Sim.posix_lib) "imap" "pw1" (v1, w1) = (Ok tt, (v', w'))
        /\ retrieve (H := Sim.posix_lib) "imap" (v', w') = (Ok "pw1", (v', w'))
        /\ exists v'',
             retrieve (H := Sim.posix_lib) "imap"
               (__init__ (H := Sim.posix_lib) (Some "pw"), w')
             = (Raise (VaultError VaultDecryptionFailed), (v'', w'))).
Proof.
  split.
  - destruct (proj1 (store_not_reopened (H := Sim.windows_lib))
                (__init__ None) Sim.world0 "gmail" "ya29")
      as (v' & w' & Hstore & Hsame & Hnew).
    + reflexivity.
    + reflexivity.
    + reflexivity.
    + reflexivity.
    + apply SimCryptoFacts.digest_length.
    + apply SimCryptoFacts.aead_tag.
    + reflexivity.
    + vm_compute. reflexivity.
    + exists v', w'. split; [exact Hstore|]. split; [exact Hsame|].
      destruct (Hnew None) as (v'' & Hraise & _). exists v''. exact Hraise.
  - destruct (proj2 (store_not_reopened (H := Sim.posix_lib))
                Sim.vault_stored.1 Sim.vault_stored.2 {["gmail" := "ya29"]} "imap" "pw1")
      as (v1 & w1 & v' & w' & Hrotate & Hstore & Hsame & v'' & Hraise & _).
    + vm_compute. reflexivity.
    + vm_compute. discriminate.
    + reflexivity.
    + apply SimCryptoFacts.aead_tag.
    + vm_compute. reflexivity.
    + exists v1, w1, v', w'. split; [exact Hrotate|]. split; [exact Hstore|].
      split; [exact Hsame|]. exists v''. exact Hraise.
Defined.

End VaultDpapiRuns.

(** * audit.py and vault.py *)
Module AuditFacts.
Import Vault VaultFacts VaultMore.

Section Code.
Context `{CryptoLib}.

Lemma has_critical_or_high_add f findings :
  Audit.has_critical_or_high (Audit.add f findings)
  = Audit.has_critical_or_high findings
    || (String.eqb (Audit.severity f) Audit.CRITICAL || String.eqb (Audit.severity f) Audit.HIGH).
Proof.
  unfold Audit.has_critical_or_high, Audit.add. rewrite existsb_app. cbn [existsb].
  rewrite orb_false_r. reflexivity.
Qed.



(** X28. The audit compares the magic bytes only. For a vault file that
    starts with them and is shorter than 67 bytes, or carries a version other
    than 1, [_check_vault] adds VAULT-003 ("Encrypted vault present", INFO)
    and no critical or high finding, while every method of a [Vault] that
    opens the file raises [VaultError]. *)
Theorem audit_checks_magic_only
    (v : Vault) (w : world) (raw : bytes) (findings : list Audit.Finding) :
  _data v = None ->
  files w !! _path = Some raw ->
  take 4 raw = MAGIC ->
  length raw < 67 \/ unpack_H raw 4 <> VERSION ->
  Audit._check_vault w findings
  = findings ++ [Audit.Build "VAULT-003" Audit.INFO "Encrypted vault present" false]
  /\ Audit.has_critical_or_high (Audit._check_vault w findings)
     = Audit.has_critical_or_high findings
  /\ every_method_raises
       (VaultError (if decide (length raw < 67) then VaultTooSmall
                    else VaultUnsupportedVersion))
       (v, w) (v, w).
Proof.
  intros Hdata Hfile Hmagic Hbad.
  assert (Hcheck : Audit._check_vault w findings
                   = Audit.add (Audit.Build "VAULT-003" Audit.INFO "Encrypted vault present" false)
                       findings).
  { unfold Audit._check_vault. rewrite Hfile.
    rewrite bool_decide_eq_true_2 by exact Hmagic. reflexivity. }
  split; [exact Hcheck|]. split.
  { rewrite Hcheck, has_critical_or_high_add. cbn. apply orb_false_r. }
  pose proof (_ensure_loaded_locked v w raw Hdata Hfile) as Hload.
  rewrite (_load_unfold v w raw Hfile) in Hload.
  apply every_method_raises_intro. rewrite Hload.
  destruct (decide (length raw < 67)) as [Hsmall|Hbig]; [reflexivity|].
  destruct Hbad as [?|Hversion]; [lia|].
  rewrite bool_decide_eq_true_2 by exact Hmagic. cbn [negb].
  apply N.eqb_neq in Hversion. rewrite Hversion. reflexivity.
Qed.

End Code.
End AuditFacts.

Module AuditRuns.
Import Vault VaultFacts VaultMore AuditFacts.
#[local] Existing Instance Sim.posix_lib.


(** X28 at a vault file that holds the magic bytes and nothing else. *)
Lemma audit_magic_only_witness :
  let w := set_files (insert _path MAGIC) Sim.world0 in
  Audit._check_vault w []
  = [Audit.Build "VAULT-003" Audit.INFO "Encrypted vault present" false]
  /\ retrieve "gmail" (__init__ (Some "pw"), w)
     = (Raise (VaultError VaultTooSmall), (__init__ (Some "pw"), w)).
Proof.
  cbv zeta.
  destruct (audit_checks_magic_only (H := Sim.posix_lib) (__init__ (Some "pw"))
              (set_files (insert _path MAGIC) Sim.world0) MAGIC [])
    as (Hcheck & _ & _ & _ & Hretrieve & _).
  - reflexivity.
  - apply lookup_insert_eq.
  - reflexivity.
  - left. cbn. lia.
  - split; [exact Hcheck|]. exact (Hretrieve "gmail").
Defined.

End AuditRuns.
